(** * Theory of Change visualiser: the diagram layout and shared-output engine

    A shallow embedding of [js/svgVisualizer.js] ([generateSVGVisualization],
    [createNode], [createConnection]) and of [StorageManager.isValidData],
    with the properties of the layout pipeline proved over it; then of the
    code around the engine: the class [TocDataModel] that edits the
    snapshot, [renderSVGVisualization], and the two other views of a
    snapshot, [generateMarkdown] and [generatePreview].

    Conventions of the embedding.
    - A JavaScript string is the list of its UTF-16 code units ([jsstr]);
      [.length] is [length], [+] is [++], [substring(0,n)] is [firstn n].
    - A JavaScript number is an exact rational ([Q]); every quantity of the
      layout is a ratio of small integers.  Array lengths and indices are
      [nat], injected where the code mixes them with coordinates.
    - A property that a parsed snapshot may lack is an [option]; reading
      through a missing one raises the [TypeError] the engine raises.
    - The DOM is the ordered child list of the [svg] element; every element
      that becomes a child carries the identity it got at creation. *)

From Stdlib Require Import Ascii String DecimalString.
From Stdlib Require Import List Arith PeanoNat NArith ZArith QArith Qminmax.
From Stdlib Require Import Lia Lqa Bool Permutation.
Import ListNotations.

(** ** Strings *)

Module JsString.

Definition jsstr := list N.

(** A literal: one code unit per character (the literals of the source are
    all in the Basic Latin block). *)
Definition lit (s : String.string) : jsstr :=
  map Ascii.N_of_ascii (String.list_ascii_of_string s).
Arguments lit s%_string_scope.

Definition space : N := 32%N.

(** U+2026 HORIZONTAL ELLIPSIS, one code unit. *)
Definition ellipsis : N := 8230%N.

Fixpoint eqb (a b : jsstr) : bool :=
  match a, b with
  | [], [] => true
  | x :: a', y :: b' => N.eqb x y && eqb a' b'
  | _, _ => false
  end.

(** Truthiness of a string: the empty string is falsy. *)
Definition truthy (s : jsstr) : bool :=
  match s with [] => false | _ :: _ => true end.

(** WhiteSpace and LineTerminator code units, as [String.prototype.trim]
    strips them. *)
Definition isWhiteSpace (c : N) : bool :=
  (N.eqb c 9 || N.eqb c 10 || N.eqb c 11 || N.eqb c 12 || N.eqb c 13
   || N.eqb c 32 || N.eqb c 160 || N.eqb c 5760
   || (N.leb 8192 c && N.leb c 8202)
   || N.eqb c 8232 || N.eqb c 8233 || N.eqb c 8239 || N.eqb c 8287
   || N.eqb c 12288 || N.eqb c 65279)%bool.

Fixpoint trimStart (s : jsstr) : jsstr :=
  match s with
  | c :: s' => if isWhiteSpace c then trimStart s' else s
  | [] => []
  end.

Definition trim (s : jsstr) : jsstr :=
  rev (trimStart (rev (trimStart s))).

(** Case mapping of one code unit.  The Basic Latin and Latin-1 Supplement
    capitals are mapped; a code unit of another block, whose mapping needs
    the Unicode tables, is left as it is: [toLowerCase] is that of the
    program on the strings whose capitals are of these two blocks. *)
Definition lowerUnit (c : N) : N :=
  if (N.leb 65 c && N.leb c 90)%bool then (c + 32)%N
  else if (N.leb 192 c && N.leb c 222 && negb (N.eqb c 215))%bool then (c + 32)%N
  else c.

Definition toLowerCase (s : jsstr) : jsstr := map lowerUnit s.

(** [s.split(sep)] for a one-unit separator: never the empty array. *)
Fixpoint split (sep : N) (s : jsstr) : list jsstr :=
  match s with
  | [] => [[]]
  | c :: s' =>
      if N.eqb c sep then [] :: split sep s'
      else match split sep s' with
           | w :: ws => (c :: w) :: ws
           | [] => [[c]]
           end
  end.

(** [words.join(sep)]. *)
Fixpoint join (sep : N) (ws : list jsstr) : jsstr :=
  match ws with
  | [] => []
  | [w] => w
  | w :: ws' => w ++ sep :: join sep ws'
  end.

(** A non-negative integer inside a template literal. *)
Definition ofNat (n : nat) : jsstr :=
  lit (DecimalString.NilEmpty.string_of_uint (Nat.to_uint n)).

End JsString.
Import JsString.

(** ** Configuration (lines 13-28) *)

Module config.
Definition width : Q := 1200.
Definition levelHeight : Q := 180.
Definition itemWidth : Q := 200.
Definition itemHeight : Q := 80.
Definition horizontalGap : Q := 40.
Definition verticalGap : Q := 20.
Definition padding : Q := 20.
Module colors.
Definition impact := lit "#1976d2".
Definition outcome := lit "#388e3c".
Definition output := lit "#f57c00".
Definition connection := lit "#999".
Definition indicator := lit "#666".
End colors.
End config.

(** ** The elements [createNode] and [createConnection] build *)

Record Rect := {
  rect_x : Q; rect_y : Q; rect_width : Q; rect_height : Q;
  rect_fill : jsstr; rect_stroke : jsstr; rect_stroke_width : Q;
  rect_title : jsstr          (* the <title> child: the full text *)
}.

Record TextEl := { text_x : Q; text_y : Q; textContent : jsstr }.

Record Badge := {
  badge_cx : Q; badge_cy : Q;
  badge_text : jsstr;         (* the count drawn in the circle *)
  badge_title : jsstr         (* the <title> child of the circle *)
}.

Record Group := {
  g_rect : Rect;
  g_label : TextEl;
  g_lines : list TextEl;
  g_badge : option Badge
}.

Record PathEl := {
  p_x1 : Q; p_y1 : Q; p_midY : Q; p_x2 : Q; p_y2 : Q;
  p_stroke : jsstr; p_stroke_width : Q; p_opacity : Q;
  p_dasharray : option jsstr
}.

(** ** The text fitter inside [createNode] (lines 232-274) *)

Definition maxChars : nat := 60.
Definition maxCharsPerLine : nat := 30.
Definition maxLines : nat := 2.

(** Line 233. *)
Definition truncatedText (text : jsstr) : jsstr :=
  if 60 <? length text then firstn 57 text ++ lit "..." else text.

(** One turn of the [words.forEach] of lines 252-259, on the pair
    [(lines, currentLine)]. *)
Definition wrapWord (st : list jsstr * jsstr) (word : jsstr)
  : list jsstr * jsstr :=
  let '(lines, currentLine) := st in
  if length (currentLine ++ word) <=? maxCharsPerLine
  then (lines,
        currentLine ++ (if truthy currentLine then [space] else []) ++ word)
  else ((if truthy currentLine then lines ++ [currentLine] else lines), word).

(** Lines 247-260: the array [lines]. *)
Definition wrapLines (words : list jsstr) : list jsstr :=
  let '(lines, currentLine) := fold_left wrapWord words ([], []) in
  if truthy currentLine then lines ++ [currentLine] else lines.

Definition textLines (text : jsstr) : list jsstr :=
  wrapLines (split space (truncatedText text)).

(** Lines 263 and 272: what the [i]-th text element shows. *)
Definition shownLine (lines : list jsstr) (i : nat) (line : jsstr) : jsstr :=
  line ++ (if (i =? maxLines - 1) && (maxLines <? length lines)
           then lit "..." else []).

Fixpoint mapi_from {A B} (f : nat -> A -> B) (i : nat) (l : list A) : list B :=
  match l with
  | [] => []
  | a :: l' => f i a :: mapi_from f (S i) l'
  end.

Definition displayLines (text : jsstr) : list jsstr :=
  let lines := textLines text in
  mapi_from (shownLine lines) 0 (firstn maxLines lines).

(** Lines 276-303. *)
Definition indicatorBadge (x y width : Q) (indicatorCount : nat)
  : option Badge :=
  if 0 <? indicatorCount then
    let badgeX := x + width - 15 in
    let badgeY := y + 5 in
    Some {| badge_cx := badgeX; badge_cy := badgeY;
            badge_text := ofNat indicatorCount;
            badge_title := ofNat indicatorCount ++ lit " indicator"
                           ++ (if 1 <? indicatorCount then lit "s" else []) |}
  else None.

(** The group [createNode] returns, for a [text] that is a string. *)
Definition nodeGroup (x y width height : Q) (text color label : jsstr)
  (indicatorCount : nat) (isShared : bool) : Group :=
  {| g_rect := {| rect_x := x; rect_y := y;
                  rect_width := width; rect_height := height;
                  rect_fill := color;
                  rect_stroke := if isShared then lit "#d32f2f" else color;
                  rect_stroke_width := if isShared then 3 else 1;
                  rect_title := text |};
     g_label := {| text_x := x + width / 2; text_y := y + 20;
                   textContent := label |};
     g_lines := mapi_from
                  (fun i line =>
                     {| text_x := x + width / 2;
                        text_y := y + 38 + inject_Z (Z.of_nat i) * 14;
                        textContent := line |})
                  0 (displayLines text);
     g_badge := indicatorBadge x y width indicatorCount |}.

(** Lines 323-344. *)
Definition createConnection (x1 y1 x2 y2 : Q) (color : jsstr)
  (isShared : bool) : PathEl :=
  let midY := (y1 + y2) / 2 in
  {| p_x1 := x1; p_y1 := y1; p_midY := midY; p_x2 := x2; p_y2 := y2;
     p_stroke := color;
     p_stroke_width := if isShared then 5 # 2 else 3 # 2;
     p_opacity := if isShared then 8 # 10 else 5 # 10;
     p_dasharray := if isShared then Some (lit "5,5") else None |}.

(** ** The data model (a parsed snapshot)

    The snapshots of the embedding.  A statement is a string or is missing;
    a property that is to hold an array holds one or is missing ([null] or
    [undefined]), a value that is neither being outside the embedding.  An
    entry of an array of indicators is an indicator or [null], which
    [isValidData] does not tell apart; the entries of the other arrays are
    objects. *)

Record Indicator := { indicator_id : jsstr; indicator_description : jsstr }.

Record Output := {
  output_id : jsstr;
  output_statement : option jsstr;
  output_indicators : option (list (option Indicator))
}.

Record Outcome := {
  outcome_id : jsstr;
  outcome_statement : option jsstr;
  outcome_indicators : option (list (option Indicator));
  outcome_outputs : option (list Output)
}.

Record Impact := { impact_id : jsstr; impact_statement : option jsstr }.

Record Data := {
  data_version : option jsstr;
  data_lastModified : option jsstr;
  data_impact : option Impact;
  data_outcomes : option (list Outcome)
}.

(** ** Exceptions and the DOM under construction *)

Inductive Exception :=
| TypeError (site : string)   (* the expression that could not be evaluated *)
| NotFoundError.              (* [insertBefore] with a foreign reference *)

Inductive Result (A : Type) :=
| Ok (a : A)
| Throw (e : Exception).
Arguments Ok {A} a.
Arguments Throw {A} e.

Inductive Content :=
| Title (text : jsstr)
| Desc (text : jsstr)
| Defs
| G (g : Group)
| Path (p : PathEl).

Record Element := { uid : nat; content : Content }.

Record Dom := { next_uid : nat; children : list Element }.

Definition M (A : Type) : Type := Dom -> Result (A * Dom).

Definition ret {A} (a : A) : M A := fun d => Ok (a, d).

Definition bind {A B} (c : M A) (k : A -> M B) : M B :=
  fun d => match c d with
           | Ok (a, d') => k a d'
           | Throw e => Throw e
           end.

Definition throw {A} (e : Exception) : M A := fun _ => Throw e.

Declare Scope js_scope.
Delimit Scope js_scope with js.
Notation "x <- c ;; k" := (bind c (fun x => k))
  (at level 61, c at next level, right associativity) : js_scope.
Notation "c ;; k" := (bind c (fun _ => k))
  (at level 61, right associativity) : js_scope.
Open Scope js_scope.

(** Reading through a property: a [TypeError] when it is missing. *)
Definition expect {A} (site : string) (v : option A) : M A :=
  match v with
  | Some a => ret a
  | None => throw (TypeError site)
  end.

(** [array.forEach((item, index) => ...)], the variables the callback
    assigns being threaded as [s]. *)
Fixpoint forEach_from {A St} (f : A -> nat -> St -> M St) (l : list A)
  (index : nat) (s : St) : M St :=
  match l with
  | [] => ret s
  | a :: l' => s' <- f a index s ;; forEach_from f l' (S index) s'
  end.

Definition forEach {A St} (f : A -> nat -> St -> M St) (l : list A) (s : St)
  : M St := forEach_from f l 0 s.

Definition createElementNS (c : Content) : M Element :=
  fun d => Ok ({| uid := next_uid d; content := c |},
               {| next_uid := S (next_uid d); children := children d |}).

Definition appendChild (e : Element) : M unit :=
  fun d => Ok (tt, {| next_uid := next_uid d;
                      children := children d ++ [e] |}).

Fixpoint insert_before (new : Element) (ref : nat) (l : list Element)
  : option (list Element) :=
  match l with
  | [] => None
  | e :: l' =>
      if uid e =? ref then Some (new :: e :: l')
      else option_map (cons e) (insert_before new ref l')
  end.

(** [svg.insertBefore(new, ref)]; a null [ref] appends. *)
Definition insertBefore (new : Element) (ref : option Element) : M unit :=
  match ref with
  | None => appendChild new
  | Some r =>
      fun d => match insert_before new (uid r) (children d) with
               | Some l => Ok (tt, {| next_uid := next_uid d; children := l |})
               | None => Throw NotFoundError
               end
  end.

Definition firstChild : M (option Element) :=
  fun d => Ok (hd_error (children d), d).

Fixpoint next_sibling (ref : nat) (l : list Element) : option Element :=
  match l with
  | [] => None
  | e :: l' => if uid e =? ref then hd_error l' else next_sibling ref l'
  end.

Definition nextSibling (e : Element) : M (option Element) :=
  fun d => Ok (next_sibling (uid e) (children d), d).

(** ** [createNode] (lines 215-311) *)

Record Node := {
  group : Element;
  node_x : Q; node_y : Q; node_width : Q; node_height : Q
}.

(** [text.length] raises when [text] is not a string.  The [g] element is
    the only one of the node that the caller refers to by identity. *)
Definition createNode (x y width height : Q) (text : option jsstr)
  (color label : jsstr) (indicatorCount : nat) (isShared : bool) : M Node :=
  t <- expect "text.length" text ;;
  g <- createElementNS
         (G (nodeGroup x y width height t color label indicatorCount isShared)) ;;
  ret {| group := g; node_x := x; node_y := y;
         node_width := width; node_height := height |}.

(** ** The output de-duplication (lines 30-47) *)

Record OutputData := { output : Output; outcomeIds : list jsstr }.

(** A [Map] iterates in insertion order: an association list. *)
Definition OutputsMap := list (jsstr * OutputData).

Definition map_has (key : jsstr) (m : OutputsMap) : bool :=
  existsb (fun kv => JsString.eqb (fst kv) key) m.

(** [outputsMap.get(key).outcomeIds.push(id)]. *)
Fixpoint map_push (key id : jsstr) (m : OutputsMap) : OutputsMap :=
  match m with
  | [] => []
  | (k, v) :: m' =>
      if JsString.eqb k key
      then (k, {| output := output v; outcomeIds := outcomeIds v ++ [id] |}) :: m'
      else (k, v) :: map_push key id m'
  end.

(** [outputsMap.set(key, v)] for a key that is not in the map. *)
Definition map_set (key : jsstr) (v : OutputData) (m : OutputsMap)
  : OutputsMap := m ++ [(key, v)].

Definition statementKey (statement : jsstr) : jsstr :=
  toLowerCase (trim statement).

Definition collectOutput (outcome : Outcome) (o : Output) (_ : nat)
  (outputsMap : OutputsMap) : M OutputsMap :=
  statement <- expect "output.statement.trim" (output_statement o) ;;
  let key := statementKey statement in
  if map_has key outputsMap
  then ret (map_push key (outcome_id outcome) outputsMap)
  else ret (map_set key {| output := o; outcomeIds := [outcome_id outcome] |}
                    outputsMap).

Definition collectOutcome (outcome : Outcome) (_ : nat)
  (outputsMap : OutputsMap) : M OutputsMap :=
  outputs <- expect "outcome.outputs.forEach" (outcome_outputs outcome) ;;
  forEach (collectOutput outcome) outputs outputsMap.

Definition collectUniqueOutputs (data : Data) : M (list OutputData) :=
  outcomes <- expect "data.outcomes.forEach" (data_outcomes data) ;;
  outputsMap <- forEach collectOutcome outcomes [] ;;
  ret (map snd outputsMap).

(** ** [generateSVGVisualization] (lines 11-200) *)

Definition ofLength (n : nat) : Q := inject_Z (Z.of_nat n).

Record OutcomeNode := {
  on_id : jsstr; on_x : Q; on_y : Q; on_node : Node
}.

Record OutputNode := {
  un_outcomeIds : list jsstr; un_x : Q; un_y : Q; un_node : Node
}.

(** Lines 50-54. *)
Definition maxItemsPerRow (outcomes uniqueOutputs : nat) : nat :=
  Nat.max (Nat.max outcomes uniqueOutputs) 1.

Definition totalWidthOf (outcomes uniqueOutputs : nat) : Q :=
  Qmax config.width
       (ofLength (maxItemsPerRow outcomes uniqueOutputs)
        * (config.itemWidth + config.horizontalGap) + config.padding * 2).

(** Line 55. *)
Definition totalHeight : Q := config.levelHeight * 3 + config.padding * 2.

Definition titleText : jsstr :=
  lit "Theory of Change showing impact, outcomes, and outputs with their relationships".

(** Line 72. *)
Definition descText (outcomes uniqueOutputs : nat) : jsstr :=
  lit "Visualization showing " ++ ofNat outcomes
  ++ lit " outcomes supporting the impact statement, with "
  ++ ofNat uniqueOutputs ++ lit " unique outputs.".

(** The callback of line 111, on the array [outcomeNodes].  Line 114 reads
    [outcome.indicators.length], which raises when the property is [null] or
    [undefined]: of the snapshots of the embedding, when it is not an
    array. *)
Definition outcomeStep (totalWidth outcomeSpacing : Q) (impactNode : Node)
  (outcome : Outcome) (index : nat) (outcomeNodes : list OutcomeNode)
  : M (list OutcomeNode) :=
  let impactY := config.padding + config.itemHeight / 2 in
  let impactX := totalWidth / 2 in
  let x := outcomeSpacing * ofLength (index + 1) - config.itemWidth / 2 in
  let y := config.padding + config.levelHeight in
  indicators <- expect "outcome.indicators.length" (outcome_indicators outcome) ;;
  let indicatorCount := length indicators in
  node <- createNode x y config.itemWidth config.itemHeight
            (outcome_statement outcome) config.colors.outcome (lit "Outcome")
            indicatorCount false ;;
  appendChild (group node) ;;
  let outcomeNodes' :=
    outcomeNodes ++ [{| on_id := outcome_id outcome;
                        on_x := x + config.itemWidth / 2;
                        on_y := y + config.itemHeight;
                        on_node := node |}] in
  connection <- createElementNS
                  (Path (createConnection impactX (impactY + config.itemHeight / 2)
                           (x + config.itemWidth / 2) y
                           config.colors.connection false)) ;;
  insertBefore connection (Some (group impactNode)) ;;
  ret outcomeNodes'.

(** The callback of line 182. *)
Definition connectStep (outcomeNodes : list OutcomeNode) (x y : Q)
  (isShared : bool) (outcomeId : jsstr) (_ : nat) (_ : unit) : M unit :=
  match find (fun n => JsString.eqb (on_id n) outcomeId) outcomeNodes with
  | Some outcomeNode =>
      connection <- createElementNS
                      (Path (createConnection (on_x outcomeNode) (on_y outcomeNode)
                               (x + config.itemWidth / 2) y
                               config.colors.connection isShared)) ;;
      first <- firstChild ;;
      first <- expect "svg.firstChild.nextSibling" first ;;
      ref <- nextSibling first ;;
      insertBefore connection ref
  | None => ret tt
  end.

(** Line 159. *)
Definition outputLabel (outcomeIds : list jsstr) : jsstr :=
  if 1 <? length outcomeIds
  then lit "Output (shared across " ++ ofNat (length outcomeIds) ++ lit " outcomes)"
  else lit "Output".

(** The callback of line 151, on the array [outputNodes].  Line 155 reads
    [output.indicators.length], as line 114 does of an outcome. *)
Definition outputStep (outputSpacing : Q) (outcomeNodes : list OutcomeNode)
  (outputData : OutputData) (index : nat) (outputNodes : list OutputNode)
  : M (list OutputNode) :=
  let outputsY := config.padding + config.levelHeight * 2 in
  let x := outputSpacing * ofLength (index + 1) - config.itemWidth / 2 in
  let y := outputsY in
  let o := output outputData in
  indicators <- expect "output.indicators.length" (output_indicators o) ;;
  let indicatorCount := length indicators in
  let isShared := 1 <? length (outcomeIds outputData) in
  let label := outputLabel (outcomeIds outputData) in
  node <- createNode x y config.itemWidth config.itemHeight
            (output_statement o) config.colors.output label
            indicatorCount isShared ;;
  appendChild (group node) ;;
  let outputNodes' :=
    outputNodes ++ [{| un_outcomeIds := outcomeIds outputData;
                       un_x := x + config.itemWidth / 2;
                       un_y := y;
                       un_node := node |}] in
  forEach (connectStep outcomeNodes x y isShared) (outcomeIds outputData) tt ;;
  ret outputNodes'.

Record Svg := {
  svg_width : Q;
  svg_height : Q;
  svg_children : list Element
}.

Definition build (data : Data) : M (Q * Q) :=
  uniqueOutputs <- collectUniqueOutputs data ;;
  outcomes <- expect "data.outcomes.length" (data_outcomes data) ;;
  let totalWidth := totalWidthOf (length outcomes) (length uniqueOutputs) in
  title <- createElementNS (Title titleText) ;;
  appendChild title ;;
  desc <- createElementNS
            (Desc (descText (length outcomes) (length uniqueOutputs))) ;;
  appendChild desc ;;
  defs <- createElementNS Defs ;;
  appendChild defs ;;
  (* Layer 1: Impact *)
  let impactX := totalWidth / 2 in
  impact <- expect "data.impact.statement" (data_impact data) ;;
  impactNode <- createNode (impactX - config.itemWidth / 2) config.padding
                  (config.itemWidth * (3 # 2)) config.itemHeight
                  (impact_statement impact) config.colors.impact (lit "Impact")
                  0 false ;;
  appendChild (group impactNode) ;;
  (* Layer 2: Outcomes *)
  let outcomeSpacing := totalWidth / ofLength (length outcomes + 1) in
  outcomeNodes <- forEach (outcomeStep totalWidth outcomeSpacing impactNode)
                    outcomes [] ;;
  (* Layer 3: Outputs *)
  let outputSpacing := totalWidth / ofLength (length uniqueOutputs + 1) in
  _ <- forEach (outputStep outputSpacing outcomeNodes) uniqueOutputs [] ;;
  ret (totalWidth, totalHeight).

Definition emptyDom : Dom := {| next_uid := 0; children := [] |}.

Definition generateSVGVisualization (data : Data) : Result Svg :=
  match build data emptyDom with
  | Ok ((w, h), d) =>
      Ok {| svg_width := w; svg_height := h; svg_children := children d |}
  | Throw e => Throw e
  end.

(** ** [StorageManager.isValidData]

    [data] is a record here, so the first test of the source
    ([!data || typeof data !== 'object']) never fires; an id is a string,
    the empty one standing for a missing id (both are falsy). *)

Definition isArray {A} (v : option (list A)) : bool :=
  match v with Some _ => true | None => false end.

Definition truthyProp (v : option jsstr) : bool :=
  match v with Some s => truthy s | None => false end.

Definition validOutput (o : Output) : bool :=
  if negb (truthy (output_id o)) || negb (isArray (output_indicators o))
  then false else true.

Definition validOutcome (outcome : Outcome) : bool :=
  if negb (truthy (outcome_id outcome))
     || negb (isArray (outcome_indicators outcome))
     || negb (isArray (outcome_outputs outcome))
  then false
  else match outcome_outputs outcome with
       | Some outputs => forallb validOutput outputs
       | None => false
       end.

Definition isValidData (data : Data) : bool :=
  if negb (truthyProp (data_version data)) then false
  else match data_impact data with
       | None => false
       | Some impact =>
           if negb (truthyProp (impact_statement impact)) then false
           else match data_outcomes data with
                | None => false
                | Some outcomes => forallb validOutcome outcomes
                end
       end.

(** ** Reading the scene *)

Definition nodes (svg : Svg) : list Group :=
  flat_map (fun e => match content e with G g => [g] | _ => [] end)
           (svg_children svg).

Definition connectors (svg : Svg) : list PathEl :=
  flat_map (fun e => match content e with Path p => [p] | _ => [] end)
           (svg_children svg).

Definition isNode (e : Element) : bool :=
  match content e with G _ => true | _ => false end.

Definition isConnector (e : Element) : bool :=
  match content e with Path _ => true | _ => false end.

(** The output node is drawn as shared: its red outline. *)
Definition drawnShared (g : Group) : bool :=
  JsString.eqb (rect_stroke (g_rect g)) (lit "#d32f2f").

(** The connector is drawn as shared: its dash pattern. *)
Definition connectorShared (p : PathEl) : bool :=
  match p_dasharray p with Some _ => true | None => false end.

(** A connector ends on the top centre of the node it targets. *)
Definition targets (p : PathEl) (g : Group) : bool :=
  Qeq_bool (p_x2 p) (rect_x (g_rect g) + rect_width (g_rect g) / 2)
  && Qeq_bool (p_y2 p) (rect_y (g_rect g)).

(** * Definitions for the statements

    Predicates over snapshots and scenes, the pipeline written as a function
    of the snapshot, and the snapshots used as examples. *)

Open Scope nat_scope.

(** ** The pre-wrap truncation (line 233) *)

(** The truncation as the specification words it: cut at [maxChars] and
    close with the ellipsis character. *)
Definition truncationWithEllipsis (text : jsstr) : jsstr :=
  if maxChars <? length text then firstn maxChars text ++ [ellipsis] else text.

(** ** The text fitter (lines 232-274 and 305-308) *)

(** The words behind each line: [wrapWord] replayed on lists of words. *)
Definition groupWord (st : list (list jsstr) * list jsstr) (word : jsstr)
  : list (list jsstr) * list jsstr :=
  let '(groups, current) := st in
  if length (join space current ++ word) <=? maxCharsPerLine
  then (groups,
        match current with
        | [] => if truthy word then [word] else []
        | _ :: _ => current ++ [word]
        end)
  else (match current with [] => groups | _ :: _ => groups ++ [current] end,
        if truthy word then [word] else []).

Definition wordGroups (words : list jsstr) : list (list jsstr) :=
  let '(groups, current) := fold_left groupWord words ([], []) in
  match current with [] => groups | _ :: _ => groups ++ [current] end.

(** A line in progress starts with a word that is not empty. *)
Definition headed (grp : list jsstr) : Prop :=
  match grp with [] => True | w :: _ => w <> [] end.

(** A finished line: some words, the first of them not empty. *)
Definition wholeLine (grp : list jsstr) : Prop :=
  exists w ws, grp = w :: ws /\ w <> [].

(** A line of several words stays within 31 characters. *)
Definition lineBound (grp : list jsstr) : Prop :=
  length (join space grp) <= S maxCharsPerLine \/ exists w, grp = [w].

(** What the specification asks of a displayed line, read against the text
    as given: a run of whole words of the text, joined by one space, the
    marker of dropped lines apart. *)
Definition wholeWordsOf (text line : jsstr) : Prop :=
  exists words : list jsstr,
    Forall (fun word => In word (split space text)) words
    /\ (line = join space words \/ line = join space words ++ lit "...").

(** The words that joined a line fitted on it: with the line as it was,
    the space that joins them not counted, they stayed within
    [maxCharsPerLine]. *)
Definition joinedWhileFits (grp : list jsstr) : Prop :=
  forall before word after,
    grp = before ++ word :: after ->
    before <> [] ->
    length (join space before) + length word <= maxCharsPerLine.

(** A line ends only when the word that starts the next one does not fit
    on it. *)
Definition closedWhenFull (groups : list (list jsstr)) : Prop :=
  forall before grp word rest after,
    groups = before ++ grp :: (word :: rest) :: after ->
    maxCharsPerLine < length (join space grp) + length word.

(** The last line that was closed, against the line in progress. *)
Definition pending (groups : list (list jsstr)) (current : list jsstr)
  : Prop :=
  forall before grp,
    groups = before ++ [grp] ->
    match current with
    | [] => maxCharsPerLine < length (join space grp)
    | word :: _ => maxCharsPerLine < length (join space grp) + length word
    end.

(** What every turn of the loop keeps of the rule by which a word joins the
    line or starts the next one. *)
Definition greedy (st : list (list jsstr) * list jsstr) : Prop :=
  Forall joinedWhileFits (fst st)
  /\ joinedWhileFits (snd st)
  /\ closedWhenFull (fst st)
  /\ pending (fst st) (snd st).

(** What every turn of the loop keeps, [seen] being the words read so far. *)
Definition wrapped (seen : list jsstr) (st : list (list jsstr) * list jsstr)
  : Prop :=
  headed (snd st)
  /\ Forall wholeLine (fst st)
  /\ filter truthy (concat (fst st) ++ snd st) = filter truthy seen
  /\ Forall lineBound (fst st)
  /\ lineBound (snd st).

(** A display line as the specification words it: within
    [maxCharsPerLine], or one single word (no separator in it) that is
    longer. *)
Definition withinLimitOrSingleWord (line : jsstr) : Prop :=
  length line <= maxCharsPerLine
  \/ (maxCharsPerLine < length line /\ ~ In space line).

(** ** Snapshots of the shape of the data model *)

Definition isString (v : option jsstr) : bool :=
  match v with Some _ => true | None => false end.

(** The shape of the data model: [{id, statement, indicators}]. *)
Definition shapedOutput (o : Output) : bool :=
  isString (output_statement o) && isArray (output_indicators o).

Definition shapedOutcome (outcome : Outcome) : bool :=
  isString (outcome_statement outcome)
  && isArray (outcome_indicators outcome)
  && match outcome_outputs outcome with
     | Some outputs => forallb shapedOutput outputs
     | None => false
     end.

(** Every property the engine reads is there. *)
Definition shaped (data : Data) : bool :=
  match data_impact data with
  | Some impact => isString (impact_statement impact)
  | None => false
  end
  && match data_outcomes data with
     | Some outcomes => forallb shapedOutcome outcomes
     | None => false
     end.

(** The value of a property that is there. *)
Definition stringOf (v : option jsstr) : jsstr :=
  match v with Some s => s | None => [] end.

Definition arrayOf {A} (v : option (list A)) : list A :=
  match v with Some l => l | None => [] end.

(** ** The de-duplication as a function of the outcomes *)

(** The body of the inner callback (lines 35-43) on an output that has a
    statement. *)
Definition addOutput (id : jsstr) (m : OutputsMap) (o : Output) : OutputsMap :=
  let key := statementKey (stringOf (output_statement o)) in
  if map_has key m then map_push key id m
  else map_set key {| output := o; outcomeIds := [id] |} m.

Definition addOutcome (m : OutputsMap) (outcome : Outcome) : OutputsMap :=
  fold_left (addOutput (outcome_id outcome))
            (arrayOf (outcome_outputs outcome)) m.

Definition outputsMapOf (outcomes : list Outcome) : OutputsMap :=
  fold_left addOutcome outcomes [].

Definition uniqueOutputsOf (outcomes : list Outcome) : list OutputData :=
  map snd (outputsMapOf outcomes).

(** ** The DOM: identities stay distinct *)

(** No two children share an identity, and the next identity is new. *)
Definition wfDom (d : Dom) : Prop :=
  NoDup (map uid (children d))
  /\ Forall (fun e => uid e < next_uid d) (children d).

(** ** The scene as a function of the snapshot *)

(** Left edge of the box of index [index] in a rank (lines 112, 152). *)
Definition rankX (spacing : Q) (index : nat) : Q :=
  (spacing * ofLength (index + 1) - config.itemWidth / 2)%Q.

Definition outcomesY : Q := (config.padding + config.levelHeight)%Q.

Definition outputsY : Q := (config.padding + config.levelHeight * 2)%Q.

Definition impactGroupOf (totalWidth : Q) (statement : jsstr) : Group :=
  nodeGroup (totalWidth / 2 - config.itemWidth / 2) config.padding
    (config.itemWidth * (3 # 2)) config.itemHeight
    statement config.colors.impact (lit "Impact") 0 false.

Definition outcomeGroupOf (spacing : Q) (index : nat) (outcome : Outcome)
  : Group :=
  nodeGroup (rankX spacing index) outcomesY config.itemWidth config.itemHeight
    (stringOf (outcome_statement outcome)) config.colors.outcome
    (lit "Outcome") (length (arrayOf (outcome_indicators outcome))) false.

Definition impactConnectionOf (totalWidth spacing : Q) (index : nat)
  (_ : Outcome) : PathEl :=
  createConnection (totalWidth / 2)
    (config.padding + config.itemHeight / 2 + config.itemHeight / 2)
    (rankX spacing index + config.itemWidth / 2) outcomesY
    config.colors.connection false.

(** Where the connectors of an outcome start: bottom centre of its box. *)
Definition Anchor : Type := jsstr * (Q * Q).

Definition anchor (n : OutcomeNode) : Anchor := (on_id n, (on_x n, on_y n)).

Definition anchorOf (spacing : Q) (index : nat) (outcome : Outcome) : Anchor :=
  (outcome_id outcome,
   (rankX spacing index + config.itemWidth / 2,
    outcomesY + config.itemHeight))%Q.

Definition connectionsOf (anchors : list Anchor) (x y : Q) (isShared : bool)
  (ids : list jsstr) : list PathEl :=
  flat_map
    (fun id =>
       match find (fun a => JsString.eqb (fst a) id) anchors with
       | Some a => [createConnection (fst (snd a)) (snd (snd a))
                      (x + config.itemWidth / 2) y
                      config.colors.connection isShared]
       | None => []
       end) ids.

Definition outputGroupOf (spacing : Q) (index : nat) (outputData : OutputData)
  : Group :=
  nodeGroup (rankX spacing index) outputsY config.itemWidth config.itemHeight
    (stringOf (output_statement (output outputData))) config.colors.output
    (outputLabel (outcomeIds outputData))
    (length (arrayOf (output_indicators (output outputData))))
    (1 <? length (outcomeIds outputData)).

Definition outputConnectionsOf (anchors : list Anchor) (spacing : Q)
  (index : nat) (outputData : OutputData) : list PathEl :=
  connectionsOf anchors (rankX spacing index) outputsY
    (1 <? length (outcomeIds outputData)) (outcomeIds outputData).

Record Layout := {
  lay_outcomes : list Outcome;
  lay_uniqueOutputs : list OutputData;
  lay_totalWidth : Q;
  lay_outcomeSpacing : Q;
  lay_outputSpacing : Q;
  lay_anchors : list Anchor
}.

Definition layoutOf (data : Data) : Layout :=
  let outcomes := arrayOf (data_outcomes data) in
  let uniqueOutputs := uniqueOutputsOf outcomes in
  let totalWidth := totalWidthOf (length outcomes) (length uniqueOutputs) in
  let outcomeSpacing := (totalWidth / ofLength (length outcomes + 1))%Q in
  {| lay_outcomes := outcomes;
     lay_uniqueOutputs := uniqueOutputs;
     lay_totalWidth := totalWidth;
     lay_outcomeSpacing := outcomeSpacing;
     lay_outputSpacing := (totalWidth / ofLength (length uniqueOutputs + 1))%Q;
     lay_anchors := mapi_from (anchorOf outcomeSpacing) 0 outcomes |}.

Definition impactConnectionsOf (l : Layout) : list PathEl :=
  mapi_from (impactConnectionOf (lay_totalWidth l) (lay_outcomeSpacing l)) 0
            (lay_outcomes l).

Definition outcomeGroupsOf (l : Layout) : list Group :=
  mapi_from (outcomeGroupOf (lay_outcomeSpacing l)) 0 (lay_outcomes l).

Definition outputGroupsOf (l : Layout) : list Group :=
  mapi_from (outputGroupOf (lay_outputSpacing l)) 0 (lay_uniqueOutputs l).

Definition outputConnectionsAll (l : Layout) : list PathEl :=
  concat (mapi_from (outputConnectionsOf (lay_anchors l) (lay_outputSpacing l))
                    0 (lay_uniqueOutputs l)).

Definition impactStatementOf (data : Data) : jsstr :=
  match data_impact data with
  | Some impact => stringOf (impact_statement impact)
  | None => []
  end.

(** The children of the [svg], first to last. *)
Definition sceneContents (data : Data) : list Content :=
  let l := layoutOf data in
  Title titleText
  :: map Path (rev (outputConnectionsAll l))
  ++ Desc (descText (length (lay_outcomes l)) (length (lay_uniqueOutputs l)))
  :: Defs
  :: map Path (impactConnectionsOf l)
  ++ G (impactGroupOf (lay_totalWidth l) (impactStatementOf data))
  :: map G (outcomeGroupsOf l)
  ++ map G (outputGroupsOf l).

(** ** Invariants of the three layers *)

(** What the outcome layer keeps: the impact connectors pile up just before
    the impact box, the outcome boxes at the end. *)
Definition outcomeLayer (totalWidth spacing : Q) (pre : list Element)
  (im : Element) (seen : list Outcome) (ons : list OutcomeNode) (d : Dom)
  : Prop :=
  wfDom d
  /\ map anchor ons = mapi_from (anchorOf spacing) 0 seen
  /\ exists conns groups,
       children d = pre ++ conns ++ im :: groups
       /\ map content conns
          = map Path (mapi_from (impactConnectionOf totalWidth spacing) 0 seen)
       /\ map content groups
          = map G (mapi_from (outcomeGroupOf spacing) 0 seen).

(** The connectors of one output are put, last first, after the title. *)
Definition connectLayer (t : Element) (rest : list Element)
  (anchors : list Anchor) (x y : Q) (isShared : bool)
  (seen : list jsstr) (_ : unit) (d : Dom) : Prop :=
  wfDom d
  /\ exists new,
       children d = t :: new ++ rest
       /\ map content new
          = map Path (rev (connectionsOf anchors x y isShared seen)).

Definition shapedOutputData (outputData : OutputData) : Prop :=
  shapedOutput (output outputData) = true.

(** What the output layer keeps: the connectors of the outputs pile up,
    last first, after the title; the output boxes come last. *)
Definition outputLayer (t : Element) (mid : list Element)
  (anchors : list Anchor) (spacing : Q)
  (seen : list OutputData) (_ : list OutputNode) (d : Dom) : Prop :=
  wfDom d
  /\ exists conns groups,
       children d = t :: conns ++ mid ++ groups
       /\ map content conns
          = map Path (rev (concat (mapi_from (outputConnectionsOf anchors spacing)
                                             0 seen)))
       /\ map content groups
          = map G (mapi_from (outputGroupOf spacing) 0 seen).

(** ** Reading the scene off its contents *)

Definition groupsIn (cs : list Content) : list Group :=
  flat_map (fun c => match c with G g => [g] | _ => [] end) cs.

Definition pathsIn (cs : list Content) : list PathEl :=
  flat_map (fun c => match c with Path p => [p] | _ => [] end) cs.

(** ** Z-order *)

Definition isG (c : Content) : bool :=
  match c with G _ => true | _ => false end.

Definition isPath (c : Content) : bool :=
  match c with Path _ => true | _ => false end.

(** ** Snapshots used as examples *)

Definition plainOutput (id statement : string) : Output :=
  {| output_id := lit id;
     output_statement := Some (lit statement);
     output_indicators := Some [] |}.

(** The end-to-end scenario: outcomes A and B both own "Shared Thing",
    A owns "Only A" as well. *)
Definition scenarioA : Outcome :=
  {| outcome_id := lit "A";
     outcome_statement := Some (lit "Outcome A");
     outcome_indicators := Some [];
     outcome_outputs := Some [plainOutput "a1" "Shared Thing";
                              plainOutput "a2" "Only A"] |}.

Definition scenarioB : Outcome :=
  {| outcome_id := lit "B";
     outcome_statement := Some (lit "Outcome B");
     outcome_indicators := Some [];
     outcome_outputs := Some [plainOutput "b1" "Shared Thing"] |}.

Definition snapshotOf (outcomes : list Outcome) : Data :=
  {| data_version := Some (lit "1.0");
     data_lastModified := None;
     data_impact := Some {| impact_id := lit "impact-1";
                            impact_statement := Some (lit "X") |};
     data_outcomes := Some outcomes |}.

Definition scenario : Data := snapshotOf [scenarioA; scenarioB].

(** [getDefaultStructure] with no outcome added yet. *)
Definition emptySnapshot : Data := snapshotOf [].

(** One outcome after [addOutput] was called twice on it: two outputs,
    both with the empty statement. *)
Definition twoBlankOutputs : Data :=
  snapshotOf [{| outcome_id := lit "A";
                 outcome_statement := Some (lit "Outcome A");
                 outcome_indicators := Some [];
                 outcome_outputs := Some [plainOutput "a1" "";
                                          plainOutput "a2" ""] |}].

(** ** Canvas width and horizontal spacing *)

(** A rank laid out on a canvas [totalWidth] wide: its boxes are one item
    wide, the [i]-th (counting from 1) centred on
    [totalWidth / (k + 1) * i], and no two of them overlap. *)
Definition rankLaidOut (totalWidth : Q) (rank : list Group) : Prop :=
  (forall i g,
      nth_error rank i = Some g ->
      (rect_width (g_rect g) == 200)%Q
      /\ (rect_x (g_rect g) + 200 / 2
          == totalWidth / ofLength (length rank + 1) * ofLength (i + 1))%Q)
  /\ (forall i j gi gj,
         i < j ->
         nth_error rank i = Some gi ->
         nth_error rank j = Some gj ->
         (rect_x (g_rect gi) + rect_width (g_rect gi) < rect_x (g_rect gj))%Q).

(** ** Malformed snapshots *)

Definition hasImpactStatement (data : Data) : bool :=
  match data_impact data with
  | Some impact => isString (impact_statement impact)
  | None => false
  end.

(** Missing [impact.statement], or [outcomes] not an array. *)
Definition malformed (data : Data) : bool :=
  negb (hasImpactStatement data) || negb (isArray (data_outcomes data)).

(** A snapshot that [isValidData] accepts: the output has an id and an
    array of indicators, and no statement. *)
Definition outputWithoutStatement : Data :=
  snapshotOf [{| outcome_id := lit "A";
                 outcome_statement := Some (lit "Outcome A");
                 outcome_indicators := Some [];
                 outcome_outputs :=
                   Some [{| output_id := lit "a1";
                            output_statement := None;
                            output_indicators := Some [] |}] |}].

(** The end-to-end scenario without [impact.statement]. *)
Definition scenarioWithoutImpactStatement : Data :=
  {| data_version := Some (lit "1.0");
     data_lastModified := None;
     data_impact := Some {| impact_id := lit "impact-1";
                            impact_statement := None |};
     data_outcomes := Some [scenarioA; scenarioB] |}.

(** ** An outcome that lists one statement twice *)

(** The outcomes that own an output with the key of [statement]. *)
Definition contributingOutcomes (outcomes : list Outcome) (statement : jsstr)
  : list jsstr :=
  map outcome_id
    (filter
       (fun outcome =>
          existsb (fun o => JsString.eqb
                              (statementKey (stringOf (output_statement o)))
                              (statementKey statement))
                  (arrayOf (outcome_outputs outcome)))
       outcomes).

(** ** What the de-duplication computes *)

(** An output as the loop meets it: the id of its outcome, and the output. *)
Definition Occurrence : Type := jsstr * Output.

Definition occurrences (outcomes : list Outcome) : list Occurrence :=
  flat_map (fun outcome =>
              map (fun o => (outcome_id outcome, o))
                  (arrayOf (outcome_outputs outcome)))
           outcomes.

Definition keyOf (occ : Occurrence) : jsstr :=
  statementKey (stringOf (output_statement (snd occ))).

Definition hasKey (k : jsstr) (occ : Occurrence) : bool :=
  JsString.eqb (keyOf occ) k.

(** The distinct keys, in the order of their first occurrence. *)
Fixpoint firstSeen (keys : list jsstr) : list jsstr :=
  match keys with
  | [] => []
  | k :: keys' =>
      k :: filter (fun k' => negb (JsString.eqb k' k)) (firstSeen keys')
  end.

(** The ids pushed for a key: one per occurrence. *)
Definition idsFor (k : jsstr) (occs : list Occurrence) : list jsstr :=
  map fst (filter (hasKey k) occs).

Definition firstFor (k : jsstr) (occs : list Occurrence) : option Output :=
  option_map snd (find (hasKey k) occs).

Definition entryFor (occs : list Occurrence) (kv : jsstr * OutputData)
  (k : jsstr) : Prop :=
  fst kv = k
  /\ outcomeIds (snd kv) = idsFor k occs
  /\ firstFor k occs = Some (output (snd kv)).

Definition addOccurrence (m : OutputsMap) (occ : Occurrence) : OutputsMap :=
  addOutput (fst occ) m (snd occ).

(** A unique output stands for a key [k]: its statement has that key, it
    is the first output met with it, and its [outcomeIds] are the ids of the
    outcomes of the outputs met with it, one per output. *)
Definition standsFor (occs : list Occurrence) (outputData : OutputData)
  (k : jsstr) : Prop :=
  statementKey (stringOf (output_statement (output outputData))) = k
  /\ firstFor k occs = Some (output outputData)
  /\ outcomeIds outputData = idsFor k occs.

(** * Definitions for the further properties *)

(** ** The text fitter *)

(** The characters of some lines, one more per line for the separator that
    each of them replaces. *)
Definition lineWeight (lines : list jsstr) : nat :=
  list_sum (map (fun l => S (length l)) lines).

(** What the wrapping loop keeps of lengths, [seen] being the words read:
    the lines hold no more than the words and their separators did. *)
Definition weighed (seen : list jsstr) (st : list jsstr * jsstr) : Prop :=
  Forall (fun l => l <> []) (fst st)
  /\ lineWeight (fst st) + length (snd st) <= length (join space seen)
  /\ (seen = [] -> st = ([], [])).


(** ** The scene *)

(** The box of a node lies within a canvas of the given size. *)
Definition insideCanvas (width height : Q) (g : Group) : Prop :=
  (0 <= rect_x (g_rect g)
   /\ rect_x (g_rect g) + rect_width (g_rect g) <= width
   /\ 0 <= rect_y (g_rect g)
   /\ rect_y (g_rect g) + rect_height (g_rect g) <= height)%Q.

(** The label and the lines of a node are centred on its box and their base
    lines lie between its top and its bottom. *)
Definition textInside (g : Group) : Prop :=
  Forall (fun t =>
            (text_x t == rect_x (g_rect g) + rect_width (g_rect g) / 2
             /\ rect_y (g_rect g) < text_y t
             /\ text_y t < rect_y (g_rect g) + rect_height (g_rect g))%Q)
         (g_label g :: g_lines g).

(** A connector leaves the bottom centre of the node it starts from. *)
Definition leaves (p : PathEl) (g : Group) : bool :=
  Qeq_bool (p_x1 p) (rect_x (g_rect g) + rect_width (g_rect g) / 2)
  && Qeq_bool (p_y1 p) (rect_y (g_rect g) + rect_height (g_rect g)).

(** The outputs of an outcome whose statement has the given key. *)
Definition outputsWithKey (outcome : Outcome) (key : jsstr) : list Output :=
  filter (fun o => JsString.eqb (statementKey (stringOf (output_statement o)))
                                key)
         (arrayOf (outcome_outputs outcome)).

(** What a node shows of an item: the label of its kind, the statement in
    full as tooltip and fitted as lines, and the number of indicators as a
    badge, when there are some. *)
Definition shows (g : Group) (label statement : jsstr) (indicatorCount : nat)
  : Prop :=
  rect_title (g_rect g) = statement
  /\ textContent (g_label g) = label
  /\ map textContent (g_lines g) = displayLines statement
  /\ option_map badge_text (g_badge g)
     = if 0 <? indicatorCount then Some (ofNat indicatorCount) else None.

(** ** Entries that are objects *)

(** An entry of an array that is an object, not [null]. *)
Definition isObject {A} (entry : option A) : bool :=
  match entry with Some _ => true | None => false end.

(** The arrays of indicators of a snapshot hold objects only, which
    [isValidData] does not ask for. *)
Definition objects (indicators : option (list (option Indicator))) : bool :=
  forallb isObject (arrayOf indicators).

Definition objectsOnly (data : Data) : bool :=
  forallb (fun outcome =>
             objects (outcome_indicators outcome)
             && forallb (fun output => objects (output_indicators output))
                        (arrayOf (outcome_outputs outcome)))
          (arrayOf (data_outcomes data)).

(** A snapshot that [isValidData] accepts and whose outcome has [null] for
    indicator. *)
Definition outcomeWithNullIndicator : Data :=
  snapshotOf [{| outcome_id := lit "A";
                 outcome_statement := Some (lit "Outcome A");
                 outcome_indicators := Some [None];
                 outcome_outputs := Some [] |}].

(** ** [TocDataModel] (class of lines 372-670)

    The object [this.data] is a snapshot, [lastModified] being one of its
    properties, which the engine never reads.  The objects of a snapshot
    are taken to be distinct, as those of a parsed or freshly built one are,
    so that an assignment to the object a [find] returns is the replacement
    of the first match in its array.  [uuid] and [now] stand for what
    [crypto.randomUUID()] and [new Date().toISOString()] answer; the
    listeners are taken to record what they are called with and nothing
    else, [notified] being what a listener subscribed from the start has
    been called with, oldest first. *)

Module TocDataModel.

Record Event := { changeType : string; payload : list (string * jsstr) }.

(** A property of a payload. *)
Definition property (name : string) (value : jsstr) : string * jsstr :=
  (name, value).

Record Model := {
  data : Data;
  notified : list Event
}.

(** [this.data.lastModified]. *)
Definition lastModified (m : Model) : option jsstr :=
  data_lastModified (data m).

(** *** Arrays and objects *)

(** [array.findIndex(p)], [None] standing for [-1]. *)
Fixpoint findIndex {A} (p : A -> bool) (l : list A) : option nat :=
  match l with
  | [] => None
  | a :: l' => if p a then Some 0 else option_map S (findIndex p l')
  end.

(** [array.splice(index, 1)]. *)
Definition splice {A} (index : nat) (l : list A) : list A :=
  firstn index l ++ skipn (S index) l.

(** An assignment [f] to the object [array.find(p)] returns. *)
Fixpoint assignFirst {A} (p : A -> bool) (f : A -> A) (l : list A) : list A :=
  match l with
  | [] => []
  | a :: l' => if p a then f a :: l' else a :: assignFirst p f l'
  end.

Definition isOutcome (outcomeId : jsstr) (o : Outcome) : bool :=
  JsString.eqb (outcome_id o) outcomeId.

Definition isOutput (outputId : jsstr) (o : Output) : bool :=
  JsString.eqb (output_id o) outputId.

Definition isIndicator (indicatorId : jsstr) (i : Indicator) : bool :=
  JsString.eqb (indicator_id i) indicatorId.

(** [indicators.findIndex(i => i.id === indicatorId)], [None] standing for
    [-1]: [i.id] is read of every entry up to the first that has the id,
    which raises at an entry that is [null].  [indicators.find] returns the
    entry at that index. *)
Fixpoint indicatorIndex (indicatorId : jsstr)
  (indicators : list (option Indicator)) : Result (option nat) :=
  match indicators with
  | [] => Ok None
  | None :: _ => Throw (TypeError "i.id")
  | Some i :: indicators' =>
      if isIndicator indicatorId i then Ok (Some 0)
      else match indicatorIndex indicatorId indicators' with
           | Ok index => Ok (option_map S index)
           | Throw e => Throw e
           end
  end.

(** The entry such a [find] returns, when it returns one. *)
Definition isEntry (indicatorId : jsstr) (entry : option Indicator) : bool :=
  match entry with
  | Some i => isIndicator indicatorId i
  | None => false
  end.

Definition setDescription (description : jsstr) (i : Indicator) : Indicator :=
  {| indicator_id := indicator_id i; indicator_description := description |}.

Definition setOutputStatement (statement : jsstr) (o : Output) : Output :=
  {| output_id := output_id o;
     output_statement := Some statement;
     output_indicators := output_indicators o |}.

Definition onOutputIndicators
  (h : list (option Indicator) -> list (option Indicator)) (o : Output)
  : Output :=
  {| output_id := output_id o;
     output_statement := output_statement o;
     output_indicators := option_map h (output_indicators o) |}.

Definition setStatement (statement : jsstr) (o : Outcome) : Outcome :=
  {| outcome_id := outcome_id o;
     outcome_statement := Some statement;
     outcome_indicators := outcome_indicators o;
     outcome_outputs := outcome_outputs o |}.

Definition onIndicators
  (h : list (option Indicator) -> list (option Indicator)) (o : Outcome)
  : Outcome :=
  {| outcome_id := outcome_id o;
     outcome_statement := outcome_statement o;
     outcome_indicators := option_map h (outcome_indicators o);
     outcome_outputs := outcome_outputs o |}.

Definition onOutputs (h : list Output -> list Output) (o : Outcome) : Outcome :=
  {| outcome_id := outcome_id o;
     outcome_statement := outcome_statement o;
     outcome_indicators := outcome_indicators o;
     outcome_outputs := option_map h (outcome_outputs o) |}.

Definition onOutcomes (h : list Outcome -> list Outcome) (d : Data) : Data :=
  {| data_version := data_version d;
     data_lastModified := data_lastModified d;
     data_impact := data_impact d;
     data_outcomes := option_map h (data_outcomes d) |}.

(** [this.data.lastModified = new Date().toISOString()]. *)
Definition touched (now : jsstr) (d : Data) : Data :=
  {| data_version := data_version d;
     data_lastModified := Some now;
     data_impact := data_impact d;
     data_outcomes := data_outcomes d |}.

(** The end of every method that changes something: [this.data] as the
    method left it, its [lastModified] set, and the call of [notify]
    (lines 391-393). *)
Definition changed (d : Data) (now : jsstr) (type : string)
  (payload : list (string * jsstr)) (m : Model) : Model :=
  {| data := touched now d;
     notified := notified m ++ [{| changeType := type; payload := payload |}] |}.

(** *** The methods *)

Definition defaultStatement : jsstr :=
  lit "People around the world experience and enjoy a single, unified Web that works consistently across devices, browsers, and platforms, ensuring users can freely choose the tools they want to interact with the Web.".

(** Lines 398-408. *)
Definition getDefaultStructure (now : jsstr) : Data :=
  {| data_version := Some (lit "1.0");
     data_lastModified := Some now;
     data_impact := Some {| impact_id := lit "impact-1";
                            impact_statement := Some defaultStatement |};
     data_outcomes := Some [] |}.

(** Lines 373-376. *)
Definition constructor (initialData : option Data) (now : jsstr) : Model :=
  {| data := match initialData with
             | Some d => d
             | None => getDefaultStructure now
             end;
     notified := [] |}.

(** Lines 414-425. *)
Definition addOutcome (uuid now : jsstr) (m : Model) : Result (jsstr * Model) :=
  let outcome := {| outcome_id := uuid;
                    outcome_statement := Some [];
                    outcome_indicators := Some [];
                    outcome_outputs := Some [] |} in
  match data_outcomes (data m) with
  | None => Throw (TypeError "this.data.outcomes.push")
  | Some _ =>
      Ok (uuid,
          changed (onOutcomes (fun outcomes => outcomes ++ [outcome]) (data m))
                  now "outcome-added" [property "outcomeId" uuid] m)
  end.

(** Lines 431-438. *)
Definition deleteOutcome (outcomeId now : jsstr) (m : Model)
  : Result (unit * Model) :=
  match data_outcomes (data m) with
  | None => Throw (TypeError "this.data.outcomes.findIndex")
  | Some outcomes =>
      match findIndex (isOutcome outcomeId) outcomes with
      | Some index =>
          Ok (tt, changed (onOutcomes (splice index) (data m))
                          now "outcome-deleted"
                          [property "outcomeId" outcomeId] m)
      | None => Ok (tt, m)
      end
  end.

(** Lines 445-452. *)
Definition updateOutcomeStatement (outcomeId statement now : jsstr) (m : Model)
  : Result (unit * Model) :=
  match data_outcomes (data m) with
  | None => Throw (TypeError "this.data.outcomes.find")
  | Some outcomes =>
      match find (isOutcome outcomeId) outcomes with
      | Some _ =>
          Ok (tt,
              changed (onOutcomes (assignFirst (isOutcome outcomeId)
                                               (setStatement statement))
                                  (data m))
                      now "outcome-updated"
                      [property "outcomeId" outcomeId;
                       property "field" (lit "statement")] m)
      | None => Ok (tt, m)
      end
  end.

(** Lines 459-461, [None] standing for [null]. *)
Definition getOutcome (outcomeId : jsstr) (m : Model)
  : Result (option Outcome) :=
  match data_outcomes (data m) with
  | None => Throw (TypeError "this.data.outcomes.find")
  | Some outcomes => Ok (find (isOutcome outcomeId) outcomes)
  end.

(** The assignment [f] to the outcome [getOutcome] returned. *)
Definition inOutcome (outcomeId : jsstr) (f : Outcome -> Outcome) (d : Data)
  : Data :=
  onOutcomes (assignFirst (isOutcome outcomeId) f) d.

(** Lines 468-481. *)
Definition addOutcomeIndicator (outcomeId uuid now : jsstr) (m : Model)
  : Result (option jsstr * Model) :=
  match getOutcome outcomeId m with
  | Throw e => Throw e
  | Ok None => Ok (None, m)
  | Ok (Some outcome) =>
      let indicator := {| indicator_id := uuid; indicator_description := [] |} in
      match outcome_indicators outcome with
      | None => Throw (TypeError "outcome.indicators.push")
      | Some _ =>
          Ok (Some uuid,
              changed (inOutcome outcomeId
                         (onIndicators
                            (fun indicators => indicators ++ [Some indicator]))
                         (data m))
                      now "outcome-indicator-added"
                      [property "outcomeId" outcomeId;
                       property "indicatorId" uuid] m)
      end
  end.

(** Lines 489-499. *)
Definition updateOutcomeIndicator (outcomeId indicatorId description now : jsstr)
  (m : Model) : Result (unit * Model) :=
  match getOutcome outcomeId m with
  | Throw e => Throw e
  | Ok None => Ok (tt, m)
  | Ok (Some outcome) =>
      match outcome_indicators outcome with
      | None => Throw (TypeError "outcome.indicators.find")
      | Some indicators =>
          match indicatorIndex indicatorId indicators with
          | Throw e => Throw e
          | Ok (Some _) =>
              Ok (tt,
                  changed (inOutcome outcomeId
                             (onIndicators
                                (assignFirst
                                   (isEntry indicatorId)
                                   (option_map (setDescription description))))
                             (data m))
                          now "outcome-indicator-updated"
                          [property "outcomeId" outcomeId;
                           property "indicatorId" indicatorId] m)
          | Ok None => Ok (tt, m)
          end
      end
  end.

(** Lines 506-516. *)
Definition deleteOutcomeIndicator (outcomeId indicatorId now : jsstr)
  (m : Model) : Result (unit * Model) :=
  match getOutcome outcomeId m with
  | Throw e => Throw e
  | Ok None => Ok (tt, m)
  | Ok (Some outcome) =>
      match outcome_indicators outcome with
      | None => Throw (TypeError "outcome.indicators.findIndex")
      | Some indicators =>
          match indicatorIndex indicatorId indicators with
          | Throw e => Throw e
          | Ok (Some index) =>
              Ok (tt,
                  changed (inOutcome outcomeId (onIndicators (splice index))
                                     (data m))
                          now "outcome-indicator-deleted"
                          [property "outcomeId" outcomeId;
                           property "indicatorId" indicatorId] m)
          | Ok None => Ok (tt, m)
          end
      end
  end.

(** Lines 523-537. *)
Definition addOutput (outcomeId uuid now : jsstr) (m : Model)
  : Result (option jsstr * Model) :=
  match getOutcome outcomeId m with
  | Throw e => Throw e
  | Ok None => Ok (None, m)
  | Ok (Some outcome) =>
      let output := {| output_id := uuid;
                       output_statement := Some [];
                       output_indicators := Some [] |} in
      match outcome_outputs outcome with
      | None => Throw (TypeError "outcome.outputs.push")
      | Some _ =>
          Ok (Some uuid,
              changed (inOutcome outcomeId
                         (onOutputs (fun os => os ++ [output])) (data m))
                      now "output-added"
                      [property "outcomeId" outcomeId; property "outputId" uuid] m)
      end
  end.

(** Lines 545-555. *)
Definition updateOutputStatement (outcomeId outputId statement now : jsstr)
  (m : Model) : Result (unit * Model) :=
  match getOutcome outcomeId m with
  | Throw e => Throw e
  | Ok None => Ok (tt, m)
  | Ok (Some outcome) =>
      match outcome_outputs outcome with
      | None => Throw (TypeError "outcome.outputs.find")
      | Some outputs =>
          match find (isOutput outputId) outputs with
          | Some _ =>
              Ok (tt,
                  changed (inOutcome outcomeId
                             (onOutputs
                                (assignFirst (isOutput outputId)
                                             (setOutputStatement statement)))
                             (data m))
                          now "output-updated"
                          [property "outcomeId" outcomeId;
                           property "outputId" outputId;
                           property "field" (lit "statement")] m)
          | None => Ok (tt, m)
          end
      end
  end.

(** Lines 562-572. *)
Definition deleteOutput (outcomeId outputId now : jsstr) (m : Model)
  : Result (unit * Model) :=
  match getOutcome outcomeId m with
  | Throw e => Throw e
  | Ok None => Ok (tt, m)
  | Ok (Some outcome) =>
      match outcome_outputs outcome with
      | None => Throw (TypeError "outcome.outputs.findIndex")
      | Some outputs =>
          match findIndex (isOutput outputId) outputs with
          | Some index =>
              Ok (tt,
                  changed (inOutcome outcomeId (onOutputs (splice index))
                                     (data m))
                          now "output-deleted"
                          [property "outcomeId" outcomeId;
                           property "outputId" outputId] m)
          | None => Ok (tt, m)
          end
      end
  end.

(** Lines 580-586. *)
Definition getOutput (outcomeId outputId : jsstr) (m : Model)
  : Result (option Output) :=
  match getOutcome outcomeId m with
  | Throw e => Throw e
  | Ok None => Ok None
  | Ok (Some outcome) =>
      match outcome_outputs outcome with
      | None => Throw (TypeError "outcome.outputs.find")
      | Some outputs => Ok (find (isOutput outputId) outputs)
      end
  end.

(** The assignment [g] to the output [getOutput] returned. *)
Definition inOutput (outcomeId outputId : jsstr) (g : Output -> Output)
  (d : Data) : Data :=
  inOutcome outcomeId (onOutputs (assignFirst (isOutput outputId) g)) d.

(** Lines 594-607. *)
Definition addOutputIndicator (outcomeId outputId uuid now : jsstr) (m : Model)
  : Result (option jsstr * Model) :=
  match getOutput outcomeId outputId m with
  | Throw e => Throw e
  | Ok None => Ok (None, m)
  | Ok (Some output) =>
      let indicator := {| indicator_id := uuid; indicator_description := [] |} in
      match output_indicators output with
      | None => Throw (TypeError "output.indicators.push")
      | Some _ =>
          Ok (Some uuid,
              changed (inOutput outcomeId outputId
                         (onOutputIndicators
                            (fun indicators => indicators ++ [Some indicator]))
                         (data m))
                      now "output-indicator-added"
                      [property "outcomeId" outcomeId;
                       property "outputId" outputId;
                       property "indicatorId" uuid] m)
      end
  end.

(** Lines 616-626. *)
Definition updateOutputIndicator
  (outcomeId outputId indicatorId description now : jsstr) (m : Model)
  : Result (unit * Model) :=
  match getOutput outcomeId outputId m with
  | Throw e => Throw e
  | Ok None => Ok (tt, m)
  | Ok (Some output) =>
      match output_indicators output with
      | None => Throw (TypeError "output.indicators.find")
      | Some indicators =>
          match indicatorIndex indicatorId indicators with
          | Throw e => Throw e
          | Ok (Some _) =>
              Ok (tt,
                  changed (inOutput outcomeId outputId
                             (onOutputIndicators
                                (assignFirst
                                   (isEntry indicatorId)
                                   (option_map (setDescription description))))
                             (data m))
                          now "output-indicator-updated"
                          [property "outcomeId" outcomeId;
                           property "outputId" outputId;
                           property "indicatorId" indicatorId] m)
          | Ok None => Ok (tt, m)
          end
      end
  end.

(** Lines 634-644. *)
Definition deleteOutputIndicator (outcomeId outputId indicatorId now : jsstr)
  (m : Model) : Result (unit * Model) :=
  match getOutput outcomeId outputId m with
  | Throw e => Throw e
  | Ok None => Ok (tt, m)
  | Ok (Some output) =>
      match output_indicators output with
      | None => Throw (TypeError "output.indicators.findIndex")
      | Some indicators =>
          match indicatorIndex indicatorId indicators with
          | Throw e => Throw e
          | Ok (Some index) =>
              Ok (tt,
                  changed (inOutput outcomeId outputId
                             (onOutputIndicators (splice index)) (data m))
                          now "output-indicator-deleted"
                          [property "outcomeId" outcomeId;
                           property "outputId" outputId;
                           property "indicatorId" indicatorId] m)
          | Ok None => Ok (tt, m)
          end
      end
  end.

(** Lines 658-660. *)
Definition getData (m : Model) : Data := data m.

(** Lines 666-669. *)
Definition setData (d : Data) (m : Model) : Model :=
  {| data := d;
     notified := notified m ++ [{| changeType := "data-loaded"; payload := [] |}] |}.

(** *** Sessions: calls of the editing methods, one after the other *)

Inductive Call :=
| AddOutcome (uuid now : jsstr)
| DeleteOutcome (outcomeId now : jsstr)
| UpdateOutcomeStatement (outcomeId statement now : jsstr)
| AddOutcomeIndicator (outcomeId uuid now : jsstr)
| UpdateOutcomeIndicator (outcomeId indicatorId description now : jsstr)
| DeleteOutcomeIndicator (outcomeId indicatorId now : jsstr)
| AddOutput (outcomeId uuid now : jsstr)
| UpdateOutputStatement (outcomeId outputId statement now : jsstr)
| DeleteOutput (outcomeId outputId now : jsstr)
| AddOutputIndicator (outcomeId outputId uuid now : jsstr)
| UpdateOutputIndicator (outcomeId outputId indicatorId description now : jsstr)
| DeleteOutputIndicator (outcomeId outputId indicatorId now : jsstr).

Definition after {A} (r : Result (A * Model)) : Result Model :=
  match r with
  | Ok (_, m) => Ok m
  | Throw e => Throw e
  end.

Definition call (c : Call) (m : Model) : Result Model :=
  match c with
  | AddOutcome uuid now => after (addOutcome uuid now m)
  | DeleteOutcome outcomeId now => after (deleteOutcome outcomeId now m)
  | UpdateOutcomeStatement outcomeId statement now =>
      after (updateOutcomeStatement outcomeId statement now m)
  | AddOutcomeIndicator outcomeId uuid now =>
      after (addOutcomeIndicator outcomeId uuid now m)
  | UpdateOutcomeIndicator outcomeId indicatorId description now =>
      after (updateOutcomeIndicator outcomeId indicatorId description now m)
  | DeleteOutcomeIndicator outcomeId indicatorId now =>
      after (deleteOutcomeIndicator outcomeId indicatorId now m)
  | AddOutput outcomeId uuid now => after (addOutput outcomeId uuid now m)
  | UpdateOutputStatement outcomeId outputId statement now =>
      after (updateOutputStatement outcomeId outputId statement now m)
  | DeleteOutput outcomeId outputId now =>
      after (deleteOutput outcomeId outputId now m)
  | AddOutputIndicator outcomeId outputId uuid now =>
      after (addOutputIndicator outcomeId outputId uuid now m)
  | UpdateOutputIndicator outcomeId outputId indicatorId description now =>
      after (updateOutputIndicator outcomeId outputId indicatorId description
                                   now m)
  | DeleteOutputIndicator outcomeId outputId indicatorId now =>
      after (deleteOutputIndicator outcomeId outputId indicatorId now m)
  end.

Fixpoint calls (cs : list Call) (m : Model) : Result Model :=
  match cs with
  | [] => Ok m
  | c :: cs' =>
      match call c m with
      | Ok m' => calls cs' m'
      | Throw e => Throw e
      end
  end.

(** The identifier the platform answers to a call that asks for one. *)
Definition answered (c : Call) : option jsstr :=
  match c with
  | AddOutcome uuid _ | AddOutcomeIndicator _ uuid _ | AddOutput _ uuid _
  | AddOutputIndicator _ _ uuid _ => Some uuid
  | _ => None
  end.

(** The time of the call. *)
Definition timeOf (c : Call) : jsstr :=
  match c with
  | AddOutcome _ now | DeleteOutcome _ now | UpdateOutcomeStatement _ _ now
  | AddOutcomeIndicator _ _ now | UpdateOutcomeIndicator _ _ _ now
  | DeleteOutcomeIndicator _ _ now | AddOutput _ _ now
  | UpdateOutputStatement _ _ _ now | DeleteOutput _ _ now
  | AddOutputIndicator _ _ _ now | UpdateOutputIndicator _ _ _ _ now
  | DeleteOutputIndicator _ _ _ now => now
  end.

(** *** What the methods keep *)

(** The arrays of a snapshot are there, those of indicators hold objects
    only, [A] holds of the id and statement of every outcome, [B] of those
    of every output. *)
Definition keptIndicators (indicators : option (list (option Indicator)))
  : bool :=
  isArray indicators && objects indicators.

Definition keptOutput (B : jsstr -> option jsstr -> bool) (o : Output) : bool :=
  B (output_id o) (output_statement o) && keptIndicators (output_indicators o).

Definition keptOutcome (A B : jsstr -> option jsstr -> bool) (o : Outcome)
  : bool :=
  A (outcome_id o) (outcome_statement o)
  && keptIndicators (outcome_indicators o)
  && match outcome_outputs o with
     | Some outputs => forallb (keptOutput B) outputs
     | None => false
     end.

Definition kept (A B : jsstr -> option jsstr -> bool) (d : Data) : bool :=
  match data_outcomes d with
  | Some outcomes => forallb (keptOutcome A B) outcomes
  | None => false
  end.

End TocDataModel.

(** A snapshot the engine draws. *)
Definition draws (data : Data) : Prop :=
  exists svg, generateSVGVisualization data = Ok svg.

(** ** Code that may raise, outside the engine *)

Module Raising.

Definition andThen {A B} (r : Result A) (k : A -> Result B) : Result B :=
  match r with
  | Ok a => k a
  | Throw e => Throw e
  end.

(** Reading through a property: a [TypeError] when it is missing. *)
Definition read {A} (site : string) (v : option A) : Result A :=
  match v with
  | Some a => Ok a
  | None => Throw (TypeError site)
  end.

(** [array.forEach((item, index) => ...)], what the callback adds to being
    threaded as [s]. *)
Fixpoint forEach_from {A St} (f : A -> nat -> St -> Result St)
  (l : list A) (index : nat) (s : St) : Result St :=
  match l with
  | [] => Ok s
  | a :: l' => andThen (f a index s) (forEach_from f l' (S index))
  end.

Declare Scope raising_scope.
Notation "x <-- c ;; k" := (andThen c (fun x => k))
  (at level 61, c at next level, right associativity) : raising_scope.

End Raising.

(** ** [generateMarkdown] (src/js/exporters.js, lines 46-118)

    [formatDate] comes from a module that is not among the sources: it is
    a parameter, which may raise; [generated] stands for
    [formatDate(new Date())]. *)

Module exporters.
Import Raising.
Local Open Scope raising_scope.

Definition nl : jsstr := [10%N].

(** A value inside a template literal. *)
Definition interpolated (v : option jsstr) : jsstr :=
  match v with
  | Some s => s
  | None => lit "undefined"
  end.

(** Lines 79 and 102, on an entry that is an object. *)
Definition descriptionOf (indicator : Indicator) : jsstr :=
  if truthy (indicator_description indicator)
  then indicator_description indicator
  else lit "*No description*".

(** Lines 70-74 and 93-97. *)
Definition statementOf (statement : option jsstr) : jsstr :=
  if truthyProp statement
  then interpolated statement ++ nl ++ nl
  else lit "*No statement provided*" ++ nl ++ nl.

(** Lines 79-80, [indicator.description] being read of the entry. *)
Definition outcomeIndicator (indicator : option Indicator)
  (indicatorIndex : nat) (markdown : jsstr) : Result jsstr :=
  indicator <-- read "indicator.description" indicator ;;
  Ok (markdown ++ ofNat (indicatorIndex + 1) ++ lit ". "
      ++ descriptionOf indicator ++ nl).

(** Lines 102-103. *)
Definition outputIndicator (indicator : option Indicator) (_ : nat)
  (markdown : jsstr) : Result jsstr :=
  indicator <-- read "indicator.description" indicator ;;
  Ok (markdown ++ lit "- " ++ descriptionOf indicator ++ nl).

(** The callback of line 90. *)
Definition outputSection (outcomeIndex : nat) (output : Output)
  (outputIndex : nat) (markdown : jsstr) : Result jsstr :=
  let markdown :=
    markdown ++ lit "#### Output " ++ ofNat (outcomeIndex + 1) ++ lit "."
    ++ ofNat (outputIndex + 1) ++ nl ++ nl in
  let markdown := markdown ++ statementOf (output_statement output) in
  indicators <-- read "output.indicators.length" (output_indicators output) ;;
  if 0 <? length indicators then
    markdown <-- forEach_from outputIndicator indicators 0
                   (markdown ++ lit "*Indicators:*" ++ nl ++ nl) ;;
    Ok (markdown ++ nl)
  else Ok markdown.

(** The callback of line 67. *)
Definition outcomeSection (outcome : Outcome) (outcomeIndex : nat)
  (markdown : jsstr) : Result jsstr :=
  let markdown :=
    markdown ++ lit "### Outcome " ++ ofNat (outcomeIndex + 1) ++ nl ++ nl in
  let markdown := markdown ++ statementOf (outcome_statement outcome) in
  indicators <-- read "outcome.indicators.length"
                   (outcome_indicators outcome) ;;
  markdown <-- (if 0 <? length indicators then
                  markdown <-- forEach_from outcomeIndicator indicators 0
                                 (markdown ++ lit "**Indicators:**" ++ nl ++ nl) ;;
                  Ok (markdown ++ nl)
                else Ok markdown) ;;
  outputs <-- read "outcome.outputs.length" (outcome_outputs outcome) ;;
  markdown <-- (if 0 <? length outputs then
                  forEach_from (outputSection outcomeIndex) outputs 0
                    (markdown ++ lit "**Outputs:**" ++ nl ++ nl)
                else Ok markdown) ;;
  Ok (markdown ++ lit "---" ++ nl ++ nl).

Definition generateMarkdown (generated : Result jsstr)
  (formatDate : jsstr -> Result jsstr) (data : Data) : Result jsstr :=
  let markdown := lit "# Theory of Change" ++ nl ++ nl in
  date <-- generated ;;
  let markdown :=
    markdown ++ lit "*Generated: " ++ date ++ lit "*" ++ nl ++ nl in
  markdown <-- (if truthyProp (data_lastModified data) then
                  date <-- formatDate (stringOf (data_lastModified data)) ;;
                  Ok (markdown ++ lit "*Last modified: " ++ date ++ lit "*"
                      ++ nl ++ nl)
                else Ok markdown) ;;
  let markdown := markdown ++ lit "---" ++ nl ++ nl in
  let markdown := markdown ++ lit "## Impact Statement" ++ nl ++ nl in
  impact <-- read "data.impact.statement" (data_impact data) ;;
  let markdown :=
    markdown ++ interpolated (impact_statement impact) ++ nl ++ nl in
  let markdown := markdown ++ lit "---" ++ nl ++ nl in
  outcomes <-- read "data.outcomes.length" (data_outcomes data) ;;
  if 0 <? length outcomes then
    forEach_from outcomeSection outcomes 0
      (markdown ++ lit "## Outcomes" ++ nl ++ nl)
  else
    Ok ((markdown ++ lit "## Outcomes" ++ nl ++ nl)
        ++ lit "*No outcomes defined yet*" ++ nl ++ nl).

End exporters.

(** One string occurs in another. *)
Definition occursIn (s t : jsstr) : Prop :=
  exists before after, t = before ++ s ++ after.

(** What the author typed: the statements and the descriptions that are
    not empty. *)
Definition typed (s : jsstr) : list jsstr :=
  if truthy s then [s] else [].

Definition indicatorTexts (indicators : option (list (option Indicator)))
  : list jsstr :=
  flat_map (fun entry =>
              match entry with
              | Some i => typed (indicator_description i)
              | None => []
              end)
           (arrayOf indicators).

Definition outputTexts (o : Output) : list jsstr :=
  typed (stringOf (output_statement o)) ++ indicatorTexts (output_indicators o).

Definition outcomeTexts (o : Outcome) : list jsstr :=
  typed (stringOf (outcome_statement o))
  ++ indicatorTexts (outcome_indicators o)
  ++ flat_map outputTexts (arrayOf (outcome_outputs o)).

Definition textsOf (data : Data) : list jsstr :=
  match data_impact data with
  | Some impact => typed (stringOf (impact_statement impact))
  | None => []
  end
  ++ flat_map outcomeTexts (arrayOf (data_outcomes data)).

(** ** [renderSVGVisualization] (lines 351-366)

    Of the page, the elements that have an id are kept, in document order,
    each with its children; they are taken not to be nested in each other.
    A child is an [svg] of the engine or some other node. *)

Inductive Child :=
| Drawing (svg : Svg)
| Other (html : jsstr).

Record Page := {
  elements : list (jsstr * list Child);
  console : list jsstr          (* the messages of [console.error] *)
}.

Definition hasId (id : jsstr) (element : jsstr * list Child) : bool :=
  JsString.eqb (fst element) id.

(** [document.getElementById]. *)
Definition getElementById (id : jsstr) (page : Page)
  : option (jsstr * list Child) :=
  find (hasId id) (elements page).

(** The element [getElementById] returns is given other children. *)
Definition withChildren (id : jsstr) (h : list Child -> list Child)
  (page : Page) : Page :=
  {| elements := TocDataModel.assignFirst (hasId id)
                   (fun element => (fst element, h (snd element)))
                   (elements page);
     console := console page |}.

(** The page after the call, and what the call returns or raises. *)
Definition renderSVGVisualization (dataModel : TocDataModel.Model)
  (containerId : jsstr) (page : Page) : Page * Result unit :=
  match getElementById containerId page with
  | None =>
      ({| elements := elements page;
          console := console page
                     ++ [lit "Container " ++ containerId ++ lit " not found"] |},
       Ok tt)
  | Some _ =>
      let page := withChildren containerId (fun _ => []) page in
      match generateSVGVisualization (TocDataModel.getData dataModel) with
      | Throw e => (page, Throw e)
      | Ok svg =>
          (withChildren containerId (fun children => children ++ [Drawing svg])
                        page,
           Ok tt)
      end
  end.

(** The children of the element of a given id. *)
Definition childrenOf (id : jsstr) (page : Page) : option (list Child) :=
  option_map snd (getElementById id page).

(** ** [generatePreview] (src/js/preview.js, lines 10-240)

    The tree the function builds: every element is created, filled and
    appended once, so that it is the value of its tag, its class and its
    children.  Children set through [innerHTML] are kept as their markup. *)

Module preview.
Import Raising.
Local Open Scope raising_scope.

#[warnings="-register-all"]
Inductive Node :=
| Element (tagName className : jsstr) (childNodes : list Node)
| Text (data : jsstr)
| Markup (innerHTML : jsstr).

Definition quote : jsstr := [34%N].
Definition rightArrow : jsstr := [8594%N].
Definition hookArrow : jsstr := [8627%N].
Definition nl : jsstr := [10%N].

(** [element.textContent = value]: one text node, and none for the empty
    string or for a value that is missing. *)
Definition setTextContent (value : option jsstr) : list Node :=
  if truthyProp value then [Text (stringOf value)] else [].

(** [value || fallback]. *)
Definition orElse (value : option jsstr) (fallback : jsstr) : jsstr :=
  if truthyProp value then stringOf value else fallback.

(** Lines 54-75. *)
Definition createImpactSection (impact : option Impact) : Result Node :=
  let badge :=
    Element (lit "span") (lit "level-badge impact-badge") [Text (lit "IMPACT")] in
  let header := Element (lit "div") (lit "level-header") [badge] in
  impact <-- read "impact.statement" impact ;;
  let statement :=
    Element (lit "div") (lit "level-statement")
            (setTextContent (impact_statement impact)) in
  Ok (Element (lit "section") (lit "preview-level impact-level")
              [header; statement]).

(** The callback of line 216, on the children of the list:
    [indicator.description] is read of the entry. *)
Definition indicatorItem (indicator : option Indicator) (_ : nat)
  (items : list Node) : Result (list Node) :=
  indicator <-- read "indicator.description" indicator ;;
  Ok (items
      ++ [Element (lit "li") (lit "indicator-item-preview")
            [Text (orElse (Some (indicator_description indicator))
                          (lit "(No description)"))]]).

(** Lines 203-226. *)
Definition createIndicatorsList (indicators : list (option Indicator))
  (type : jsstr) : Result Node :=
  let header :=
    Element (lit "div") (lit "subsection-header indicators-header")
      [Markup (lit "<span class=" ++ quote ++ lit "arrow" ++ quote ++ lit ">"
               ++ rightArrow ++ lit "</span> <em>Indicators:</em>")] in
  items <-- forEach_from indicatorItem indicators 0 [] ;;
  Ok (Element (lit "div")
              (lit "indicators-container " ++ type ++ lit "-indicators")
              [header; Element (lit "ul") (lit "indicators-list-preview") items]).

(** The callback of line 166, on the children of the list. *)
Definition outputItem (output : Output) (index : nat) (items : list Node)
  : Result (list Node) :=
  let outputNumber :=
    Element (lit "span") (lit "item-number")
            [Text (ofNat (index + 1) ++ lit ". ")] in
  let outputText :=
    Element (lit "span") []
            [Text (orElse (output_statement output)
                          (lit "(No statement provided)"))] in
  let outputDiv :=
    Element (lit "div") (lit "output-content") [outputNumber; outputText] in
  indicators <-- read "output.indicators.length" (output_indicators output) ;;
  children <-- (if 0 <? length indicators then
                  indicatorsDiv <-- createIndicatorsList indicators
                                      (lit "output") ;;
                  Ok [outputDiv; indicatorsDiv]
                else Ok [outputDiv]) ;;
  Ok (items ++ [Element (lit "li") (lit "output-item") children]).

(** Lines 154-195. *)
Definition createOutputsList (outputs : list Output) : Result Node :=
  let header :=
    Element (lit "div") (lit "subsection-header")
      [Markup (lit "<span class=" ++ quote ++ lit "arrow" ++ quote ++ lit ">"
               ++ hookArrow ++ lit "</span> <strong>Outputs:</strong>")] in
  items <-- forEach_from outputItem outputs 0 [] ;;
  Ok (Element (lit "div") (lit "outputs-container")
              [header; Element (lit "ul") (lit "outputs-list") items]).

(** Lines 116-147. *)
Definition createOutcomeItem (outcome : Outcome) (index : nat) : Result Node :=
  let outcomeNumber :=
    Element (lit "strong") (lit "item-number")
            [Text (lit "Outcome " ++ ofNat index ++ lit ": ")] in
  let outcomeText :=
    Element (lit "span") []
            [Text (orElse (outcome_statement outcome)
                          (lit "(No statement provided)"))] in
  let outcomeDiv :=
    Element (lit "div") (lit "outcome-content") [outcomeNumber; outcomeText] in
  indicators <-- read "outcome.indicators.length"
                   (outcome_indicators outcome) ;;
  children <-- (if 0 <? length indicators then
                  indicatorsDiv <-- createIndicatorsList indicators
                                      (lit "outcome") ;;
                  Ok [outcomeDiv; indicatorsDiv]
                else Ok [outcomeDiv]) ;;
  outputs <-- read "outcome.outputs.length" (outcome_outputs outcome) ;;
  children <-- (if 0 <? length outputs then
                  outputsDiv <-- createOutputsList outputs ;;
                  Ok (children ++ [outputsDiv])
                else Ok children) ;;
  Ok (Element (lit "li") (lit "outcome-item") children).

(** The callback of line 97, on the children of the list. *)
Definition outcomeItem (outcome : Outcome) (index : nat) (items : list Node)
  : Result (list Node) :=
  item <-- createOutcomeItem outcome (index + 1) ;;
  Ok (items ++ [item]).

(** Lines 82-107. *)
Definition createOutcomesSection (outcomes : list Outcome) : Result Node :=
  let badge :=
    Element (lit "span") (lit "level-badge outcomes-badge")
            [Text (lit "OUTCOMES (" ++ ofNat (length outcomes) ++ lit ")")] in
  let header := Element (lit "div") (lit "level-header") [badge] in
  items <-- forEach_from outcomeItem outcomes 0 [] ;;
  Ok (Element (lit "section") (lit "preview-level outcomes-level")
              [header; Element (lit "ul") (lit "outcomes-list") items]).

(** Lines 233-247. *)
Definition createLegend : Node :=
  Element (lit "div") (lit "preview-legend")
    [Markup
       (nl ++ lit "    <h3>Reading the Logic Chain</h3>"
        ++ nl ++ lit "    <ul>"
        ++ nl ++ lit "      <li><strong>Impact</strong> - The ultimate goal or change you want to achieve</li>"
        ++ nl ++ lit "      <li><strong>Outcomes</strong> - Intermediate results that lead to the impact</li>"
        ++ nl ++ lit "      <li><strong>Outputs</strong> (" ++ hookArrow
        ++ lit ") - Activities or deliverables that enable outcomes</li>"
        ++ nl ++ lit "      <li><strong>Indicators</strong> (" ++ rightArrow
        ++ lit ") - Measurable signs of progress</li>"
        ++ nl ++ lit "    </ul>"
        ++ nl ++ lit "  ")].

(** Lines 10-47. *)
Definition generatePreview (data : Data) : Result Node :=
  let title :=
    Element (lit "h2") (lit "preview-title")
            [Text (lit "Theory of Change - Logic Chain Preview")] in
  impactSection <-- createImpactSection (data_impact data) ;;
  outcomes <-- read "data.outcomes.length" (data_outcomes data) ;;
  level <-- (if 0 <? length outcomes then createOutcomesSection outcomes
             else Ok (Element (lit "p") (lit "empty-preview")
                        [Text (lit "No outcomes defined yet. Add outcomes to see the complete logic chain.")])) ;;
  let chain := Element (lit "div") (lit "logic-chain") [impactSection; level] in
  Ok (Element (lit "div") (lit "preview-container")
              [title; chain; createLegend]).

(** The texts of a tree, in document order. *)
Fixpoint textsIn (n : Node) : list jsstr :=
  match n with
  | Element _ _ childNodes => flat_map textsIn childNodes
  | Text data => [data]
  | Markup _ => []
  end.

(** The elements of a tree whose class attribute is [className]. *)
Fixpoint ofClass (className : jsstr) (n : Node) : nat :=
  match n with
  | Element _ c childNodes =>
      (if JsString.eqb c className then 1 else 0)
      + list_sum (map (ofClass className) childNodes)
  | _ => 0
  end.

End preview.

(** ** What the engine reads *)

(** A snapshot that [shaped] rejects and the engine draws: the second
    output of the key has no array of indicators. *)
Definition laterOutputWithoutIndicators : Data :=
  snapshotOf [{| outcome_id := lit "A";
                 outcome_statement := Some (lit "Outcome A");
                 outcome_indicators := Some [];
                 outcome_outputs :=
                   Some [plainOutput "a1" "Shared Thing";
                         {| output_id := lit "a2";
                            output_statement := Some (lit "shared thing");
                            output_indicators := None |}] |}].
(** * Properties *)

(** ** Basic facts about strings and the monad *)

Lemma jsstr_eqb_eq (a b : jsstr) : JsString.eqb a b = true <-> a = b.
Proof.
  revert b; induction a as [|x a IH]; intros [|y b]; simpl;
    try (split; [discriminate | congruence]); try tauto.
  rewrite andb_true_iff, N.eqb_eq, IH.
  split; [intros [-> ->]; reflexivity | intros H; injection H; auto].
Qed.

Lemma jsstr_eqb_refl (a : jsstr) : JsString.eqb a a = true.
Proof. apply jsstr_eqb_eq; reflexivity. Qed.

Lemma jsstr_eqb_neq (a b : jsstr) : JsString.eqb a b = false <-> a <> b.
Proof.
  rewrite <- jsstr_eqb_eq. destruct (JsString.eqb a b); split; congruence.
Qed.

Lemma truthy_true (s : jsstr) : truthy s = true <-> s <> [].
Proof. destruct s; simpl; split; congruence. Qed.

Lemma mapi_from_length {A B} (f : nat -> A -> B) (l : list A) (i : nat) :
  length (mapi_from f i l) = length l.
Proof. revert i; induction l; simpl; auto. Qed.

Lemma mapi_from_nth {A B} (f : nat -> A -> B) (l : list A) (i k : nat) :
  nth_error (mapi_from f i l) k = option_map (f (i + k)) (nth_error l k).
Proof.
  revert i k; induction l as [|a l IH]; intros i [|k]; simpl; auto.
  - rewrite Nat.add_0_r; reflexivity.
  - rewrite IH. replace (S i + k) with (i + S k) by lia. reflexivity.
Qed.

Lemma mapi_from_map {A B C} (g : B -> C) (f : nat -> A -> B) (l : list A) i :
  map g (mapi_from f i l) = mapi_from (fun k a => g (f k a)) i l.
Proof. revert i; induction l; simpl; intros; f_equal; auto. Qed.

(** ** The pre-wrap truncation (line 233) *)

(** C6, as stated, fails: on a text of 61 characters the code keeps 57 of
    them and closes with three full stops, not 60 and an ellipsis. *)
Lemma truncatedText_not_ellipsis :
  truncatedText (repeat 97%N 61) <> truncationWithEllipsis (repeat 97%N 61).
Proof. vm_compute. discriminate. Qed.

(** C6, amended: the truncation is the identity on a text of at most
    [maxChars] characters; a longer text is cut to its first 57 characters
    followed by three full stops, [maxChars] characters in all. *)
Theorem truncatedText_spec (text : jsstr) :
  (length text <= maxChars -> truncatedText text = text)
  /\ (maxChars < length text ->
      truncatedText text = firstn 57 text ++ lit "..."
      /\ length (truncatedText text) = maxChars).
Proof.
  unfold truncatedText, maxChars. split; intros H.
  - destruct (Nat.ltb_spec 60 (length text)); [lia | reflexivity].
  - destruct (Nat.ltb_spec 60 (length text)); [| lia].
    split; [reflexivity |].
    rewrite length_app, firstn_length_le by lia. reflexivity.
Qed.

Lemma truncatedText_spec_witness :
  truncatedText (lit "Only A") = lit "Only A"
  /\ length (truncatedText (repeat 97%N 61)) = maxChars.
Proof.
  split.
  - apply (proj1 (truncatedText_spec (lit "Only A"))). vm_compute. lia.
  - apply (proj2 (truncatedText_spec (repeat 97%N 61))). vm_compute. lia.
Defined.

(** ** The indicator badge (lines 276-303) *)

Lemma createNode_ok x y width height text color label n isShared d :
  createNode x y width height (Some text) color label n isShared d
  = Ok ({| group := {| uid := next_uid d;
                       content := G (nodeGroup x y width height text color
                                       label n isShared) |};
           node_x := x; node_y := y;
           node_width := width; node_height := height |},
        {| next_uid := S (next_uid d); children := children d |}).
Proof. reflexivity. Qed.

(** C10: a node made by [createNode] carries a badge exactly when its
    indicator count is at least 1; the badge's accessible label is
    "1 indicator" for a count of 1 and "N indicators" for a count N > 1. *)
Theorem indicator_badge_label x y width height text color label n isShared d :
  exists node d' g,
    createNode x y width height (Some text) color label n isShared d
    = Ok (node, d')
    /\ content (group node) = G g
    /\ (g_badge g <> None <-> 1 <= n)
    /\ (n = 0 -> g_badge g = None)
    /\ (n = 1 -> option_map badge_title (g_badge g) = Some (lit "1 indicator"))
    /\ (1 < n -> option_map badge_title (g_badge g)
                 = Some (ofNat n ++ lit " indicators")).
Proof.
  rewrite createNode_ok. do 3 eexists. split; [reflexivity |].
  split; [reflexivity |]. simpl. unfold indicatorBadge.
  destruct (Nat.ltb_spec 0 n) as [Hn | Hn].
  - split; [split; [lia | discriminate] |].
    split; [lia |]. split.
    + intros ->. reflexivity.
    + intros H1. simpl. destruct (Nat.ltb_spec 1 n); [| lia].
      reflexivity.
  - split; [split; [congruence | lia] |].
    split; [reflexivity |]. split; intros; lia.
Qed.

Lemma indicator_badge_label_witness :
  exists node d' g,
    createNode 300 200 200 80 (Some (lit "Outcome A")) config.colors.outcome
      (lit "Outcome") 3 false emptyDom = Ok (node, d')
    /\ content (group node) = G g
    /\ option_map badge_title (g_badge g) = Some (lit "3 indicators").
Proof.
  destruct (indicator_badge_label 300 200 200 80 (lit "Outcome A")
              config.colors.outcome (lit "Outcome") 3 false emptyDom)
    as (node & d' & g & H1 & H2 & _ & _ & _ & H3).
  exists node, d', g. split; [exact H1 |]. split; [exact H2 |].
  apply H3. lia.
Defined.

(** ** The text fitter (lines 232-274 and 305-308) *)

Lemma join_snoc (grp : list jsstr) (w : jsstr) :
  grp <> [] -> join space (grp ++ [w]) = join space grp ++ space :: w.
Proof.
  induction grp as [|a grp IH]; [congruence |]. intros _.
  destruct grp as [|b grp]; [reflexivity |].
  change (join space ((a :: b :: grp) ++ [w]))
    with (a ++ space :: join space ((b :: grp) ++ [w])).
  rewrite IH by discriminate.
  change (join space (a :: b :: grp)) with (a ++ space :: join space (b :: grp)).
  rewrite <- app_assoc. reflexivity.
Qed.

Lemma join_headed_truthy (grp : list jsstr) :
  headed grp -> truthy (join space grp) = match grp with [] => false | _ => true end.
Proof.
  destruct grp as [|a [|b grp]]; simpl; intros H; auto.
  - destruct a; [congruence | reflexivity].
  - destruct a; [congruence | reflexivity].
Qed.

(** [wrapWord] and [groupWord] move in step. *)
Lemma wrapWord_groupWord groups current word :
  headed current ->
  wrapWord (map (join space) groups, join space current) word
  = (map (join space) (fst (groupWord (groups, current) word)),
     join space (snd (groupWord (groups, current) word)))
  /\ headed (snd (groupWord (groups, current) word)).
Proof.
  intros Hh. unfold wrapWord, groupWord.
  rewrite (join_headed_truthy _ Hh).
  destruct (length (join space current ++ word) <=? maxCharsPerLine).
  - destruct current as [|a current].
    + destruct word; simpl; split; auto; discriminate.
    + cbn [fst snd]. rewrite join_snoc by discriminate.
      split; [reflexivity | exact Hh].
  - destruct current as [|a current]; cbn [fst snd].
    + destruct word; simpl; split; auto; discriminate.
    + rewrite map_app. destruct word; simpl; split; auto; discriminate.
Qed.

Lemma wrap_fold_groups words : forall groups current,
  headed current ->
  fold_left wrapWord words (map (join space) groups, join space current)
  = (map (join space) (fst (fold_left groupWord words (groups, current))),
     join space (snd (fold_left groupWord words (groups, current))))
  /\ headed (snd (fold_left groupWord words (groups, current))).
Proof.
  induction words as [|w words IH]; intros groups current Hh;
    cbn [fold_left].
  - auto.
  - destruct (wrapWord_groupWord groups current w Hh) as [E Hh'].
    rewrite E.
    destruct (groupWord (groups, current) w) as [groups' current'].
    apply IH. exact Hh'.
Qed.

Lemma wrapLines_wordGroups (words : list jsstr) :
  wrapLines words = map (join space) (wordGroups words).
Proof.
  unfold wrapLines, wordGroups.
  destruct (wrap_fold_groups words [] [] I) as [E Hh].
  change (@nil jsstr, @nil N) with (map (join space) [], join space []).
  rewrite E.
  destruct (fold_left groupWord words ([], [])) as [groups current].
  cbn [fst snd] in *. rewrite (join_headed_truthy _ Hh).
  destruct current; [reflexivity |].
  rewrite map_app. reflexivity.
Qed.

Lemma lineBound_nil : lineBound [].
Proof. left. simpl. lia. Qed.

Lemma lineBound_single w : lineBound [w].
Proof. right. exists w. reflexivity. Qed.

Lemma filter_truthy_snoc (l : list jsstr) (w : jsstr) :
  filter truthy (l ++ (if truthy w then [w] else [])) = filter truthy (l ++ [w]).
Proof.
  rewrite !filter_app. simpl. destruct (truthy w) eqn:E; simpl; rewrite ?E; auto.
Qed.

Lemma started_word (w : jsstr) :
  headed (if truthy w then [w] else [])
  /\ lineBound (if truthy w then [w] else []).
Proof.
  destruct (truthy w) eqn:E; split;
    auto using lineBound_single, lineBound_nil; simpl; auto.
  apply truthy_true; exact E.
Qed.

Lemma groupWord_wrapped seen st word :
  wrapped seen st -> wrapped (seen ++ [word]) (groupWord st word).
Proof.
  destruct st as [groups current].
  intros (Hh & Hw & Hf & Hb & Hc). cbn [fst snd] in *.
  assert (Hseen : filter truthy ((concat groups ++ current) ++ [word])
                  = filter truthy (seen ++ [word])).
  { rewrite filter_app, Hf, <- filter_app. reflexivity. }
  destruct (started_word word) as [Hh' Hb'].
  unfold groupWord.
  destruct (Nat.leb_spec (length (join space current ++ word)) maxCharsPerLine)
    as [Hle | Hgt].
  - destruct current as [|a current]; unfold wrapped; cbn [fst snd].
    + repeat split; auto.
      rewrite filter_truthy_snoc, <- Hseen, app_nil_r. reflexivity.
    + repeat split; auto.
      * rewrite app_assoc. exact Hseen.
      * left. rewrite join_snoc by discriminate.
        rewrite length_app in Hle. rewrite length_app. cbn [length]. lia.
  - destruct current as [|a current]; unfold wrapped; cbn [fst snd].
    + repeat split; auto.
      rewrite filter_truthy_snoc, <- Hseen, app_nil_r. reflexivity.
    + assert (Hwhole : wholeLine (a :: current)).
      { exists a, current. split; auto. }
      repeat split; auto.
      * apply Forall_app; split; auto.
      * rewrite filter_truthy_snoc, <- Hseen.
        rewrite concat_app. simpl concat. rewrite app_nil_r. reflexivity.
      * apply Forall_app; split; auto.
Qed.

Lemma fold_groupWord_wrapped words : forall seen st,
  wrapped seen st -> wrapped (seen ++ words) (fold_left groupWord words st).
Proof.
  induction words as [|w words IH]; intros seen st H; simpl.
  - rewrite app_nil_r. exact H.
  - replace (seen ++ w :: words) with ((seen ++ [w]) ++ words)
      by (rewrite <- app_assoc; reflexivity).
    apply IH, groupWord_wrapped, H.
Qed.

Lemma wordGroups_spec (words : list jsstr) :
  Forall wholeLine (wordGroups words)
  /\ filter truthy (concat (wordGroups words)) = filter truthy words
  /\ Forall lineBound (wordGroups words).
Proof.
  unfold wordGroups.
  assert (H0 : wrapped [] ([], [])).
  { repeat split; simpl; auto using lineBound_nil. }
  pose proof (fold_groupWord_wrapped words [] ([], []) H0) as H. simpl app in H.
  destruct (fold_left groupWord words ([], [])) as [groups current].
  destruct H as (Hh & Hw & Hf & Hb & Hc). cbn [fst snd] in *.
  destruct current as [|a current].
  - rewrite app_nil_r in Hf. auto.
  - split; [| split].
    + apply Forall_app; split; auto.
      constructor; [| constructor]. exists a, current. split; auto.
    + rewrite concat_app. simpl concat. rewrite app_nil_r. exact Hf.
    + apply Forall_app; split; auto.
Qed.

Lemma snoc_cases {A} (l : list A) :
  l = [] \/ exists l' a, l = l' ++ [a].
Proof.
  destruct l as [|a l] using rev_ind; [left; reflexivity |].
  right. exists l, a. reflexivity.
Qed.

Lemma joinedWhileFits_short (grp : list jsstr) :
  length grp <= 1 -> joinedWhileFits grp.
Proof.
  intros Hl before word after E Hne. exfalso.
  apply (f_equal (@length jsstr)) in E.
  rewrite length_app in E. cbn [length] in E.
  destruct before; [congruence | cbn [length] in E; lia].
Qed.

Lemma joinedWhileFits_snoc (grp : list jsstr) (w : jsstr) :
  grp <> [] ->
  joinedWhileFits grp ->
  length (join space grp) + length w <= maxCharsPerLine ->
  joinedWhileFits (grp ++ [w]).
Proof.
  intros Hne Hg Hw before word after E Hb.
  destruct (snoc_cases after) as [-> | (after' & x & ->)].
  - change (before ++ [word]) with (before ++ [word]) in E.
    apply app_inj_tail in E. destruct E as [<- <-]. exact Hw.
  - change (before ++ word :: after' ++ [x])
      with (before ++ (word :: after') ++ [x]) in E.
    rewrite app_assoc in E. apply app_inj_tail in E. destruct E as [-> _].
    apply (Hg before word after'); [reflexivity | exact Hb].
Qed.

Lemma closedWhenFull_snoc (groups : list (list jsstr)) (current : list jsstr) :
  closedWhenFull groups ->
  pending groups current ->
  closedWhenFull (groups ++ [current]).
Proof.
  intros Hc Hp before grp word rest after E.
  destruct (snoc_cases after) as [-> | (after' & x & ->)].
  - change (before ++ [grp; word :: rest])
      with (before ++ [grp] ++ [word :: rest]) in E.
    rewrite app_assoc in E. apply app_inj_tail in E. destruct E as [-> ->].
    apply (Hp before grp). reflexivity.
  - change (before ++ grp :: (word :: rest) :: after' ++ [x])
      with (before ++ (grp :: (word :: rest) :: after') ++ [x]) in E.
    rewrite app_assoc in E. apply app_inj_tail in E. destruct E as [-> _].
    apply (Hc before grp word rest after'). reflexivity.
Qed.

(** One turn of the loop keeps the rule. *)
Lemma groupWord_greedy (st : list (list jsstr) * list jsstr) (word : jsstr) :
  greedy st -> greedy (groupWord st word).
Proof.
  destruct st as [groups current].
  intros (Hj & Hjc & Hc & Hp). cbn [fst snd] in *.
  unfold groupWord.
  destruct (Nat.leb_spec (length (join space current ++ word)) maxCharsPerLine)
    as [Hle | Hgt]; rewrite length_app in *.
  - destruct current as [|a current]; unfold greedy; cbn [fst snd].
    + split; [exact Hj |]. split; [| split; [exact Hc |]].
      * apply joinedWhileFits_short. destruct (truthy word); cbn; lia.
      * intros before grp E. specialize (Hp before grp E). cbn in Hp.
        destruct (truthy word); [lia | exact Hp].
    + split; [exact Hj |]. split; [| split; [exact Hc |]].
      * apply joinedWhileFits_snoc; [discriminate | exact Hjc | exact Hle].
      * exact Hp.
  - destruct current as [|a current]; unfold greedy; cbn [fst snd].
    + cbn [join length] in Hgt.
      split; [exact Hj |]. split; [| split; [exact Hc |]].
      * apply joinedWhileFits_short. destruct (truthy word); cbn; lia.
      * intros before grp E. specialize (Hp before grp E). cbn in Hp.
        destruct word as [|c word]; [cbn [length] in Hgt; unfold maxCharsPerLine in Hgt; lia |].
        cbn [truthy]. lia.
    + split; [| split; [| split]].
      * apply Forall_app. split; [exact Hj |]. constructor; [exact Hjc | constructor].
      * apply joinedWhileFits_short. destruct (truthy word); cbn; lia.
      * apply closedWhenFull_snoc; assumption.
      * intros before grp E. apply app_inj_tail in E. destruct E as [_ <-].
        destruct word as [|c word]; cbn [truthy].
        -- cbn [length] in Hgt. lia.
        -- exact Hgt.
Qed.

Lemma fold_groupWord_greedy (words : list jsstr) :
  forall st, greedy st -> greedy (fold_left groupWord words st).
Proof.
  induction words as [|w words IH]; intros st H; cbn [fold_left];
    [exact H |].
  apply IH, groupWord_greedy, H.
Qed.

(** The lines follow the rule of the loop: a word joins the line while
    the line and the word, the joining space not counted, are within
    [maxCharsPerLine], and starts the next line otherwise. *)
Lemma wordGroups_greedy (words : list jsstr) :
  Forall joinedWhileFits (wordGroups words)
  /\ closedWhenFull (wordGroups words).
Proof.
  unfold wordGroups.
  assert (H0 : greedy ([], [])).
  { split; [constructor |]. split; [apply joinedWhileFits_short; cbn; lia |].
    split.
    - intros before grp word rest after E. destruct before; discriminate.
    - intros before grp E. destruct before; discriminate. }
  pose proof (fold_groupWord_greedy words ([], []) H0) as H.
  destruct (fold_left groupWord words ([], [])) as [groups current].
  destruct H as (Hj & Hjc & Hc & Hp). cbn [fst snd] in *.
  destruct current as [|a current]; [auto |].
  split.
  - apply Forall_app. split; [exact Hj |]. constructor; [exact Hjc | constructor].
  - apply closedWhenFull_snoc; assumption.
Qed.

(** C5, as stated, fails: two words of 20 and 10 characters are put on one
    line of 31 characters. *)
Lemma display_line_over_limit :
  ~ Forall withinLimitOrSingleWord
      (displayLines (lit "aaaaaaaaaaaaaaaaaaaa bbbbbbbbbb")).
Proof.
  intros H. apply Forall_inv in H. destruct H as [H | [_ H]].
  - vm_compute in H. lia.
  - apply H. vm_compute. do 20 right. left. reflexivity.
Qed.

Lemma displayLines_length (text : jsstr) :
  length (displayLines text) <= maxLines.
Proof.
  unfold displayLines. rewrite mapi_from_length. apply firstn_le_length.
Qed.

(** The cut of line 233 splits a word: of a text of 71 characters, a word
    of 30 and a word of 40, the second displayed line is the first 26
    characters of the second word and three full stops, which no run of
    whole words of the text gives.  The words of the lines are therefore
    those of the text as truncated, not of the text as given. *)
Lemma display_line_cut_word :
  let text := lit "aaaaaaaaaaaaaaaaaaaaaaaaaaaaaa bbbbbbbbbbbbbbbbbbbbbbbbbbbbbbbbbbbbbbbb" in
  displayLines text
  = [lit "aaaaaaaaaaaaaaaaaaaaaaaaaaaaaa"; lit "bbbbbbbbbbbbbbbbbbbbbbbbbb..."]
  /\ ~ Forall (wholeWordsOf text) (displayLines text).
Proof.
  cbv zeta.
  assert (E : displayLines
                (lit "aaaaaaaaaaaaaaaaaaaaaaaaaaaaaa bbbbbbbbbbbbbbbbbbbbbbbbbbbbbbbbbbbbbbbb")
              = [lit "aaaaaaaaaaaaaaaaaaaaaaaaaaaaaa";
                 lit "bbbbbbbbbbbbbbbbbbbbbbbbbb..."])
    by (vm_compute; reflexivity).
  split; [exact E |].
  rewrite E. intros H. apply Forall_inv_tail, Forall_inv in H.
  destruct H as (words & Hin & Hl).
  assert (Hw : split space
                 (lit "aaaaaaaaaaaaaaaaaaaaaaaaaaaaaa bbbbbbbbbbbbbbbbbbbbbbbbbbbbbbbbbbbbbbbb")
               = [lit "aaaaaaaaaaaaaaaaaaaaaaaaaaaaaa";
                  lit "bbbbbbbbbbbbbbbbbbbbbbbbbbbbbbbbbbbbbbbb"])
    by (vm_compute; reflexivity).
  rewrite Hw in Hin. clear Hw E.
  destruct words as [|word words].
  - destruct Hl as [Hl | Hl]; vm_compute in Hl; discriminate.
  - apply Forall_inv in Hin.
    assert (Hj : exists rest, join space (word :: words) = word ++ rest).
    { destruct words as [|w' words].
      - exists []. cbn. rewrite ?app_nil_r. reflexivity.
      - unfold join. cbn [List.fold_left fold_left]. fold (join space).
        eexists. cbn. reflexivity. }
    destruct Hj as [rest Hj]. rewrite Hj in Hl. clear Hj.
    destruct Hin as [<- | [<- | []]].
    + destruct Hl as [Hl | Hl]; vm_compute in Hl; discriminate.
    + destruct Hl as [Hl | Hl];
        apply (f_equal (@length N)) in Hl;
        rewrite ?length_app in Hl; vm_compute in Hl; lia.
Qed.

(** C5, amended: the full text is kept for the tooltip; at most [maxLines]
    lines are displayed; the wrapping never splits a word: the lines are
    runs of whole words of the text as truncated by line 233, joined by one
    space, every non-empty word in exactly one line and in order; a word
    joins the line in progress while the line and the word, the joining
    space not counted, have at most [maxCharsPerLine] characters, and starts
    the next line only when they have more; a line of several words has
    therefore at most 31 characters, a longer line being one single word;
    the second displayed line is followed by three full stops when lines
    were dropped. *)
Theorem text_fitter_whole_words x y width height text color label n isShared :
  let g := nodeGroup x y width height text color label n isShared in
  rect_title (g_rect g) = text
  /\ map textContent (g_lines g) = displayLines text
  /\ length (displayLines text) <= maxLines
  /\ exists groups : list (list jsstr),
       Forall wholeLine groups
       /\ filter truthy (concat groups)
          = filter truthy (split space (truncatedText text))
       /\ Forall lineBound groups
       /\ Forall joinedWhileFits groups
       /\ closedWhenFull groups
       /\ forall i line,
            nth_error (displayLines text) i = Some line ->
            exists grp,
              nth_error groups i = Some grp
              /\ line = join space grp
                        ++ (if (i =? 1) && (2 <? length groups)
                            then lit "..." else []).
Proof.
  cbn zeta. split; [reflexivity |]. split.
  { simpl. rewrite mapi_from_map. simpl.
    generalize 0. induction (displayLines text); intros k; simpl;
      f_equal; auto. }
  split; [apply displayLines_length |].
  exists (wordGroups (split space (truncatedText text))).
  destruct (wordGroups_spec (split space (truncatedText text)))
    as (Hw & Hf & Hb).
  destruct (wordGroups_greedy (split space (truncatedText text)))
    as (Hj & Hc).
  split; [exact Hw |]. split; [exact Hf |]. split; [exact Hb |].
  split; [exact Hj |]. split; [exact Hc |].
  intros i line. unfold displayLines, textLines.
  rewrite wrapLines_wordGroups, mapi_from_nth, nth_error_firstn.
  unfold shownLine. rewrite length_map.
  destruct (i <? maxLines); [| discriminate].
  rewrite nth_error_map.
  destruct (nth_error (wordGroups (split space (truncatedText text))) i)
    as [grp |]; [| discriminate].
  simpl. intros E. injection E as <-. exists grp. split; reflexivity.
Qed.

Lemma text_fitter_whole_words_witness :
  rect_title (g_rect (nodeGroup 300 380 200 80 (lit "Shared Thing")
                        config.colors.output (lit "Output") 0 false))
  = lit "Shared Thing"
  /\ length (displayLines (lit "Shared Thing")) <= maxLines.
Proof.
  pose proof (text_fitter_whole_words 300 380 200 80 (lit "Shared Thing")
                config.colors.output (lit "Output") 0 false) as H.
  cbn zeta in H. destruct H as (H1 & _ & H2 & _).
  split; [exact H1 | exact H2].
Defined.

(** ** The loops, run *)

Lemma forEach_from_pure {A St} (f : A -> nat -> St -> M St)
  (g : St -> A -> St) (Q : A -> Prop) :
  (forall a i s d, Q a -> f a i s d = Ok (g s a, d)) ->
  forall l i s d, Forall Q l ->
    forEach_from f l i s d = Ok (fold_left g l s, d).
Proof.
  intros Hf l. induction l as [|a l IH]; intros i s d Hl; simpl.
  - reflexivity.
  - inversion Hl; subst. unfold bind. rewrite Hf by assumption.
    apply IH. assumption.
Qed.

(** An invariant [P] of the callback, [seen] being the items visited. *)
Lemma forEach_from_inv {A St} (f : A -> nat -> St -> M St)
  (Q : A -> Prop) (P : list A -> St -> Dom -> Prop) :
  (forall seen a s d, Q a -> P seen s d ->
     exists s' d', f a (length seen) s d = Ok (s', d') /\ P (seen ++ [a]) s' d') ->
  forall l seen s d, Forall Q l -> P seen s d ->
    exists s' d', forEach_from f l (length seen) s d = Ok (s', d')
                  /\ P (seen ++ l) s' d'.
Proof.
  intros Hf l. induction l as [|a l IH]; intros seen s d Hl HP; simpl.
  - exists s, d. rewrite app_nil_r. auto.
  - inversion Hl; subst.
    destruct (Hf seen a s d) as (s1 & d1 & E & HP1); auto.
    unfold bind. rewrite E.
    destruct (IH (seen ++ [a]) s1 d1) as (s2 & d2 & E2 & HP2); auto.
    rewrite length_app, Nat.add_1_r in E2.
    exists s2, d2. rewrite <- app_assoc in HP2. auto.
Qed.

(** ** The de-duplication as a function of the outcomes *)

Lemma forallb_Forall {A} (p : A -> bool) (l : list A) :
  forallb p l = true -> Forall (fun a => p a = true) l.
Proof. intros H. apply Forall_forall. apply forallb_forall. exact H. Qed.

Lemma shapedOutcome_parts outcome :
  shapedOutcome outcome = true ->
  exists statement indicators outputs,
    outcome_statement outcome = Some statement
    /\ outcome_indicators outcome = Some indicators
    /\ outcome_outputs outcome = Some outputs
    /\ Forall (fun o => shapedOutput o = true) outputs.
Proof.
  unfold shapedOutcome. rewrite !andb_true_iff.
  destruct (outcome_statement outcome) as [st|]; simpl; [| intuition discriminate].
  destruct (outcome_indicators outcome) as [ins|]; simpl; [| intuition discriminate].
  destruct (outcome_outputs outcome) as [os|]; [| intuition discriminate].
  intros (_ & H). exists st, ins, os. auto using forallb_Forall.
Qed.

Lemma shapedOutput_parts o :
  shapedOutput o = true ->
  exists statement indicators,
    output_statement o = Some statement
    /\ output_indicators o = Some indicators.
Proof.
  unfold shapedOutput. rewrite andb_true_iff.
  destruct (output_statement o) as [st|]; simpl; [| intuition discriminate].
  destruct (output_indicators o) as [ins|]; simpl; [| intuition discriminate].
  intros _. exists st, ins. auto.
Qed.

Lemma collectOutput_run outcome o i m d :
  shapedOutput o = true ->
  collectOutput outcome o i m d = Ok (addOutput (outcome_id outcome) m o, d).
Proof.
  intros H. destruct (shapedOutput_parts o H) as (st & ins & E1 & E2).
  unfold collectOutput, addOutput, bind. rewrite E1. simpl.
  destruct (map_has (statementKey st) m); reflexivity.
Qed.

Lemma collectOutcome_run outcome i m d :
  shapedOutcome outcome = true ->
  collectOutcome outcome i m d = Ok (addOutcome m outcome, d).
Proof.
  intros H. destruct (shapedOutcome_parts outcome H) as (st & ins & os & E1 & E2 & E3 & Hos).
  unfold collectOutcome, addOutcome, bind, forEach. rewrite E3. simpl.
  apply forEach_from_pure with (Q := fun o => shapedOutput o = true); auto.
  intros. apply collectOutput_run. assumption.
Qed.

Lemma collectUniqueOutputs_run data outcomes d :
  data_outcomes data = Some outcomes ->
  Forall (fun o => shapedOutcome o = true) outcomes ->
  collectUniqueOutputs data d = Ok (uniqueOutputsOf outcomes, d).
Proof.
  intros E H. unfold collectUniqueOutputs, bind, forEach. rewrite E. simpl.
  rewrite forEach_from_pure
    with (g := addOutcome) (Q := fun o => shapedOutcome o = true); auto.
  intros. apply collectOutcome_run. assumption.
Qed.

(** ** The DOM: identities stay distinct *)

(** A child with a fresh identity may be placed anywhere. *)
Lemma wfDom_add (d : Dom) (e : Element) (l : list Element) (n : nat) :
  wfDom d ->
  Permutation l (e :: children d) ->
  next_uid d <= uid e < n ->
  wfDom {| next_uid := n; children := l |}.
Proof.
  intros [Hnd Hlt] Hp [Hlo Hhi]. split; simpl.
  - apply Permutation_NoDup with (l := map uid (e :: children d)).
    + apply Permutation_map, Permutation_sym, Hp.
    + simpl. constructor; auto.
      intros Hin. apply in_map_iff in Hin. destruct Hin as (e' & E & Hin).
      rewrite Forall_forall in Hlt. specialize (Hlt e' Hin). lia.
  - apply Forall_forall. intros e' Hin.
    apply (Permutation_in _ Hp) in Hin. destruct Hin as [<- | Hin]; [lia |].
    rewrite Forall_forall in Hlt. specialize (Hlt e' Hin). lia.
Qed.

Lemma insert_before_middle (new ref : Element) (A B : list Element) :
  ~ In (uid ref) (map uid A) ->
  insert_before new (uid ref) (A ++ ref :: B) = Some (A ++ new :: ref :: B).
Proof.
  induction A as [|a A IH]; simpl; intros H.
  - rewrite Nat.eqb_refl. reflexivity.
  - destruct (Nat.eqb_spec (uid a) (uid ref)) as [E | _]; [tauto |].
    rewrite IH by tauto. reflexivity.
Qed.

Lemma NoDup_middle_notin (ref : Element) (A B : list Element) :
  NoDup (map uid (A ++ ref :: B)) -> ~ In (uid ref) (map uid A).
Proof.
  rewrite map_app. simpl. intros H Hin.
  apply NoDup_remove_2 in H. apply H. apply in_or_app. auto.
Qed.

(** [svg.insertBefore(connection, svg.firstChild.nextSibling)]: the new
    element becomes the second child. *)
Lemma insert_second (c t : Element) (rest : list Element) (d : Dom) :
  children d = t :: rest ->
  NoDup (map uid (children d)) ->
  (first <- firstChild ;;
   first <- expect "svg.firstChild.nextSibling" first ;;
   ref <- nextSibling first ;;
   insertBefore c ref) d
  = Ok (tt, {| next_uid := next_uid d; children := t :: c :: rest |}).
Proof.
  intros E Hnd. unfold bind, firstChild, nextSibling. rewrite E. simpl.
  rewrite E. simpl. rewrite Nat.eqb_refl. destruct rest as [|r rest]; simpl.
  - unfold appendChild. rewrite E. reflexivity.
  - rewrite E. simpl. rewrite E in Hnd. simpl in Hnd.
    destruct (Nat.eqb_spec (uid t) (uid r)) as [Eu | _].
    + inversion Hnd as [| ? ? Hin _]. exfalso. apply Hin. left. auto.
    + rewrite Nat.eqb_refl. reflexivity.
Qed.

Lemma find_map {A B} (f : A -> B) (p : B -> bool) (l : list A) :
  find p (map f l) = option_map f (find (fun a => p (f a)) l).
Proof.
  induction l as [|a l IH]; simpl; auto. destruct (p (f a)); auto.
Qed.

Lemma mapi_from_app {A B} (f : nat -> A -> B) (l l' : list A) (i : nat) :
  mapi_from f i (l ++ l') = mapi_from f i l ++ mapi_from f (i + length l) l'.
Proof.
  revert i; induction l as [|a l IH]; intros i; simpl.
  - rewrite Nat.add_0_r. reflexivity.
  - rewrite IH. do 3 f_equal. lia.
Qed.

(** ** The layers, run *)

Arguments nodeGroup : simpl never.
Arguments createConnection : simpl never.
Arguments ofLength : simpl never.
Arguments outputLabel : simpl never.

Lemma outcomeStep_run totalWidth spacing impactNode outcome index ons d A B :
  shapedOutcome outcome = true ->
  children d = A ++ group impactNode :: B ->
  NoDup (map uid (children d)) ->
  exists n g c,
    outcomeStep totalWidth spacing impactNode outcome index ons d
    = Ok (ons ++ [n],
          {| next_uid := S (S (next_uid d));
             children := A ++ c :: group impactNode :: B ++ [g] |})
    /\ anchor n = anchorOf spacing index outcome
    /\ uid g = next_uid d
    /\ content g = G (outcomeGroupOf spacing index outcome)
    /\ uid c = S (next_uid d)
    /\ content c = Path (impactConnectionOf totalWidth spacing index outcome).
Proof.
  intros Hs Hc Hnd.
  destruct (shapedOutcome_parts outcome Hs) as (st & ins & os & E1 & E2 & E3 & _).
  do 3 eexists.
  unfold outcomeStep, createNode. rewrite E1, E2.
  unfold bind, expect, ret, createElementNS, appendChild, insertBefore.
  cbn [next_uid children group uid].
  rewrite Hc, <- app_assoc, <- app_comm_cons.
  rewrite insert_before_middle
    by (rewrite Hc in Hnd; eapply NoDup_middle_notin; exact Hnd).
  split; [reflexivity |].
  unfold outcomeGroupOf, impactConnectionOf, anchorOf, anchor.
  rewrite E1, E2. simpl stringOf. simpl arrayOf.
  repeat split; reflexivity.
Qed.

Lemma outcomeStep_keeps totalWidth spacing impactNode pre seen outcome ons d :
  shapedOutcome outcome = true ->
  outcomeLayer totalWidth spacing pre (group impactNode) seen ons d ->
  exists ons' d',
    outcomeStep totalWidth spacing impactNode outcome (length seen) ons d
    = Ok (ons', d')
    /\ outcomeLayer totalWidth spacing pre (group impactNode)
         (seen ++ [outcome]) ons' d'.
Proof.
  intros Hs (Hwf & Ha & conns & groups & Hc & Hcc & Hcg).
  rewrite app_assoc in Hc.
  destruct (outcomeStep_run totalWidth spacing impactNode outcome (length seen)
              ons d (pre ++ conns) groups Hs Hc (proj1 Hwf))
    as (n & g & c & E & Hn & Hgu & Hgc & Hcu & Hcp).
  eexists (ons ++ [n]), _. split; [exact E |].
  split; [| split].
  - apply wfDom_add
      with (d := {| next_uid := S (next_uid d); children := children d ++ [g] |})
           (e := c).
    + apply wfDom_add with (d := d) (e := g); auto.
      * apply Permutation_sym, Permutation_cons_append.
      * lia.
    + simpl. rewrite Hc.
      replace (((pre ++ conns) ++ group impactNode :: groups) ++ [g])
        with ((pre ++ conns) ++ group impactNode :: groups ++ [g])
        by (repeat rewrite <- app_assoc; reflexivity).
      apply Permutation_sym, Permutation_middle.
    + simpl. lia.
  - rewrite map_app, mapi_from_app, Ha. simpl. rewrite Hn. reflexivity.
  - exists (conns ++ [c]), (groups ++ [g]). split; [| split].
    + simpl. rewrite <- !app_assoc. reflexivity.
    + rewrite map_app, mapi_from_app, map_app, Hcc. simpl. rewrite Hcp.
      reflexivity.
    + rewrite map_app, mapi_from_app, map_app, Hcg. simpl. rewrite Hgc.
      reflexivity.
Qed.

Lemma outcomes_run totalWidth spacing impactNode pre outcomes d :
  Forall (fun o => shapedOutcome o = true) outcomes ->
  wfDom d ->
  children d = pre ++ [group impactNode] ->
  exists ons d',
    forEach (outcomeStep totalWidth spacing impactNode) outcomes [] d
    = Ok (ons, d')
    /\ outcomeLayer totalWidth spacing pre (group impactNode) outcomes ons d'.
Proof.
  intros Hs Hwf Hc.
  apply (forEach_from_inv (outcomeStep totalWidth spacing impactNode)
           (fun o => shapedOutcome o = true)
           (outcomeLayer totalWidth spacing pre (group impactNode))
           (fun seen a s d0 Ha HP =>
              outcomeStep_keeps totalWidth spacing impactNode pre seen a s d0 Ha HP)
           outcomes [] [] d Hs).
  split; [exact Hwf |]. split; [reflexivity |].
  exists [], []. auto.
Qed.

Lemma connectStep_run ons x y isShared id i d t rest :
  children d = t :: rest ->
  wfDom d ->
  exists new d',
    connectStep ons x y isShared id i tt d = Ok (tt, d')
    /\ wfDom d'
    /\ children d' = t :: new ++ rest
    /\ map content new
       = map Path (connectionsOf (map anchor ons) x y isShared [id]).
Proof.
  intros Hc Hwf. unfold connectStep, connectionsOf. simpl flat_map.
  rewrite find_map. simpl fst.
  destruct (find (fun n => JsString.eqb (on_id n) id) ons) as [n |]; simpl.
  - set (c := {| uid := next_uid d;
                 content := Path (createConnection (on_x n) (on_y n)
                                    (x + config.itemWidth / 2) y
                                    config.colors.connection isShared) |}).
    exists [c], {| next_uid := S (next_uid d); children := t :: c :: rest |}.
    split; [| split; [| split; reflexivity]].
    + unfold bind at 1. unfold createElementNS. fold c.
      rewrite (insert_second c t rest
                 {| next_uid := S (next_uid d); children := children d |}).
      * reflexivity.
      * exact Hc.
      * apply Hwf.
    + apply wfDom_add with (d := d) (e := c); simpl; auto.
      rewrite Hc. apply perm_swap.
  - exists [], d. auto.
Qed.

Lemma connectionsOf_app anchors x y isShared ids ids' :
  connectionsOf anchors x y isShared (ids ++ ids')
  = connectionsOf anchors x y isShared ids
    ++ connectionsOf anchors x y isShared ids'.
Proof. unfold connectionsOf. apply flat_map_app. Qed.

Lemma connectionsOf_single_rev anchors x y isShared id :
  rev (connectionsOf anchors x y isShared [id])
  = connectionsOf anchors x y isShared [id].
Proof.
  unfold connectionsOf. simpl.
  match goal with
  | |- context [find ?p anchors] => destruct (find p anchors)
  end; reflexivity.
Qed.

Lemma connections_run ons x y isShared ids d t rest :
  children d = t :: rest ->
  wfDom d ->
  exists d',
    forEach (connectStep ons x y isShared) ids tt d = Ok (tt, d')
    /\ connectLayer t rest (map anchor ons) x y isShared ids tt d'.
Proof.
  intros Hc Hwf.
  destruct (forEach_from_inv (connectStep ons x y isShared)
              (fun _ => True)
              (connectLayer t rest (map anchor ons) x y isShared))
    with (l := ids) (seen := @nil jsstr) (s := tt) (d := d)
    as (s' & d' & E & H).
  - intros seen id [] d0 _ (Hwf0 & new & Hc0 & Hn0).
    destruct (connectStep_run ons x y isShared id (length seen) d0 t
                (new ++ rest) Hc0 Hwf0)
      as (new1 & d1 & E1 & Hwf1 & Hc1 & Hn1).
    exists tt, d1. split; [exact E1 |]. split; [exact Hwf1 |].
    exists (new1 ++ new). split.
    + rewrite Hc1, app_assoc. reflexivity.
    + rewrite connectionsOf_app, rev_app_distr, connectionsOf_single_rev.
      rewrite !map_app, Hn1, Hn0. reflexivity.
  - apply Forall_forall. auto.
  - split; [exact Hwf |]. exists []. auto.
  - destruct s'. exists d'. auto.
Qed.

Lemma outputStep_run spacing ons outputData index uns d t rest :
  shapedOutputData outputData ->
  children d = t :: rest ->
  wfDom d ->
  exists uns' d' new g,
    outputStep spacing ons outputData index uns d = Ok (uns', d')
    /\ wfDom d'
    /\ children d' = t :: new ++ rest ++ [g]
    /\ content g = G (outputGroupOf spacing index outputData)
    /\ map content new
       = map Path (rev (outputConnectionsOf (map anchor ons) spacing index
                          outputData)).
Proof.
  intros Hs Hc Hwf.
  destruct (shapedOutput_parts _ Hs) as (st & ins & E1 & E2).
  unfold outputStep, createNode. rewrite E1, E2.
  unfold bind at 1. unfold expect at 1. unfold ret at 1.
  unfold bind at 1. unfold bind at 1. unfold expect at 1. unfold ret at 1.
  unfold bind at 1. unfold createElementNS at 1. unfold ret at 1.
  unfold bind at 1. unfold appendChild at 1.
  cbn [next_uid children group uid].
  set (g := {| uid := next_uid d; content := _ |}).
  set (d1 := {| next_uid := S (next_uid d); children := children d ++ [g] |}).
  assert (Hwf1 : wfDom d1).
  { apply wfDom_add with (d := d) (e := g); simpl; auto.
    apply Permutation_sym, Permutation_cons_append. }
  assert (Hc1 : children d1 = t :: rest ++ [g]).
  { simpl. rewrite Hc. reflexivity. }
  destruct (connections_run ons
              (spacing * ofLength (index + 1) - config.itemWidth / 2)%Q
              (config.padding + config.levelHeight * 2)%Q
              (1 <? length (outcomeIds outputData))
              (outcomeIds outputData) d1 t (rest ++ [g]) Hc1 Hwf1)
    as (d2 & E & Hwf2 & new & Hc2 & Hn2).
  unfold bind. rewrite E. unfold ret.
  eexists _, d2, new, g. split; [reflexivity |].
  split; [exact Hwf2 |]. split; [exact Hc2 |].
  split; [| exact Hn2].
  subst g. unfold outputGroupOf. rewrite E1, E2. reflexivity.
Qed.

Lemma outputs_run spacing ons uniqueOutputs d t mid :
  Forall shapedOutputData uniqueOutputs ->
  wfDom d ->
  children d = t :: mid ->
  exists uns d',
    forEach (outputStep spacing ons) uniqueOutputs [] d = Ok (uns, d')
    /\ outputLayer t mid (map anchor ons) spacing uniqueOutputs uns d'.
Proof.
  intros Hs Hwf Hc.
  apply (forEach_from_inv (outputStep spacing ons) shapedOutputData
           (outputLayer t mid (map anchor ons) spacing))
    with (seen := @nil OutputData); auto.
  - intros seen od uns d0 Hod (Hwf0 & conns & groups & Hc0 & Hcc & Hcg).
    destruct (outputStep_run spacing ons od (length seen) uns d0 t
                (conns ++ mid ++ groups) Hod Hc0 Hwf0)
      as (uns' & d' & new & g & E & Hwf' & Hc' & Hg & Hn).
    exists uns', d'. split; [exact E |]. split; [exact Hwf' |].
    exists (new ++ conns), (groups ++ [g]). split; [| split].
    + rewrite Hc'. repeat rewrite <- app_assoc. reflexivity.
    + rewrite mapi_from_app, concat_app, rev_app_distr. simpl.
      rewrite app_nil_r, !map_app, Hn, Hcc. reflexivity.
    + rewrite mapi_from_app, !map_app, Hcg. simpl. rewrite Hg. reflexivity.
  - split; [exact Hwf |]. exists [], []. rewrite app_nil_r. auto.
Qed.

(** The entries of the map hold outputs of the outcomes. *)
Lemma addOutput_outputs (P : Output -> Prop) id m o :
  P o -> Forall (fun kv => P (output (snd kv))) m ->
  Forall (fun kv => P (output (snd kv))) (addOutput id m o).
Proof.
  intros Ho Hm. unfold addOutput.
  destruct (map_has _ m).
  - induction m as [|[k v] m IH]; simpl; auto.
    inversion Hm; subst.
    destruct (JsString.eqb k _); constructor; auto.
  - unfold map_set. apply Forall_app. split; auto.
Qed.

Lemma fold_addOutput_outputs (P : Output -> Prop) id os : forall m,
  Forall P os -> Forall (fun kv => P (output (snd kv))) m ->
  Forall (fun kv => P (output (snd kv))) (fold_left (addOutput id) os m).
Proof.
  induction os as [|o os IH]; simpl; intros m Hos Hm; auto.
  inversion Hos; subst. apply IH; auto using addOutput_outputs.
Qed.

Lemma fold_addOutcome_outputs (P : Output -> Prop) outcomes : forall m,
  Forall (fun oc => Forall P (arrayOf (outcome_outputs oc))) outcomes ->
  Forall (fun kv => P (output (snd kv))) m ->
  Forall (fun kv => P (output (snd kv))) (fold_left addOutcome outcomes m).
Proof.
  induction outcomes as [|oc ocs IH]; simpl; intros m H Hm; auto.
  inversion H; subst. apply IH; auto.
  unfold addOutcome. apply fold_addOutput_outputs; auto.
Qed.

Lemma uniqueOutputs_shaped outcomes :
  Forall (fun o => shapedOutcome o = true) outcomes ->
  Forall shapedOutputData (uniqueOutputsOf outcomes).
Proof.
  intros H. unfold uniqueOutputsOf, outputsMapOf. apply Forall_map.
  apply (fold_addOutcome_outputs (fun o => shapedOutput o = true)); auto.
  eapply Forall_impl; [| exact H]. intros oc Hoc.
  destruct (shapedOutcome_parts oc Hoc) as (st & ins & os & _ & _ & E & Hos).
  rewrite E. exact Hos.
Qed.

Lemma shaped_parts data :
  shaped data = true ->
  exists impact statement outcomes,
    data_impact data = Some impact
    /\ impact_statement impact = Some statement
    /\ data_outcomes data = Some outcomes
    /\ Forall (fun o => shapedOutcome o = true) outcomes.
Proof.
  unfold shaped. rewrite andb_true_iff.
  destruct (data_impact data) as [impact |]; [| intuition discriminate].
  destruct (impact_statement impact) as [st |] eqn:Est; [| intuition discriminate].
  destruct (data_outcomes data) as [outcomes |]; [| intuition discriminate].
  intros [_ H]. exists impact, st, outcomes. auto using forallb_Forall.
Qed.

(** ** The pipeline on a shaped snapshot *)

(** On a snapshot of the shape of the data model the pipeline returns, and
    the children of the [svg] are the ones of [sceneContents]. *)
Theorem generate_scene (data : Data) :
  shaped data = true ->
  exists svg,
    generateSVGVisualization data = Ok svg
    /\ svg_width svg = lay_totalWidth (layoutOf data)
    /\ svg_height svg = totalHeight
    /\ map content (svg_children svg) = sceneContents data.
Proof.
  intros Hs.
  destruct (shaped_parts data Hs) as (impact & st & outcomes & Ei & Est & Eo & Ho).
  unfold generateSVGVisualization, build.
  unfold bind at 1.
  rewrite (collectUniqueOutputs_run data outcomes emptyDom Eo Ho).
  rewrite Eo, Ei. unfold createNode.
  set (uniqueOutputs := uniqueOutputsOf outcomes).
  pose (totalWidth := totalWidthOf (length outcomes) (length uniqueOutputs)).
  unfold bind, expect, ret, createElementNS, appendChild.
  cbn [next_uid children group uid emptyDom app]. rewrite Est.
  cbn [next_uid children group uid emptyDom app].
  set (title := {| uid := 0; content := Title titleText |}).
  set (desc := {| uid := 1; content := Desc _ |}).
  set (defs := {| uid := 2; content := Defs |}).
  set (impactNode := {| group := {| uid := 3; content := _ |};
                        node_x := _; node_y := _;
                        node_width := _; node_height := _ |}).
  set (d4 := {| next_uid := 4; children := _ |}).
  assert (Hwf4 : wfDom d4).
  { split; simpl.
    - repeat constructor; simpl; intuition discriminate.
    - repeat constructor. }
  destruct (outcomes_run totalWidth
              (totalWidth / ofLength (length outcomes + 1))%Q impactNode
              [title; desc; defs] outcomes d4 Ho Hwf4 eq_refl)
    as (ons & d5 & E5 & Hwf5 & Ha & conns & groups & Hc5 & Hcc & Hcg).
  subst totalWidth. rewrite E5.
  pose proof (uniqueOutputs_shaped outcomes Ho) as Hu.
  destruct (outputs_run
              (totalWidthOf (length outcomes) (length uniqueOutputs)
               / ofLength (length uniqueOutputs + 1))%Q
              ons uniqueOutputs d5 title
              (desc :: defs :: conns ++ group impactNode :: groups)
              Hu Hwf5 Hc5)
    as (uns & d6 & E6 & Hwf6 & conns' & groups' & Hc6 & Hcc' & Hcg').
  rewrite E6.
  eexists. split; [reflexivity |]. cbn [svg_width svg_height svg_children].
  unfold sceneContents, layoutOf, impactStatementOf, outputConnectionsAll,
    impactConnectionsOf, outcomeGroupsOf, outputGroupsOf.
  rewrite Eo, Ei, Est.
  cbn [arrayOf stringOf lay_outcomes lay_uniqueOutputs lay_totalWidth
       lay_outcomeSpacing lay_outputSpacing lay_anchors].
  split; [reflexivity |]. split; [reflexivity |].
  rewrite Hc6. cbn [map]. rewrite !map_app. cbn [map]. rewrite !map_app.
  cbn [map]. rewrite Hcc', Hcg', Hcc, Hcg, Ha.
  cbn [app]. repeat rewrite <- app_assoc. reflexivity.
Qed.

(** ** Reading the scene off its contents *)

Lemma nodes_contents svg : nodes svg = groupsIn (map content (svg_children svg)).
Proof.
  unfold nodes, groupsIn.
  induction (svg_children svg) as [|e l IH]; simpl; [| rewrite IH]; reflexivity.
Qed.

Lemma connectors_contents svg :
  connectors svg = pathsIn (map content (svg_children svg)).
Proof.
  unfold connectors, pathsIn.
  induction (svg_children svg) as [|e l IH]; simpl; [| rewrite IH]; reflexivity.
Qed.

Lemma groupsIn_app a b : groupsIn (a ++ b) = groupsIn a ++ groupsIn b.
Proof. apply flat_map_app. Qed.

Lemma pathsIn_app a b : pathsIn (a ++ b) = pathsIn a ++ pathsIn b.
Proof. apply flat_map_app. Qed.

Lemma groupsIn_G gs : groupsIn (map G gs) = gs.
Proof. induction gs; simpl; f_equal; auto. Qed.

Lemma groupsIn_Path ps : groupsIn (map Path ps) = [].
Proof. induction ps; simpl; auto. Qed.

Lemma pathsIn_Path ps : pathsIn (map Path ps) = ps.
Proof. induction ps; simpl; f_equal; auto. Qed.

Lemma pathsIn_G gs : pathsIn (map G gs) = [].
Proof. induction gs; simpl; auto. Qed.

Lemma groupsIn_scene data :
  groupsIn (sceneContents data)
  = impactGroupOf (lay_totalWidth (layoutOf data)) (impactStatementOf data)
    :: outcomeGroupsOf (layoutOf data) ++ outputGroupsOf (layoutOf data).
Proof.
  unfold sceneContents. cbn zeta.
  change (Title titleText :: ?l) with ([Title titleText] ++ l).
  rewrite !groupsIn_app, groupsIn_Path. simpl.
  rewrite !groupsIn_app, groupsIn_Path. simpl.
  rewrite !groupsIn_app, !groupsIn_G. reflexivity.
Qed.

Lemma pathsIn_scene data :
  pathsIn (sceneContents data)
  = rev (outputConnectionsAll (layoutOf data))
    ++ impactConnectionsOf (layoutOf data).
Proof.
  unfold sceneContents. cbn zeta.
  change (Title titleText :: ?l) with ([Title titleText] ++ l).
  rewrite !pathsIn_app, pathsIn_Path. simpl.
  rewrite !pathsIn_app, pathsIn_Path. simpl.
  rewrite !pathsIn_app, !pathsIn_G, app_nil_r. reflexivity.
Qed.

(** ** Z-order *)

Lemma split_order (back front : list Content) :
  Forall (fun c => isG c = false) back ->
  Forall (fun c => isPath c = false) front ->
  forall i j ci cj,
    nth_error (back ++ front) i = Some ci ->
    nth_error (back ++ front) j = Some cj ->
    isG ci = true -> isPath cj = true -> j < i.
Proof.
  intros Hb Hf i j ci cj Hi Hj Hgi Hpj.
  assert (Hi' : length back <= i).
  { destruct (Nat.lt_ge_cases i (length back)) as [Hlt | Hge]; auto.
    rewrite nth_error_app1 in Hi by assumption.
    apply nth_error_In in Hi. rewrite Forall_forall in Hb.
    rewrite (Hb ci Hi) in Hgi. discriminate. }
  assert (Hj' : j < length back).
  { destruct (Nat.lt_ge_cases j (length back)) as [Hlt | Hge]; auto.
    rewrite nth_error_app2 in Hj by assumption.
    apply nth_error_In in Hj. rewrite Forall_forall in Hf.
    rewrite (Hf cj Hj) in Hpj. discriminate. }
  lia.
Qed.

Lemma sceneContents_split data :
  exists back front,
    sceneContents data = back ++ front
    /\ Forall (fun c => isG c = false) back
    /\ Forall (fun c => isPath c = false) front.
Proof.
  unfold sceneContents. cbn zeta.
  set (l := layoutOf data).
  exists (Title titleText :: map Path (rev (outputConnectionsAll l))
          ++ Desc (descText (length (lay_outcomes l))
                            (length (lay_uniqueOutputs l)))
          :: Defs :: map Path (impactConnectionsOf l)),
         (G (impactGroupOf (lay_totalWidth l) (impactStatementOf data))
          :: map G (outcomeGroupsOf l) ++ map G (outputGroupsOf l)).
  split; [| split].
  - simpl. f_equal. rewrite <- app_assoc. reflexivity.
  - constructor; [reflexivity |]. apply Forall_app. split.
    + apply Forall_map, Forall_forall. reflexivity.
    + repeat (constructor; [reflexivity |]).
      apply Forall_map, Forall_forall. reflexivity.
  - constructor; [reflexivity |]. apply Forall_app.
    split; apply Forall_map, Forall_forall; reflexivity.
Qed.

(** C9: in the scene of every snapshot, every connector element comes
    before every node element among the children of the [svg], although
    nodes and connectors are created in turn. *)
Theorem connectors_before_nodes (data : Data) :
  shaped data = true ->
  exists svg,
    generateSVGVisualization data = Ok svg
    /\ forall i j ei ej,
         nth_error (svg_children svg) i = Some ei ->
         nth_error (svg_children svg) j = Some ej ->
         isNode ei = true -> isConnector ej = true -> j < i.
Proof.
  intros Hs. destruct (generate_scene data Hs) as (svg & E & _ & _ & Hc).
  exists svg. split; [exact E |].
  destruct (sceneContents_split data) as (back & front & Hsp & Hb & Hf).
  intros i j ei ej Hi Hj Hn Hp.
  apply (split_order back front Hb Hf i j (content ei) (content ej)).
  - rewrite <- Hsp, <- Hc, nth_error_map, Hi. reflexivity.
  - rewrite <- Hsp, <- Hc, nth_error_map, Hj. reflexivity.
  - exact Hn.
  - exact Hp.
Qed.

Lemma connectors_before_nodes_witness :
  exists svg,
    generateSVGVisualization scenario = Ok svg
    /\ forall i j ei ej,
         nth_error (svg_children svg) i = Some ei ->
         nth_error (svg_children svg) j = Some ej ->
         isNode ei = true -> isConnector ej = true -> j < i.
Proof. apply (connectors_before_nodes scenario). reflexivity. Defined.

(** ** The empty snapshot *)

(** C8: a snapshot with zero outcomes yields a scene, without raising, whose
    only node is the Impact node and which has no connector; the canvas is
    sized for [max(0, 0, 1) = 1] item per row, 1200 by 580. *)
Theorem empty_snapshot_scene (data : Data) (impact : Impact) (statement : jsstr) :
  data_impact data = Some impact ->
  impact_statement impact = Some statement ->
  data_outcomes data = Some [] ->
  exists svg g,
    generateSVGVisualization data = Ok svg
    /\ nodes svg = [g]
    /\ textContent (g_label g) = lit "Impact"
    /\ rect_title (g_rect g) = statement
    /\ connectors svg = []
    /\ svg_width svg = totalWidthOf 0 0
    /\ maxItemsPerRow 0 0 = 1
    /\ (svg_width svg == 1200)%Q
    /\ (svg_height svg == 580)%Q.
Proof.
  intros Ei Est Eo.
  assert (Hs : shaped data = true).
  { unfold shaped. rewrite Ei, Est, Eo. reflexivity. }
  destruct (generate_scene data Hs) as (svg & E & Hw & Hh & Hc).
  exists svg, (impactGroupOf (lay_totalWidth (layoutOf data)) statement).
  split; [exact E |].
  assert (Hl : layoutOf data
               = {| lay_outcomes := []; lay_uniqueOutputs := [];
                    lay_totalWidth := totalWidthOf 0 0;
                    lay_outcomeSpacing := (totalWidthOf 0 0 / ofLength 1)%Q;
                    lay_outputSpacing := (totalWidthOf 0 0 / ofLength 1)%Q;
                    lay_anchors := [] |}).
  { unfold layoutOf. rewrite Eo. reflexivity. }
  split; [| split; [| split; [| split]]].
  - rewrite nodes_contents, Hc, groupsIn_scene. unfold impactStatementOf.
    rewrite Ei, Est, Hl. reflexivity.
  - reflexivity.
  - reflexivity.
  - rewrite connectors_contents, Hc, pathsIn_scene, Hl. reflexivity.
  - rewrite Hw, Hh, Hl. simpl lay_totalWidth.
    repeat split; reflexivity.
Qed.

Lemma empty_snapshot_scene_witness :
  exists svg g,
    generateSVGVisualization emptySnapshot = Ok svg
    /\ nodes svg = [g]
    /\ connectors svg = [].
Proof.
  destruct (empty_snapshot_scene emptySnapshot
              {| impact_id := lit "impact-1";
                 impact_statement := Some (lit "X") |} (lit "X")
              eq_refl eq_refl eq_refl)
    as (svg & g & H1 & H2 & _ & _ & H3 & _).
  exists svg, g. auto.
Defined.

(** ** The Impact box *)

(** C3 fails on the code: the Impact box is 1.5 item widths wide, but its
    left edge is put half an item width left of the middle of the canvas,
    so the middle of the box lies 50 to the right of the middle of the
    canvas, on every snapshot. *)
Theorem impact_box_off_centre (data : Data) :
  shaped data = true ->
  exists svg g,
    generateSVGVisualization data = Ok svg
    /\ hd_error (nodes svg) = Some g
    /\ textContent (g_label g) = lit "Impact"
    /\ (rect_width (g_rect g) == 300)%Q
    /\ (rect_x (g_rect g) == svg_width svg / 2 - 100)%Q
    /\ (rect_x (g_rect g) + rect_width (g_rect g) / 2
        == svg_width svg / 2 + 50)%Q.
Proof.
  intros Hs. destruct (generate_scene data Hs) as (svg & E & Hw & _ & Hc).
  exists svg,
    (impactGroupOf (lay_totalWidth (layoutOf data)) (impactStatementOf data)).
  split; [exact E |].
  rewrite nodes_contents, Hc, groupsIn_scene, Hw.
  split; [reflexivity |]. split; [reflexivity |].
  unfold impactGroupOf, nodeGroup. cbn [g_rect rect_x rect_width].
  unfold config.itemWidth. repeat split; field.
Qed.

(** C3 at the empty snapshot: the box spans 500 to 800 on a canvas whose
    middle is 600. *)
Lemma impact_box_off_centre_empty :
  exists svg g,
    generateSVGVisualization emptySnapshot = Ok svg
    /\ hd_error (nodes svg) = Some g
    /\ (svg_width svg / 2 == 600)%Q
    /\ (rect_x (g_rect g) == 500)%Q
    /\ (rect_x (g_rect g) + rect_width (g_rect g) == 800)%Q.
Proof.
  eexists _, _. split; [reflexivity |].
  split; [reflexivity |]. repeat split; reflexivity.
Qed.

Lemma impact_box_off_centre_witness :
  exists svg g,
    generateSVGVisualization emptySnapshot = Ok svg
    /\ hd_error (nodes svg) = Some g
    /\ textContent (g_label g) = lit "Impact"
    /\ (rect_width (g_rect g) == 300)%Q
    /\ (rect_x (g_rect g) == svg_width svg / 2 - 100)%Q
    /\ (rect_x (g_rect g) + rect_width (g_rect g) / 2
        == svg_width svg / 2 + 50)%Q.
Proof. apply (impact_box_off_centre emptySnapshot). reflexivity. Defined.

(** ** Canvas width and horizontal spacing *)

Lemma ofLength_le (a b : nat) : a <= b -> (ofLength a <= ofLength b)%Q.
Proof. intros H. unfold ofLength. rewrite <- Zle_Qle. lia. Qed.

Lemma ofLength_succ (a : nat) : (ofLength (a + 1) == ofLength a + 1)%Q.
Proof.
  unfold ofLength. rewrite Nat2Z.inj_add, inject_Z_plus. reflexivity.
Qed.

Lemma ofLength_nonneg (a : nat) : (0 <= ofLength a)%Q.
Proof. apply (ofLength_le 0 a). lia. Qed.

Lemma totalWidthOf_lower (n m : nat) :
  (1200 <= totalWidthOf n m)%Q
  /\ (ofLength (maxItemsPerRow n m) * 240 + 40 <= totalWidthOf n m)%Q.
Proof.
  unfold totalWidthOf, config.width, config.itemWidth, config.horizontalGap,
    config.padding.
  split.
  - apply Q.le_max_l.
  - eapply Qle_trans; [| apply Q.le_max_r]. apply Qle_lteq. right. ring.
Qed.

(** The slots of a rank that is no denser than the densest one are more
    than an item width apart. *)
Lemma spacing_wide (n m k : nat) :
  k <= maxItemsPerRow n m ->
  (200 < totalWidthOf n m / ofLength (k + 1))%Q.
Proof.
  intros Hk. destruct (totalWidthOf_lower n m) as [H1 H2].
  pose proof (ofLength_le _ _ Hk) as Hle.
  pose proof (ofLength_nonneg k) as H0.
  pose proof (ofLength_succ k) as Hs.
  apply Qlt_shift_div_l.
  - rewrite Hs. lra.
  - rewrite Hs. lra.
Qed.

Lemma rank_laid_out (totalWidth : Q) (rank : list Group) :
  (200 < totalWidth / ofLength (length rank + 1))%Q ->
  (forall i g, nth_error rank i = Some g ->
     rect_width (g_rect g) = config.itemWidth
     /\ rect_x (g_rect g)
        = rankX (totalWidth / ofLength (length rank + 1)) i) ->
  rankLaidOut totalWidth rank.
Proof.
  intros Hsp Hr. split.
  - intros i g Hi. destruct (Hr i g Hi) as [Hw Hx]. rewrite Hw, Hx.
    unfold rankX, config.itemWidth. split; [reflexivity | ring].
  - intros i j gi gj Hij Hi Hj.
    destruct (Hr i gi Hi) as [Hwi Hxi]. destruct (Hr j gj Hj) as [_ Hxj].
    rewrite Hwi, Hxi, Hxj. unfold rankX, config.itemWidth.
    set (sp := (totalWidth / ofLength (length rank + 1))%Q) in *.
    assert (Hle : (ofLength (i + 1) + 1 <= ofLength (j + 1))%Q).
    { rewrite <- ofLength_succ. apply ofLength_le. lia. }
    pose proof (ofLength_nonneg (i + 1)) as H0.
    nra.
Qed.

Lemma mapi_from_nth_inv {A B} (f : nat -> A -> B) (l : list A) (i : nat) (b : B) :
  nth_error (mapi_from f 0 l) i = Some b ->
  exists a, nth_error l i = Some a /\ b = f i a.
Proof.
  rewrite mapi_from_nth. simpl.
  destruct (nth_error l i) as [a |]; simpl; [| discriminate].
  intros E. injection E as <-. exists a. auto.
Qed.

(** C4: the canvas is [max(W, max(n, m, 1) * (boxW + gap) + 2P)] wide, for
    [n] outcomes and [m] unique outputs, and in the outcome and output
    ranks, whose [k] boxes are centred on [totalWidth / (k + 1) * i], no two
    boxes overlap. *)
Theorem canvas_width_and_spacing (data : Data) :
  shaped data = true ->
  exists svg outcomes uniqueOutputs impactG outcomeGs outputGs,
    generateSVGVisualization data = Ok svg
    /\ data_outcomes data = Some outcomes
    /\ collectUniqueOutputs data emptyDom = Ok (uniqueOutputs, emptyDom)
    /\ nodes svg = impactG :: outcomeGs ++ outputGs
    /\ length outcomeGs = length outcomes
    /\ length outputGs = length uniqueOutputs
    /\ svg_width svg
       = Qmax 1200
           (ofLength (Nat.max (Nat.max (length outcomes) (length uniqueOutputs)) 1)
            * (200 + 40) + 20 * 2)
    /\ rankLaidOut (svg_width svg) outcomeGs
    /\ rankLaidOut (svg_width svg) outputGs.
Proof.
  intros Hs. destruct (generate_scene data Hs) as (svg & E & Hw & _ & Hc).
  destruct (shaped_parts data Hs) as (impact & st & outcomes & Ei & Est & Eo & Ho).
  assert (Hl : lay_outcomes (layoutOf data) = outcomes
               /\ lay_uniqueOutputs (layoutOf data) = uniqueOutputsOf outcomes
               /\ lay_totalWidth (layoutOf data)
                  = totalWidthOf (length outcomes)
                      (length (uniqueOutputsOf outcomes))
               /\ lay_outcomeSpacing (layoutOf data)
                  = (lay_totalWidth (layoutOf data)
                     / ofLength (length outcomes + 1))%Q
               /\ lay_outputSpacing (layoutOf data)
                  = (lay_totalWidth (layoutOf data)
                     / ofLength (length (uniqueOutputsOf outcomes) + 1))%Q).
  { unfold layoutOf. rewrite Eo. repeat split; reflexivity. }
  destruct Hl as (Hlo & Hlu & Hlw & Hls & Hlp).
  exists svg, outcomes, (uniqueOutputsOf outcomes),
    (impactGroupOf (lay_totalWidth (layoutOf data)) (impactStatementOf data)),
    (outcomeGroupsOf (layoutOf data)), (outputGroupsOf (layoutOf data)).
  split; [exact E |]. split; [exact Eo |].
  split; [apply collectUniqueOutputs_run; assumption |].
  split; [rewrite nodes_contents, Hc; apply groupsIn_scene |].
  assert (Hn : length (outcomeGroupsOf (layoutOf data)) = length outcomes).
  { unfold outcomeGroupsOf. rewrite mapi_from_length, Hlo. reflexivity. }
  assert (Hm : length (outputGroupsOf (layoutOf data))
               = length (uniqueOutputsOf outcomes)).
  { unfold outputGroupsOf. rewrite mapi_from_length, Hlu. reflexivity. }
  split; [exact Hn |]. split; [exact Hm |].
  split; [rewrite Hw, Hlw; reflexivity |].
  rewrite Hw. split.
  - apply rank_laid_out.
    + rewrite Hn, Hlw. apply spacing_wide. unfold maxItemsPerRow. lia.
    + intros i g Hi. apply mapi_from_nth_inv in Hi.
      destruct Hi as (oc & _ & ->). rewrite Hn, <- Hls.
      split; reflexivity.
  - apply rank_laid_out.
    + rewrite Hm, Hlw. apply spacing_wide. unfold maxItemsPerRow. lia.
    + intros i g Hi. apply mapi_from_nth_inv in Hi.
      destruct Hi as (od & _ & ->). rewrite Hm, <- Hlp.
      split; reflexivity.
Qed.

Lemma canvas_width_and_spacing_witness :
  exists svg outcomes uniqueOutputs impactG outcomeGs outputGs,
    generateSVGVisualization scenario = Ok svg
    /\ data_outcomes scenario = Some outcomes
    /\ collectUniqueOutputs scenario emptyDom = Ok (uniqueOutputs, emptyDom)
    /\ nodes svg = impactG :: outcomeGs ++ outputGs
    /\ length outcomeGs = length outcomes
    /\ length outputGs = length uniqueOutputs
    /\ svg_width svg
       = Qmax 1200
           (ofLength (Nat.max (Nat.max (length outcomes) (length uniqueOutputs)) 1)
            * (200 + 40) + 20 * 2)
    /\ rankLaidOut (svg_width svg) outcomeGs
    /\ rankLaidOut (svg_width svg) outputGs.
Proof. apply (canvas_width_and_spacing scenario). reflexivity. Defined.

(** ** Malformed snapshots *)

(** C7, as stated, fails twice.  A snapshot that has [impact.statement] and
    an array of outcomes, and that [isValidData] accepts, makes the engine
    raise; and a snapshot without [impact.statement] makes it raise only
    after the de-duplication has run to its end. *)
Lemma raises_beyond_malformed :
  (malformed outputWithoutStatement = false
   /\ isValidData outputWithoutStatement = true
   /\ generateSVGVisualization outputWithoutStatement
      = Throw (TypeError "output.statement.trim"))
  /\ (malformed scenarioWithoutImpactStatement = true
      /\ (exists uniqueOutputs,
             collectUniqueOutputs scenarioWithoutImpactStatement emptyDom
             = Ok (uniqueOutputs, emptyDom)
             /\ length uniqueOutputs = 2)
      /\ generateSVGVisualization scenarioWithoutImpactStatement
         = Throw (TypeError "text.length")).
Proof.
  split.
  - repeat split; reflexivity.
  - split; [reflexivity |]. split; [| reflexivity].
    eexists. split; reflexivity.
Qed.

Lemma missing_impact_statement_raises (data : Data) :
  hasImpactStatement data = false ->
  exists e, generateSVGVisualization data = Throw e.
Proof.
  intros H. unfold generateSVGVisualization, build.
  unfold bind at 1.
  destruct (collectUniqueOutputs data emptyDom) as [[us d1] | e];
    [| exists e; reflexivity].
  unfold bind at 1.
  destruct (data_outcomes data) as [outcomes |];
    [| eexists; reflexivity].
  unfold hasImpactStatement in H.
  unfold expect, createNode, bind, ret, createElementNS, appendChild, throw.
  cbn [next_uid children].
  destruct (data_impact data) as [impact |]; [| eexists; reflexivity].
  destruct (impact_statement impact); [discriminate |].
  eexists; reflexivity.
Qed.

Lemma missing_impact_statement_site (data : Data) (outcomes : list Outcome) :
  hasImpactStatement data = false ->
  data_outcomes data = Some outcomes ->
  Forall (fun o => shapedOutcome o = true) outcomes ->
  collectUniqueOutputs data emptyDom = Ok (uniqueOutputsOf outcomes, emptyDom)
  /\ (generateSVGVisualization data = Throw (TypeError "data.impact.statement")
      \/ generateSVGVisualization data = Throw (TypeError "text.length")).
Proof.
  intros H Eo Ho.
  pose proof (collectUniqueOutputs_run data outcomes emptyDom Eo Ho) as Ec.
  split; [exact Ec |].
  unfold hasImpactStatement in H.
  unfold generateSVGVisualization, build, createNode, bind. rewrite Ec, Eo.
  unfold expect, ret, createElementNS, appendChild, throw.
  cbn [next_uid children].
  destruct (data_impact data) as [impact |]; [| left; reflexivity].
  destruct (impact_statement impact); [discriminate |].
  right. reflexivity.
Qed.

(** C7, amended: a snapshot without [impact.statement], or whose [outcomes]
    is not an array, is rejected by [isValidData] and makes the engine raise:
    at its first statement when [outcomes] is not an array; when
    [impact.statement] is missing, in any case before it returns, and where
    the Impact node is built, the de-duplication done, if the outcomes have
    the shape of the data model.  On every snapshot of that shape the engine
    returns a scene. *)
Theorem failure_on_malformed_only (data : Data) :
  (malformed data = true -> isValidData data = false)
  /\ (data_outcomes data = None ->
      generateSVGVisualization data
      = Throw (TypeError "data.outcomes.forEach"))
  /\ (hasImpactStatement data = false ->
      (exists e, generateSVGVisualization data = Throw e)
      /\ forall outcomes,
           data_outcomes data = Some outcomes ->
           Forall (fun o => shapedOutcome o = true) outcomes ->
           collectUniqueOutputs data emptyDom
           = Ok (uniqueOutputsOf outcomes, emptyDom)
           /\ (generateSVGVisualization data
               = Throw (TypeError "data.impact.statement")
               \/ generateSVGVisualization data
                  = Throw (TypeError "text.length")))
  /\ (shaped data = true ->
      exists svg, generateSVGVisualization data = Ok svg).
Proof.
  split; [| split; [| split]].
  - unfold malformed, hasImpactStatement, isValidData.
    destruct (truthyProp (data_version data)); [| reflexivity]. simpl.
    destruct (data_impact data) as [impact |]; [| reflexivity].
    destruct (impact_statement impact) as [st |]; simpl.
    + destruct (truthy st); simpl; [| reflexivity].
      destruct (data_outcomes data); [discriminate | reflexivity].
    + reflexivity.
  - intros E. unfold generateSVGVisualization, build, collectUniqueOutputs.
    rewrite E. reflexivity.
  - intros H. split.
    + apply missing_impact_statement_raises. exact H.
    + intros outcomes. apply missing_impact_statement_site. exact H.
  - intros Hs. destruct (generate_scene data Hs) as (svg & E & _).
    exists svg. exact E.
Qed.

Lemma failure_on_malformed_only_witness :
  isValidData scenarioWithoutImpactStatement = false
  /\ (exists e, generateSVGVisualization scenarioWithoutImpactStatement
                = Throw e)
  /\ (exists svg, generateSVGVisualization scenario = Ok svg).
Proof.
  split; [| split].
  - apply (proj1 (failure_on_malformed_only scenarioWithoutImpactStatement)).
    reflexivity.
  - apply (proj1 (proj2 (proj2
             (failure_on_malformed_only scenarioWithoutImpactStatement)))).
    reflexivity.
  - apply (proj2 (proj2 (proj2 (failure_on_malformed_only scenario)))).
    reflexivity.
Defined.

(** ** An outcome that lists one statement twice *)

(** C1 fails on the code at an outcome with two blank outputs: the one
    unique output has the id of its single outcome twice among its
    [outcomeIds], and is labelled as shared across 2 outcomes. *)
Theorem duplicate_within_outcome :
  contributingOutcomes (arrayOf (data_outcomes twoBlankOutputs)) [] = [lit "A"]
  /\ collectUniqueOutputs twoBlankOutputs emptyDom
     = Ok ([{| output := plainOutput "a1" "";
               outcomeIds := [lit "A"; lit "A"] |}], emptyDom)
  /\ exists svg,
       generateSVGVisualization twoBlankOutputs = Ok svg
       /\ map (fun g => textContent (g_label g)) (nodes svg)
          = [lit "Impact"; lit "Outcome";
             lit "Output (shared across 2 outcomes)"].
Proof.
  split; [vm_compute; reflexivity |]. split; [vm_compute; reflexivity |].
  destruct (generateSVGVisualization twoBlankOutputs) as [svg | e] eqn:E;
    vm_compute in E; [| discriminate].
  injection E as <-. eexists. split; [reflexivity |].
  vm_compute. reflexivity.
Qed.

(** C2 fails on the code at the same snapshot, for the same reason: the
    output owned by one outcome is drawn as shared and two connectors
    target its node. *)
Theorem duplicate_within_outcome_connectors :
  exists svg g,
    generateSVGVisualization twoBlankOutputs = Ok svg
    /\ nth_error (nodes svg) 2 = Some g
    /\ length (contributingOutcomes
                 (arrayOf (data_outcomes twoBlankOutputs))
                 (rect_title (g_rect g))) = 1
    /\ drawnShared g = true
    /\ length (filter (fun p => targets p g) (connectors svg)) = 2.
Proof.
  destruct (generateSVGVisualization twoBlankOutputs) as [svg | e] eqn:E;
    vm_compute in E; [| discriminate].
  injection E as <-. eexists _, _. split; [reflexivity |].
  split; [vm_compute; reflexivity |].
  repeat split; vm_compute; reflexivity.
Qed.

(** The end-to-end scenario: two unique outputs, the shared one first and
    drawn as shared, three connectors from outcomes to outputs, two of them
    into the shared node. *)
Example scenario_scene :
  exists svg shared onlyA,
    generateSVGVisualization scenario = Ok svg
    /\ collectUniqueOutputs scenario emptyDom
       = Ok ([{| output := plainOutput "a1" "Shared Thing";
                 outcomeIds := [lit "A"; lit "B"] |};
              {| output := plainOutput "a2" "Only A";
                 outcomeIds := [lit "A"] |}], emptyDom)
    /\ skipn 3 (nodes svg) = [shared; onlyA]
    /\ drawnShared shared = true
    /\ drawnShared onlyA = false
    /\ length (filter (fun p => targets p shared) (connectors svg)) = 2
    /\ length (filter (fun p => targets p onlyA) (connectors svg)) = 1
    /\ length (filter (fun p => Qeq_bool (p_y2 p) outputsY) (connectors svg)) = 3.
Proof.
  destruct (generateSVGVisualization scenario) as [svg | e] eqn:E;
    vm_compute in E; [| discriminate].
  injection E as <-. eexists _, _, _. split; [reflexivity |].
  split; [vm_compute; reflexivity |]. split; [vm_compute; reflexivity |].
  repeat split; vm_compute; reflexivity.
Qed.

(** ** What the de-duplication computes *)

Lemma firstSeen_In (keys : list jsstr) (k : jsstr) :
  In k (firstSeen keys) <-> In k keys.
Proof.
  induction keys as [|a keys IH]; simpl; [tauto |].
  rewrite filter_In, IH, negb_true_iff, jsstr_eqb_neq.
  destruct (list_eq_dec N.eq_dec a k) as [-> | Hne]; [tauto |].
  split; [tauto |]. intros [H | H]; [tauto |]. right. split; congruence.
Qed.

Lemma firstSeen_NoDup (keys : list jsstr) : NoDup (firstSeen keys).
Proof.
  induction keys as [|a keys IH]; simpl; constructor.
  - rewrite filter_In, negb_true_iff, jsstr_eqb_neq. tauto.
  - apply NoDup_filter, IH.
Qed.

Lemma firstSeen_snoc (keys : list jsstr) (k : jsstr) :
  firstSeen (keys ++ [k])
  = if existsb (fun k' => JsString.eqb k' k) keys
    then firstSeen keys else firstSeen keys ++ [k].
Proof.
  induction keys as [|a keys IH]; simpl; [reflexivity |].
  rewrite IH. destruct (JsString.eqb a k) eqn:Eak; simpl.
  - apply jsstr_eqb_eq in Eak. subst a.
    destruct (existsb _ keys); [reflexivity |].
    rewrite filter_app. simpl. rewrite jsstr_eqb_refl. simpl.
    rewrite app_nil_r. reflexivity.
  - destruct (existsb _ keys); [reflexivity |].
    rewrite filter_app. simpl.
    replace (JsString.eqb k a) with false; [reflexivity |].
    symmetry. apply jsstr_eqb_neq. apply jsstr_eqb_neq in Eak. congruence.
Qed.

Lemma map_has_keys (k : jsstr) (m : OutputsMap) :
  map_has k m = existsb (fun k' => JsString.eqb k' k) (map fst m).
Proof. unfold map_has. induction m; simpl; [| rewrite IHm]; reflexivity. Qed.

Lemma existsb_firstSeen (keys : list jsstr) (k : jsstr) :
  existsb (fun k' => JsString.eqb k' k) (firstSeen keys)
  = existsb (fun k' => JsString.eqb k' k) keys.
Proof.
  apply eq_true_iff_eq. rewrite !existsb_exists.
  split; intros (k' & Hin & E); exists k'; split; auto;
    apply firstSeen_In; auto.
Qed.

Lemma idsFor_snoc k occs occ :
  idsFor k (occs ++ [occ])
  = idsFor k occs ++ (if hasKey k occ then [fst occ] else []).
Proof.
  unfold idsFor. rewrite filter_app, map_app. simpl.
  destruct (hasKey k occ); reflexivity.
Qed.

Lemma find_snoc {A} (p : A -> bool) (l : list A) (a : A) :
  find p (l ++ [a])
  = match find p l with
    | Some b => Some b
    | None => if p a then Some a else None
    end.
Proof.
  induction l as [|b l IH]; simpl; [reflexivity |].
  destruct (p b); auto.
Qed.

Lemma firstFor_snoc k occs occ o :
  firstFor k occs = Some o -> firstFor k (occs ++ [occ]) = Some o.
Proof.
  unfold firstFor. rewrite find_snoc.
  destruct (find (hasKey k) occs); simpl; [auto | discriminate].
Qed.

Lemma firstFor_new k occs occ :
  existsb (fun k' => JsString.eqb k' k) (map keyOf occs) = false ->
  hasKey k occ = true ->
  firstFor k (occs ++ [occ]) = Some (snd occ) /\ idsFor k occs = [].
Proof.
  intros Hno Hk. unfold firstFor, idsFor. rewrite find_snoc.
  assert (Hall : forall o', In o' occs -> hasKey k o' = false).
  { intros o' Hin. destruct (hasKey k o') eqn:E; auto.
    rewrite <- Hno. symmetry. apply existsb_exists.
    exists (keyOf o'). split; [apply in_map; exact Hin | exact E]. }
  replace (find (hasKey k) occs) with (@None Occurrence).
  - simpl. rewrite Hk. split; [reflexivity |].
    replace (filter (hasKey k) occs) with (@nil Occurrence); [reflexivity |].
    symmetry. clear - Hall. induction occs as [|a occs IH]; simpl; auto.
    rewrite (Hall a) by (left; reflexivity). apply IH.
    intros. apply Hall. right. assumption.
  - symmetry. clear - Hall. induction occs as [|a occs IH]; simpl; auto.
    rewrite (Hall a) by (left; reflexivity). apply IH.
    intros. apply Hall. right. assumption.
Qed.

(** Pushing for a key changes the entry of that key only. *)
Lemma map_push_entries occs occ (m : OutputsMap) (keys : list jsstr) :
  NoDup keys ->
  Forall2 (entryFor occs) m keys ->
  Forall2 (entryFor (occs ++ [occ])) (map_push (keyOf occ) (fst occ) m) keys.
Proof.
  assert (Hother : forall k v,
             entryFor occs (k, v) k -> k <> keyOf occ ->
             entryFor (occs ++ [occ]) (k, v) k).
  { intros k v (_ & Eids & Efirst) Hne. simpl in *.
    split; [reflexivity |]. simpl. split.
    - rewrite idsFor_snoc, Eids. unfold hasKey.
      replace (JsString.eqb (keyOf occ) k) with false;
        [rewrite app_nil_r; reflexivity |].
      symmetry. apply jsstr_eqb_neq. congruence.
    - apply firstFor_snoc. exact Efirst. }
  intros Hnd H.
  induction H as [|[k' v] k m keys Hentry Hrest IH]; simpl; [constructor |].
  assert (Ek : k' = k) by apply Hentry. subst k'.
  inversion Hnd as [|? ? Hnotin Hnd']; subst.
  destruct (JsString.eqb k (keyOf occ)) eqn:Ekey.
  - apply jsstr_eqb_eq in Ekey. constructor.
    + destruct Hentry as (_ & Eids & Efirst). simpl in *.
      split; [reflexivity |]. simpl. split.
      * rewrite idsFor_snoc, <- Eids. unfold hasKey. rewrite Ekey.
        rewrite jsstr_eqb_refl. reflexivity.
      * apply firstFor_snoc. exact Efirst.
    + (* the other keys differ from this one *)
      clear IH Hentry Hnd Hnd'.
      induction Hrest as [|[k1 v1] k2 m keys Hentry _ IH]; constructor.
      * assert (Ek : k1 = k2) by apply Hentry. subst k1.
        apply Hother; [exact Hentry |].
        intros E. apply Hnotin. left. congruence.
      * apply IH. intros Hin. apply Hnotin. right. exact Hin.
  - constructor.
    + apply Hother; [exact Hentry |]. apply jsstr_eqb_neq. exact Ekey.
    + apply IH. exact Hnd'.
Qed.

Lemma entryFor_new occs occ :
  existsb (fun k' => JsString.eqb k' (keyOf occ)) (map keyOf occs) = false ->
  entryFor (occs ++ [occ])
    (keyOf occ, {| output := snd occ; outcomeIds := [fst occ] |}) (keyOf occ).
Proof.
  intros Hno.
  destruct (firstFor_new (keyOf occ) occs occ Hno) as [Hf Hi].
  { unfold hasKey. apply jsstr_eqb_refl. }
  split; [reflexivity |]. simpl. split; [| exact Hf].
  rewrite idsFor_snoc, Hi. unfold hasKey. rewrite jsstr_eqb_refl. reflexivity.
Qed.

Lemma entryFor_other occs occ k v :
  entryFor occs (k, v) k -> k <> keyOf occ ->
  entryFor (occs ++ [occ]) (k, v) k.
Proof.
  intros (_ & Eids & Efirst) Hne. simpl in *.
  split; [reflexivity |]. simpl. split.
  - rewrite idsFor_snoc, Eids. unfold hasKey.
    replace (JsString.eqb (keyOf occ) k) with false;
      [rewrite app_nil_r; reflexivity |].
    symmetry. apply jsstr_eqb_neq. congruence.
  - apply firstFor_snoc. exact Efirst.
Qed.

Lemma entries_keys occs (m : OutputsMap) (keys : list jsstr) :
  Forall2 (entryFor occs) m keys -> map fst m = keys.
Proof.
  induction 1 as [|kv k m keys (Ek & _) _ IH]; simpl; [| rewrite Ek, IH];
    reflexivity.
Qed.

Lemma addOutput_entries occs occ (m : OutputsMap) :
  Forall2 (entryFor occs) m (firstSeen (map keyOf occs)) ->
  Forall2 (entryFor (occs ++ [occ])) (addOutput (fst occ) m (snd occ))
          (firstSeen (map keyOf (occs ++ [occ]))).
Proof.
  intros H. unfold addOutput. fold (keyOf occ).
  rewrite map_app. change (map keyOf [occ]) with [keyOf occ].
  rewrite firstSeen_snoc.
  rewrite map_has_keys, (entries_keys _ _ _ H), existsb_firstSeen.
  destruct (existsb (fun k' => JsString.eqb k' (keyOf occ)) (map keyOf occs))
    eqn:Ehas.
  - apply map_push_entries; [apply firstSeen_NoDup | exact H].
  - unfold map_set. apply Forall2_app.
    + assert (Hnotin : ~ In (keyOf occ) (firstSeen (map keyOf occs))).
      { rewrite firstSeen_In. intros Hin.
        rewrite <- not_true_iff_false in Ehas. apply Ehas.
        apply existsb_exists. exists (keyOf occ).
        split; [exact Hin | apply jsstr_eqb_refl]. }
      revert Hnotin. generalize (firstSeen (map keyOf occs)) as keys, H.
      clear H. intros keys H.
      induction H as [|[k' v] k m keys Hentry _ IH]; intros Hnotin;
        constructor.
      * assert (Ek : k' = k) by apply Hentry. subst k'.
        apply entryFor_other; [exact Hentry |].
        intros E. apply Hnotin. left. exact E.
      * apply IH. intros Hin. apply Hnotin. right. exact Hin.
    + constructor; [| constructor]. apply entryFor_new. exact Ehas.
Qed.

Lemma fold_addOccurrence_entries occs' : forall occs m,
  Forall2 (entryFor occs) m (firstSeen (map keyOf occs)) ->
  Forall2 (entryFor (occs ++ occs')) (fold_left addOccurrence occs' m)
          (firstSeen (map keyOf (occs ++ occs'))).
Proof.
  induction occs' as [|occ occs' IH]; intros occs m H; simpl.
  - rewrite app_nil_r. exact H.
  - replace (occs ++ occ :: occs') with ((occs ++ [occ]) ++ occs')
      by (rewrite <- app_assoc; reflexivity).
    apply IH. apply addOutput_entries. exact H.
Qed.

Lemma fold_addOutcome_occurrences outcomes : forall m,
  fold_left addOutcome outcomes m
  = fold_left addOccurrence (occurrences outcomes) m.
Proof.
  induction outcomes as [|oc ocs IH]; intros m; simpl; [reflexivity |].
  rewrite fold_left_app, IH. f_equal.
  unfold addOutcome. generalize (arrayOf (outcome_outputs oc)) as os, m.
  induction os as [|o os IHo]; intros m0; simpl; auto.
Qed.

Lemma outputsMapOf_entries outcomes :
  Forall2 (entryFor (occurrences outcomes)) (outputsMapOf outcomes)
          (firstSeen (map keyOf (occurrences outcomes))).
Proof.
  unfold outputsMapOf. rewrite fold_addOutcome_occurrences.
  apply (fold_addOccurrence_entries (occurrences outcomes) [] []).
  constructor.
Qed.

Lemma firstFor_key k occs o :
  firstFor k occs = Some o ->
  statementKey (stringOf (output_statement o)) = k.
Proof.
  unfold firstFor. destruct (find (hasKey k) occs) as [occ |] eqn:E;
    [| discriminate].
  simpl. intros H. injection H as <-.
  apply find_some in E. destruct E as [_ E]. apply jsstr_eqb_eq in E. exact E.
Qed.

(** The part of C1 that holds: on every snapshot the de-duplication
    returns one unique output per distinct key, in the order in which the
    keys are first met, each standing for its key. *)
Theorem unique_outputs_first_seen (data : Data) :
  shaped data = true ->
  exists outcomes uniqueOutputs keys,
    data_outcomes data = Some outcomes
    /\ collectUniqueOutputs data emptyDom = Ok (uniqueOutputs, emptyDom)
    /\ keys = firstSeen (map keyOf (occurrences outcomes))
    /\ NoDup keys
    /\ (forall k, In k keys <-> In k (map keyOf (occurrences outcomes)))
    /\ Forall2 (standsFor (occurrences outcomes)) uniqueOutputs keys.
Proof.
  intros Hs.
  destruct (shaped_parts data Hs) as (impact & st & outcomes & _ & _ & Eo & Ho).
  exists outcomes, (uniqueOutputsOf outcomes),
    (firstSeen (map keyOf (occurrences outcomes))).
  split; [exact Eo |].
  split; [apply collectUniqueOutputs_run; assumption |].
  split; [reflexivity |].
  split; [apply firstSeen_NoDup |].
  split; [intros k; apply firstSeen_In |].
  unfold uniqueOutputsOf.
  generalize (outputsMapOf_entries outcomes).
  generalize (firstSeen (map keyOf (occurrences outcomes))) as keys.
  generalize (outputsMapOf outcomes) as m.
  induction 1 as [|[k' v] k m keys (Ek & Eids & Efirst) _ IH]; simpl;
    constructor; auto.
  simpl in *. subst k'. split; [| split]; auto.
  eapply firstFor_key. exact Efirst.
Qed.

(** When no outcome lists a key twice, an id is pushed once at most. *)
Lemma idsFor_NoDup (k : jsstr) (occs : list Occurrence) :
  NoDup (map (fun occ => (keyOf occ, fst occ)) occs) ->
  NoDup (idsFor k occs).
Proof.
  unfold idsFor. induction occs as [|a occs IH]; simpl; intros H.
  - constructor.
  - inversion H as [|? ? Hnotin Hnd]; subst.
    destruct (hasKey k a) eqn:Ea; simpl; [| auto].
    constructor; [| auto].
    intros Hin. apply in_map_iff in Hin. destruct Hin as (b & Eb & Hb).
    apply filter_In in Hb. destruct Hb as [Hb Ekb].
    apply Hnotin. apply in_map_iff. exists b. split; [| exact Hb].
    unfold hasKey in *. apply jsstr_eqb_eq in Ea, Ekb. congruence.
Qed.

(** ** The connectors of an output node *)

Lemma filter_all {A} (p : A -> bool) (l : list A) (b : bool) :
  (forall a, In a l -> p a = b) ->
  length (filter p l) = if b then length l else 0.
Proof.
  induction l as [|a l IH]; simpl; intros H; [destruct b; reflexivity |].
  rewrite (H a) by (left; reflexivity).
  destruct b; simpl; rewrite IH; auto.
Qed.

(** Counting, in the connectors of all the outputs, those that a test
    accepts exactly for the output of index [i]. *)
Lemma count_in_rank {A} (f : nat -> A -> list PathEl) (p : PathEl -> bool)
  (i : nat) (l : list A) :
  (forall j a c, In c (f j a) -> p c = (j =? i)) ->
  forall s,
    length (filter p (concat (mapi_from f s l)))
    = if s <=? i
      then match nth_error l (i - s) with
           | Some a => length (f i a)
           | None => 0
           end
      else 0.
Proof.
  intros Hp. induction l as [|a l IH]; intros s; cbn [mapi_from concat].
  - simpl. destruct (s <=? i); [destruct (i - s) |]; reflexivity.
  - rewrite filter_app, length_app, IH.
    rewrite (filter_all p (f s a) (s =? i)) by (intros c Hc; eapply Hp; eauto).
    destruct (Nat.eqb_spec s i) as [-> | Hne].
    + rewrite Nat.leb_refl, Nat.sub_diag. cbn [nth_error].
      destruct (Nat.leb_spec (S i) i); lia.
    + destruct (Nat.leb_spec s i) as [Hle | Hgt].
      * destruct (Nat.leb_spec (S s) i); [| lia].
        replace (i - s) with (S (i - S s)) by lia. reflexivity.
      * destruct (Nat.leb_spec (S s) i); [lia | reflexivity].
Qed.

Lemma connectionsOf_length anchors x y isShared ids :
  Forall (fun id => In id (map fst anchors)) ids ->
  length (connectionsOf anchors x y isShared ids) = length ids.
Proof.
  unfold connectionsOf. induction 1 as [|id ids Hid _ IH]; simpl; auto.
  rewrite length_app, IH.
  match goal with
  | |- context [find ?p anchors] => destruct (find p anchors) eqn:E
  end; [reflexivity |].
  exfalso. apply in_map_iff in Hid. destruct Hid as (a & Ea & Hin).
  apply (find_none _ _ E) in Hin. rewrite Ea, jsstr_eqb_refl in Hin.
  discriminate.
Qed.

Lemma connectionsOf_ends anchors x y isShared ids c :
  In c (connectionsOf anchors x y isShared ids) ->
  p_x2 c = (x + config.itemWidth / 2)%Q /\ p_y2 c = y
  /\ connectorShared c = isShared.
Proof.
  unfold connectionsOf. rewrite in_flat_map. intros (id & _ & Hin).
  match type of Hin with
  | context [find ?p anchors] => destruct (find p anchors)
  end; simpl in Hin; [| tauto].
  destruct Hin as [<- | []]. unfold createConnection, connectorShared. simpl.
  destruct isShared; auto.
Qed.

Lemma rankX_injective (spacing : Q) (i j : nat) :
  (0 < spacing)%Q ->
  (rankX spacing j + config.itemWidth / 2
   == rankX spacing i + config.itemWidth / 2)%Q ->
  j = i.
Proof.
  intros Hsp H. unfold rankX in H.
  assert (E : (spacing * ofLength (j + 1) == spacing * ofLength (i + 1))%Q)
    by lra.
  assert (E2 : (ofLength (j + 1) == ofLength (i + 1))%Q).
  { apply (Qmult_inj_l _ _ spacing); [lra | exact E]. }
  unfold ofLength in E2. rewrite inject_Z_injective in E2. lia.
Qed.

Lemma anchors_ids spacing outcomes :
  map fst (mapi_from (anchorOf spacing) 0 outcomes) = map outcome_id outcomes.
Proof.
  generalize 0. induction outcomes as [|oc ocs IH]; intros s; simpl;
    [| rewrite IH]; reflexivity.
Qed.

Lemma occurrences_ids outcomes :
  incl (map fst (occurrences outcomes)) (map outcome_id outcomes).
Proof.
  intros id Hin. apply in_map_iff in Hin. destruct Hin as ([id' o] & E & Hin).
  simpl in E. subst id'. unfold occurrences in Hin. apply in_flat_map in Hin.
  destruct Hin as (oc & Hoc & Hin). apply in_map_iff in Hin.
  destruct Hin as (o' & E & _). injection E as <- _.
  apply in_map. exact Hoc.
Qed.

Lemma uniqueOutputs_ids outcomes outputData :
  In outputData (uniqueOutputsOf outcomes) ->
  Forall (fun id => In id (map outcome_id outcomes)) (outcomeIds outputData).
Proof.
  intros Hin. unfold uniqueOutputsOf in Hin. apply in_map_iff in Hin.
  destruct Hin as ([k v] & E & Hin). simpl in E. subst v.
  pose proof (outputsMapOf_entries outcomes) as H.
  revert Hin. generalize (firstSeen (map keyOf (occurrences outcomes))) as keys, H.
  clear H. intros keys H. induction H as [|kv k' m keys' (_ & Eids & _) _ IH];
    simpl; [tauto |].
  intros [-> | Hin]; [| auto]. simpl in Eids. rewrite Eids.
  apply Forall_forall. intros id Hid. apply occurrences_ids.
  unfold idsFor in Hid. apply in_map_iff in Hid.
  destruct Hid as (occ & <- & Hocc). apply filter_In in Hocc.
  apply in_map. apply Hocc.
Qed.

Lemma In_mapi_from {A B} (f : nat -> A -> B) (l : list A) (b : B) :
  In b (mapi_from f 0 l) -> exists j a, nth_error l j = Some a /\ b = f j a.
Proof.
  intros Hin. apply In_nth_error in Hin. destruct Hin as [j Hj].
  exists j. apply mapi_from_nth_inv. exact Hj.
Qed.

Lemma targets_output_connection anchors spacing i j outputData outputData' c :
  (0 < spacing)%Q ->
  In c (outputConnectionsOf anchors spacing j outputData) ->
  targets c (outputGroupOf spacing i outputData') = (j =? i).
Proof.
  intros Hsp Hin. apply connectionsOf_ends in Hin.
  destruct Hin as (Hx & Hy & _).
  unfold targets, outputGroupOf, nodeGroup. cbn [g_rect rect_x rect_y rect_width].
  rewrite Hx, Hy, Qeq_bool_refl, andb_true_r.
  destruct (Nat.eqb_spec j i) as [-> | Hne].
  - apply Qeq_bool_refl.
  - destruct (Qeq_bool _ _) eqn:E; [| reflexivity].
    exfalso. apply Hne. apply Qeq_bool_eq in E.
    eapply rankX_injective; eassumption.
Qed.

Lemma targets_impact_connection totalWidth spacing spacing' i j outcome outputData :
  targets (impactConnectionOf totalWidth spacing j outcome)
          (outputGroupOf spacing' i outputData) = false.
Proof.
  unfold targets, impactConnectionOf, outputGroupOf, nodeGroup, createConnection.
  cbn [g_rect rect_x rect_y rect_width p_x2 p_y2].
  replace (Qeq_bool outcomesY outputsY) with false by reflexivity.
  apply andb_false_r.
Qed.

Lemma drawnShared_output spacing i outputData :
  drawnShared (outputGroupOf spacing i outputData)
  = (1 <? length (outcomeIds outputData)).
Proof.
  unfold drawnShared, outputGroupOf, nodeGroup. cbn [g_rect rect_stroke].
  destruct (1 <? length (outcomeIds outputData)); reflexivity.
Qed.

(** What holds of C2 on the code: the node of every unique output is drawn
    as shared exactly when its [outcomeIds] has more than one entry, and the
    connectors that target it are as many as the entries of its
    [outcomeIds], each drawn as shared exactly when the node is. *)
Theorem connectors_per_output (data : Data) :
  shaped data = true ->
  exists svg outcomes uniqueOutputs,
    generateSVGVisualization data = Ok svg
    /\ data_outcomes data = Some outcomes
    /\ collectUniqueOutputs data emptyDom = Ok (uniqueOutputs, emptyDom)
    /\ forall i outputData,
         nth_error uniqueOutputs i = Some outputData ->
         exists g,
           nth_error (nodes svg) (1 + length outcomes + i) = Some g
           /\ Some (rect_title (g_rect g))
              = output_statement (output outputData)
           /\ drawnShared g = (1 <? length (outcomeIds outputData))
           /\ length (filter (fun p => targets p g) (connectors svg))
              = length (outcomeIds outputData)
           /\ Forall (fun p => connectorShared p = drawnShared g)
                     (filter (fun p => targets p g) (connectors svg)).
Proof.
  intros Hs. destruct (generate_scene data Hs) as (svg & E & _ & _ & Hc).
  destruct (shaped_parts data Hs) as (impact & st & outcomes & Ei & Est & Eo & Ho).
  exists svg, outcomes, (uniqueOutputsOf outcomes).
  split; [exact E |]. split; [exact Eo |].
  split; [apply collectUniqueOutputs_run; assumption |].
  intros i od Hi.
  rewrite nodes_contents, connectors_contents, Hc, groupsIn_scene, pathsIn_scene.
  unfold outcomeGroupsOf, outputGroupsOf, outputConnectionsAll,
    impactConnectionsOf, layoutOf.
  rewrite Eo. cbn [arrayOf lay_outcomes lay_uniqueOutputs lay_totalWidth
                   lay_outcomeSpacing lay_outputSpacing lay_anchors].
  set (W := totalWidthOf (length outcomes) (length (uniqueOutputsOf outcomes))).
  set (sp := (W / ofLength (length (uniqueOutputsOf outcomes) + 1))%Q).
  set (sp' := (W / ofLength (length outcomes + 1))%Q).
  assert (Hsp : (0 < sp)%Q).
  { apply Qlt_trans with (y := 200%Q); [reflexivity |].
    apply spacing_wide. unfold maxItemsPerRow. lia. }
  exists (outputGroupOf sp i od).
  split; [| split; [| split; [| split]]].
  - change (1 + length outcomes + i) with (S (length outcomes + i)).
    cbn [nth_error].
    rewrite nth_error_app2 by (rewrite mapi_from_length; lia).
    rewrite mapi_from_length.
    replace (length outcomes + i - length outcomes) with i by lia.
    rewrite mapi_from_nth, Hi. reflexivity.
  - pose proof (uniqueOutputs_shaped outcomes Ho) as Hu.
    rewrite Forall_forall in Hu. specialize (Hu od (nth_error_In _ _ Hi)).
    destruct (shapedOutput_parts _ Hu) as (s & ins & Es & _).
    unfold outputGroupOf, nodeGroup. cbn [g_rect rect_title].
    rewrite Es. reflexivity.
  - apply drawnShared_output.
  - rewrite filter_app, length_app, filter_rev, length_rev.
    rewrite (count_in_rank _ (fun p => targets p (outputGroupOf sp i od)) i).
    + cbn [Nat.leb]. rewrite Nat.sub_0_r, Hi.
      rewrite (filter_all _ _ false).
      * rewrite Nat.add_0_r. unfold outputConnectionsOf.
        apply connectionsOf_length. rewrite anchors_ids.
        apply uniqueOutputs_ids. eapply nth_error_In. exact Hi.
      * intros c Hin. apply In_mapi_from in Hin.
        destruct Hin as (j & oc & _ & ->).
        apply targets_impact_connection.
    + intros j a c Hin. eapply targets_output_connection; eassumption.
  - apply Forall_forall. intros c Hin. apply filter_In in Hin.
    destruct Hin as [Hin Ht]. rewrite drawnShared_output.
    apply in_app_or in Hin. destruct Hin as [Hin | Hin].
    + apply in_rev, in_concat in Hin. destruct Hin as (cs & Hcs & Hin).
      apply In_mapi_from in Hcs. destruct Hcs as (j & od' & Hj' & ->).
      pose proof (targets_output_connection _ sp i j od' od c Hsp Hin) as Hj.
      rewrite Ht in Hj. symmetry in Hj. apply Nat.eqb_eq in Hj. subst j.
      assert (Eod : od' = od) by congruence.
      subst od'. apply connectionsOf_ends in Hin. tauto.
    + apply In_mapi_from in Hin. destruct Hin as (j & oc & _ & ->).
      rewrite targets_impact_connection in Ht. discriminate.
Qed.


(** * Further properties *)

(** ** The text fitter: short, blank and cut texts *)

Lemma split_nonempty (sep : N) (s : jsstr) : split sep s <> [].
Proof.
  induction s as [|c s IH]; simpl; [discriminate |].
  destruct (N.eqb c sep); [discriminate |].
  destruct (split sep s); discriminate.
Qed.

(** Joining what [split] returns gives the string back. *)
Lemma join_split (sep : N) (s : jsstr) : join sep (split sep s) = s.
Proof.
  induction s as [|c s IH]; [reflexivity |].
  cbn [split]. destruct (N.eqb_spec c sep) as [-> | Hne].
  - pose proof (split_nonempty sep s) as Hs.
    destruct (split sep s) as [|w ws]; [congruence |].
    cbn [join app]. cbn [join] in IH. rewrite IH. reflexivity.
  - destruct (split sep s) as [|w ws] eqn:E; [destruct (split_nonempty _ _ E) |].
    destruct ws as [|w' ws]; cbn [join] in *; rewrite <- IH; reflexivity.
Qed.

Lemma join_cons (sep : N) (w : jsstr) (ws : list jsstr) :
  ws <> [] -> join sep (w :: ws) = w ++ sep :: join sep ws.
Proof. destruct ws; [congruence | reflexivity]. Qed.

Lemma join_cons_length (sep : N) (w : jsstr) (ws : list jsstr) :
  length w <= length (join sep (w :: ws)).
Proof.
  destruct ws; cbn [join]; [lia |]. rewrite length_app. lia.
Qed.

Lemma join_absorb (current w : jsstr) (ws : list jsstr) :
  join space ((current ++ [space] ++ w) :: ws)
  = join space (current :: w :: ws).
Proof.
  destruct ws as [|w' ws]; cbn [join app]; [reflexivity |].
  rewrite <- app_assoc. reflexivity.
Qed.

(** Words that fit on one line together stay on it. *)
Lemma wrap_fits (ws : list jsstr) : forall lines current,
  current <> [] ->
  length (join space (current :: ws)) <= maxCharsPerLine ->
  fold_left wrapWord ws (lines, current)
  = (lines, join space (current :: ws)).
Proof.
  induction ws as [|w ws IH]; intros lines current Hc Hlen; [reflexivity |].
  cbn [fold_left]. unfold wrapWord at 2.
  assert (Hw : length (current ++ w) <= maxCharsPerLine).
  { rewrite join_cons in Hlen by discriminate.
    pose proof (join_cons_length space w ws) as Hj.
    rewrite length_app in *. cbn [length] in Hlen. lia. }
  apply Nat.leb_le in Hw. rewrite Hw.
  destruct current as [|c current]; [congruence |]. cbn [truthy].
  rewrite IH.
  - rewrite join_absorb. reflexivity.
  - destruct current; discriminate.
  - rewrite join_absorb. exact Hlen.
Qed.

(** X1: a text of at most 30 characters that is not empty and does not
    start with a space is displayed as it is, on one line. *)
Theorem short_text_verbatim (text : jsstr) :
  text <> [] ->
  hd_error text <> Some space ->
  length text <= maxCharsPerLine ->
  displayLines text = [text].
Proof.
  intros Hne Hhd Hlen.
  assert (Ht : truncatedText text = text).
  { unfold truncatedText. unfold maxCharsPerLine in Hlen.
    destruct (Nat.ltb_spec 60 (length text)); [lia | reflexivity]. }
  assert (Hl : textLines text = [text]).
  { unfold textLines, wrapLines. rewrite Ht.
    pose proof (join_split space text) as Hj.
    destruct text as [|c text]; [congruence |].
    assert (Hc : c <> space) by (intros ->; apply Hhd; reflexivity).
    cbn [split] in *. apply N.eqb_neq in Hc. rewrite Hc in *.
    destruct (split space text) as [|w ws] eqn:E;
      [destruct (split_nonempty _ _ E) |].
    cbn [fold_left]. unfold wrapWord at 2. cbn [app].
    assert (Hw : length (c :: w) <= maxCharsPerLine).
    { apply Nat.le_trans with (m := length (c :: text)); [| exact Hlen].
      rewrite <- Hj. apply join_cons_length. }
    apply Nat.leb_le in Hw. rewrite Hw. cbn [truthy app].
    rewrite wrap_fits; [| discriminate | rewrite Hj; exact Hlen].
    rewrite Hj. reflexivity. }
  unfold displayLines. rewrite Hl. unfold shownLine. simpl.
  rewrite app_nil_r. reflexivity.
Qed.

Lemma short_text_verbatim_witness :
  displayLines (lit "Shared Thing") = [lit "Shared Thing"].
Proof.
  apply short_text_verbatim.
  - discriminate.
  - discriminate.
  - vm_compute. lia.
Defined.

Lemma wrap_blank (ws : list jsstr) :
  Forall (fun w => w = []) ws ->
  fold_left wrapWord ws ([], []) = ([], []).
Proof.
  induction 1 as [|w ws -> _ IH]; [reflexivity |]. exact IH.
Qed.

Lemma split_blank (text : jsstr) :
  Forall (fun c => c = space) text ->
  Forall (fun w => w = []) (split space text).
Proof.
  induction 1 as [|c text -> _ IH]; cbn [split].
  - constructor; [reflexivity | constructor].
  - rewrite N.eqb_refl. constructor; [reflexivity | exact IH].
Qed.

(** X2: a blank text (nothing but spaces, 60 characters at most, the empty
    statement of a new outcome or output among them) gives no text line. *)
Theorem blank_text_no_line (text : jsstr) :
  Forall (fun c => c = space) text ->
  length text <= maxChars ->
  displayLines text = [].
Proof.
  intros Hb Hlen. unfold displayLines, textLines, wrapLines, truncatedText.
  unfold maxChars in Hlen.
  destruct (Nat.ltb_spec 60 (length text)); [lia |].
  rewrite wrap_blank by (apply split_blank; exact Hb). reflexivity.
Qed.

Lemma blank_text_no_line_witness : displayLines [] = [].
Proof. apply blank_text_no_line; [constructor | vm_compute; lia]. Defined.

Lemma split_no_sep (sep : N) (t : jsstr) :
  ~ In sep t -> split sep t = [t].
Proof.
  induction t as [|c t IH]; intros H; [reflexivity |]. cbn [split].
  destruct (N.eqb_spec c sep) as [-> | _]; [exfalso; apply H; left; reflexivity |].
  rewrite IH; [reflexivity |]. intros Hin. apply H. right. exact Hin.
Qed.

(** A tail without separator lengthens the last word. *)
Lemma split_app_last (sep : N) (s t : jsstr) :
  ~ In sep t ->
  exists ws w, split sep s = ws ++ [w] /\ split sep (s ++ t) = ws ++ [w ++ t].
Proof.
  intros Ht. induction s as [|c s (ws & w & E1 & E2)].
  - exists [], []. split; [reflexivity |]. apply split_no_sep. exact Ht.
  - cbn [split app]. rewrite E1, E2.
    destruct (N.eqb c sep).
    + exists ([] :: ws), w. split; reflexivity.
    + destruct ws as [|w0 ws]; cbn [app].
      * exists [], (c :: w). split; reflexivity.
      * exists ((c :: w0) :: ws), w. split; reflexivity.
Qed.

(** The last word, when it is not empty, ends the last line. *)
Lemma wrapLines_last (ws : list jsstr) (w : jsstr) :
  w <> [] ->
  exists ls body, wrapLines (ws ++ [w]) = ls ++ [body ++ w].
Proof.
  intros Hw. unfold wrapLines. rewrite fold_left_app. cbn [fold_left].
  destruct (fold_left wrapWord ws ([], [])) as [lines current].
  unfold wrapWord.
  destruct (length (current ++ w) <=? maxCharsPerLine).
  - exists lines, (current ++ (if truthy current then [space] else [])).
    rewrite <- app_assoc.
    destruct current, w; try congruence; reflexivity.
  - exists (if truthy current then lines ++ [current] else lines), [].
    destruct w; [congruence | reflexivity].
Qed.

Lemma shown_all (lines : list jsstr) :
  length lines <= maxLines ->
  mapi_from (shownLine lines) 0 (firstn maxLines lines) = lines.
Proof.
  intros H. rewrite firstn_all2 by exact H. unfold shownLine.
  destruct (Nat.ltb_spec maxLines (length lines)) as [Hlt | _]; [lia |].
  assert (Hall : forall (l : list jsstr) i,
             mapi_from (fun j line =>
                          line ++ (if (j =? maxLines - 1) && false
                                   then lit "..." else [])) i l = l).
  { induction l as [|a l IH]; intros i; cbn [mapi_from]; [reflexivity |].
    rewrite andb_false_r, app_nil_r, IH. reflexivity. }
  apply Hall.
Qed.

(** X3: whenever the fitter drops text, by the cut at 60 characters or by
    keeping two lines only, the last line displayed ends with three full
    stops. *)
Theorem dropped_text_is_marked (text : jsstr) :
  maxChars < length text \/ maxLines < length (textLines text) ->
  exists shown body, displayLines text = shown ++ [body ++ lit "..."].
Proof.
  intros H. unfold displayLines.
  destruct (Nat.le_gt_cases (length (textLines text)) maxLines) as [Hle | Hgt].
  - destruct H as [H | H]; [| lia]. rewrite shown_all by exact Hle.
    unfold textLines, truncatedText in *. unfold maxChars in H.
    destruct (Nat.ltb_spec 60 (length text)); [| lia].
    destruct (split_app_last space (firstn 57 text) (lit "..."))
      as (ws & w & _ & E).
    { vm_compute. intuition discriminate. }
    rewrite E.
    destruct (wrapLines_last ws (w ++ lit "...")) as (ls & body & El).
    { destruct w; discriminate. }
    exists ls, (body ++ w). rewrite <- app_assoc. exact El.
  - destruct (textLines text) as [|l0 [|l1 [|l2 rest]]] eqn:E;
      cbn [length] in Hgt; unfold maxLines in Hgt; try lia.
    exists [shownLine (l0 :: l1 :: l2 :: rest) 0 l0], l1. reflexivity.
Qed.

Lemma dropped_text_is_marked_witness :
  exists shown body,
    displayLines (repeat 97%N 61) = shown ++ [body ++ lit "..."].
Proof.
  apply dropped_text_is_marked. left. vm_compute. lia.
Defined.

Lemma lineWeight_snoc (lines : list jsstr) (l : jsstr) :
  lineWeight (lines ++ [l]) = lineWeight lines + S (length l).
Proof.
  unfold lineWeight. rewrite map_app, list_sum_app. cbn [map list_sum fold_right].
  rewrite Nat.add_0_r. reflexivity.
Qed.

Lemma join_snoc_length (seen : list jsstr) (w : jsstr) :
  length (join space (seen ++ [w]))
  = match seen with
    | [] => length w
    | _ :: _ => length (join space seen) + 1 + length w
    end.
Proof.
  destruct seen as [|a seen]; [reflexivity |].
  rewrite join_snoc by discriminate. rewrite length_app. cbn [length]. lia.
Qed.

Lemma wrapWord_weighed seen st word :
  weighed seen st -> weighed (seen ++ [word]) (wrapWord st word).
Proof.
  destruct st as [lines current]. intros (Hne & Hw & H0). cbn [fst snd] in *.
  unfold weighed. rewrite join_snoc_length.
  split; [| split; [| intros E; destruct seen; discriminate]].
  - unfold wrapWord.
    destruct (length (current ++ word) <=? maxCharsPerLine); cbn [fst]; auto.
    destruct current; cbn [truthy]; auto.
    apply Forall_app. split; auto. constructor; [discriminate | constructor].
  - destruct seen as [|a seen].
    + specialize (H0 eq_refl). injection H0 as -> ->.
      unfold wrapWord. cbn [app length truthy].
      destruct (length word <=? maxCharsPerLine); unfold lineWeight; cbn [fst snd map list_sum fold_right]; lia.
    + unfold wrapWord.
      destruct (length (current ++ word) <=? maxCharsPerLine); cbn [fst snd].
      * rewrite !length_app. destruct (truthy current); cbn [length]; lia.
      * destruct current; cbn [truthy].
        -- cbn [length] in Hw. lia.
        -- rewrite lineWeight_snoc. lia.
Qed.

Lemma fold_wrapWord_weighed ws : forall seen st,
  weighed seen st -> weighed (seen ++ ws) (fold_left wrapWord ws st).
Proof.
  induction ws as [|w ws IH]; intros seen st H; cbn [fold_left].
  - rewrite app_nil_r. exact H.
  - replace (seen ++ w :: ws) with ((seen ++ [w]) ++ ws)
      by (rewrite <- app_assoc; reflexivity).
    apply IH, wrapWord_weighed, H.
Qed.

(** The wrapped lines are not empty, and hold no more characters than the
    text they come from. *)
Lemma wrapLines_weight (text : jsstr) :
  Forall (fun l => l <> []) (wrapLines (split space text))
  /\ lineWeight (wrapLines (split space text)) <= S (length text).
Proof.
  assert (H0 : weighed [] ([], [])).
  { split; [constructor | split; [simpl; lia | reflexivity]]. }
  pose proof (fold_wrapWord_weighed (split space text) [] ([], []) H0) as H.
  unfold weighed in H. cbn [app] in H. rewrite join_split in H.
  unfold wrapLines.
  destruct (fold_left wrapWord (split space text) ([], [])) as [lines current].
  destruct H as (Hne & Hw & _). cbn [fst snd] in *.
  destruct current as [|c current]; cbn [truthy].
  - split; [exact Hne | cbn [length] in Hw; lia].
  - split.
    + apply Forall_app. split; auto. constructor; [discriminate | constructor].
    + rewrite lineWeight_snoc. lia.
Qed.

Lemma truncatedText_length (text : jsstr) :
  length (truncatedText text) <= maxChars.
Proof.
  unfold truncatedText, maxChars.
  destruct (Nat.ltb_spec 60 (length text)); [| lia].
  rewrite length_app, firstn_length_le by lia. reflexivity.
Qed.

Lemma lineWeight_In (lines : list jsstr) (l : jsstr) :
  In l lines -> S (length l) <= lineWeight lines.
Proof.
  induction lines as [|a lines IH]; cbn [In]; [tauto |].
  change (a :: lines) with ([a] ++ lines).
  unfold lineWeight in *. rewrite map_app, list_sum_app.
  cbn [map list_sum fold_right]. rewrite Nat.add_0_r.
  intros [-> | H]; [apply Nat.le_add_r |].
  specialize (IH H). eapply Nat.le_trans; [exact IH | apply Nat.le_add_l].
Qed.

(** X4: no displayed line is longer than [maxChars = 60] characters, the
    three full stops of the mark included, whatever the text. *)
Theorem display_line_within_maxChars (text : jsstr) :
  Forall (fun line => length line <= maxChars) (displayLines text).
Proof.
  unfold displayLines, textLines.
  destruct (wrapLines_weight (truncatedText text)) as [Hne Hw].
  pose proof (truncatedText_length text) as Ht.
  set (lines := wrapLines (split space (truncatedText text))) in *.
  destruct (Nat.le_gt_cases (length lines) maxLines) as [Hle | Hgt].
  - rewrite shown_all by exact Hle. apply Forall_forall. intros l Hl.
    pose proof (lineWeight_In lines l Hl). lia.
  - destruct lines as [|l0 [|l1 [|l2 rest]]] eqn:E;
      cbn [length] in Hgt; unfold maxLines in Hgt; try lia.
    inversion Hne as [|? ? H0 Hne1]; subst.
    inversion Hne1 as [|? ? H1 Hne2]; subst.
    inversion Hne2 as [|? ? H2 _]; subst.
    unfold lineWeight in Hw. cbn [map list_sum fold_right] in Hw.
    assert (1 <= length l0) by (destruct l0; [congruence | cbn; lia]).
    assert (1 <= length l2) by (destruct l2; [congruence | cbn; lia]).
    cbn [firstn mapi_from maxLines]. unfold shownLine, maxLines, maxChars.
    cbn [Nat.eqb Nat.sub Nat.ltb Nat.leb length andb].
    unfold maxChars in Ht.
    constructor; [| constructor; [| constructor]].
    + rewrite app_nil_r. lia.
    + rewrite length_app. change (length (lit "...")) with 3. lia.
Qed.

(** ** The scene: what it holds *)

Lemma list_sum_map_add {A} (f g : A -> nat) (l : list A) :
  list_sum (map (fun a => f a + g a) l)
  = list_sum (map f l) + list_sum (map g l).
Proof.
  induction l as [|a l IH]; [reflexivity |].
  cbn [map]. change (list_sum (?x :: ?r)) with (x + list_sum r).
  rewrite IH. lia.
Qed.

Lemma list_sum_map_ext {A} (f g : A -> nat) (l : list A) :
  (forall a, In a l -> f a = g a) ->
  list_sum (map f l) = list_sum (map g l).
Proof.
  intros H. f_equal. apply map_ext_in. exact H.
Qed.

(** In a list without repetition one entry only is equal to a given one. *)
Lemma indicator_sum (keys : list jsstr) (k0 : jsstr) :
  NoDup keys -> In k0 keys ->
  list_sum (map (fun k => if JsString.eqb k0 k then 1 else 0) keys) = 1.
Proof.
  induction 1 as [|k keys Hnotin Hnd IH]; [intros [] |].
  cbn [map]. change (list_sum (?x :: ?r)) with (x + list_sum r).
  intros [-> | Hin].
  - rewrite jsstr_eqb_refl.
    rewrite (list_sum_map_ext _ (fun _ => 0)).
    + clear. induction keys; [reflexivity | exact IHkeys].
    + intros a Ha. destruct (JsString.eqb k0 a) eqn:E; [| reflexivity].
      apply jsstr_eqb_eq in E. subst a. tauto.
  - rewrite IH by exact Hin.
    replace (JsString.eqb k0 k) with false; [reflexivity |].
    symmetry. apply jsstr_eqb_neq. intros ->. tauto.
Qed.

(** Every output is counted under one key. *)
Lemma idsFor_total (occs : list Occurrence) (keys : list jsstr) :
  NoDup keys ->
  (forall occ, In occ occs -> In (keyOf occ) keys) ->
  list_sum (map (fun k => length (idsFor k occs)) keys) = length occs.
Proof.
  intros Hnd. induction occs as [|a occs IH]; intros Hin.
  - clear. induction keys; [reflexivity | exact IHkeys].
  - rewrite (list_sum_map_ext _
               (fun k => (if JsString.eqb (keyOf a) k then 1 else 0)
                         + length (idsFor k occs))).
    + rewrite list_sum_map_add, indicator_sum, IH; auto.
      * intros occ Hocc. apply Hin. right. exact Hocc.
      * apply Hin. left. reflexivity.
    + intros k _. unfold idsFor, hasKey. cbn [filter].
      destruct (JsString.eqb (keyOf a) k); reflexivity.
Qed.

Lemma uniqueOutputs_ids_total (outcomes : list Outcome) :
  list_sum (map (fun od => length (outcomeIds od)) (uniqueOutputsOf outcomes))
  = length (occurrences outcomes).
Proof.
  rewrite <- (idsFor_total (occurrences outcomes)
                (firstSeen (map keyOf (occurrences outcomes)))).
  - unfold uniqueOutputsOf. rewrite map_map.
    pose proof (outputsMapOf_entries outcomes) as H.
    induction H as [|kv k m keys (_ & Eids & _) _ IH]; [reflexivity |].
    cbn [map]. change (list_sum (?x :: ?r)) with (x + list_sum r).
    rewrite IH, Eids. reflexivity.
  - apply firstSeen_NoDup.
  - intros occ Hocc. apply firstSeen_In. apply in_map. exact Hocc.
Qed.

Lemma concat_mapi_length {A B} (f : nat -> A -> list B) (g : A -> nat)
  (l : list A) :
  (forall i a, In a l -> length (f i a) = g a) ->
  forall s, length (concat (mapi_from f s l)) = list_sum (map g l).
Proof.
  induction l as [|a l IH]; intros H s; [reflexivity |].
  cbn [mapi_from concat map]. change (list_sum (?x :: ?r)) with (x + list_sum r).
  rewrite length_app, IH, H; auto.
  - left. reflexivity.
  - intros i b Hb. apply H. right. exact Hb.
Qed.

(** The nodes and the connectors of the scene, spelt out. *)
Lemma scene_parts (data : Data) :
  shaped data = true ->
  exists svg statement outcomes,
    generateSVGVisualization data = Ok svg
    /\ impactStatementOf data = statement
    /\ data_outcomes data = Some outcomes
    /\ Forall (fun o => shapedOutcome o = true) outcomes
    /\ collectUniqueOutputs data emptyDom
       = Ok (uniqueOutputsOf outcomes, emptyDom)
    /\ map content (svg_children svg) = sceneContents data
    /\ let uniqueOutputs := uniqueOutputsOf outcomes in
       let totalWidth :=
         totalWidthOf (length outcomes) (length uniqueOutputs) in
       let outcomeSpacing := (totalWidth / ofLength (length outcomes + 1))%Q in
       let outputSpacing :=
         (totalWidth / ofLength (length uniqueOutputs + 1))%Q in
       let anchors := mapi_from (anchorOf outcomeSpacing) 0 outcomes in
       svg_width svg = totalWidth
       /\ svg_height svg = totalHeight
       /\ nodes svg
          = impactGroupOf totalWidth statement
            :: mapi_from (outcomeGroupOf outcomeSpacing) 0 outcomes
            ++ mapi_from (outputGroupOf outputSpacing) 0 uniqueOutputs
       /\ connectors svg
          = rev (concat (mapi_from (outputConnectionsOf anchors outputSpacing)
                                   0 uniqueOutputs))
            ++ mapi_from (impactConnectionOf totalWidth outcomeSpacing)
                         0 outcomes.
Proof.
  intros Hs. destruct (generate_scene data Hs) as (svg & E & Ew & Eh & Hc).
  destruct (shaped_parts data Hs) as (impact & st & outcomes & Ei & Est & Eo & Ho).
  exists svg, (impactStatementOf data), outcomes.
  split; [exact E |]. split; [reflexivity |]. split; [exact Eo |].
  split; [exact Ho |].
  split; [apply collectUniqueOutputs_run; assumption |].
  split; [exact Hc |].
  cbv zeta. rewrite Ew, Eh, nodes_contents, connectors_contents, Hc.
  rewrite groupsIn_scene, pathsIn_scene.
  unfold outcomeGroupsOf, outputGroupsOf, impactConnectionsOf,
    outputConnectionsAll, layoutOf.
  rewrite Eo. cbv zeta.
  cbn [arrayOf lay_outcomes lay_uniqueOutputs lay_anchors lay_outputSpacing
       lay_outcomeSpacing lay_totalWidth].
  repeat split; reflexivity.
Qed.

Lemma occurrences_length (outcomes : list Outcome) :
  length (occurrences outcomes)
  = list_sum (map (fun oc => length (arrayOf (outcome_outputs oc))) outcomes).
Proof.
  unfold occurrences. induction outcomes as [|oc ocs IH]; [reflexivity |].
  cbn [flat_map map]. change (list_sum (?x :: ?r)) with (x + list_sum r).
  rewrite length_app, length_map. f_equal. exact IH.
Qed.

Lemma outputConnections_length (anchors : list Anchor) (spacing : Q)
  (outcomes : list Outcome) :
  map fst anchors = map outcome_id outcomes ->
  length (concat (mapi_from (outputConnectionsOf anchors spacing) 0
                            (uniqueOutputsOf outcomes)))
  = length (occurrences outcomes).
Proof.
  intros Ha.
  rewrite (concat_mapi_length _ (fun od => length (outcomeIds od))).
  - apply uniqueOutputs_ids_total.
  - intros i od Hod. unfold outputConnectionsOf. apply connectionsOf_length.
    rewrite Ha. apply uniqueOutputs_ids. exact Hod.
Qed.

(** X5: the scene of a snapshot with [n] outcomes and [m] unique outputs
    holds [1 + n + m] nodes, and one connector per outcome and per output of
    the snapshot, the ids kept by the unique outputs being as many as the
    outputs; the [svg] has three children besides these nodes and
    connectors, the title, which comes first, and the description, which
    states [n] and [m], among them. *)
Theorem scene_inventory (data : Data) :
  shaped data = true ->
  exists svg outcomes uniqueOutputs,
    generateSVGVisualization data = Ok svg
    /\ data_outcomes data = Some outcomes
    /\ collectUniqueOutputs data emptyDom = Ok (uniqueOutputs, emptyDom)
    /\ length (nodes svg) = 1 + length outcomes + length uniqueOutputs
    /\ list_sum (map (fun od => length (outcomeIds od)) uniqueOutputs)
       = list_sum (map (fun oc => length (arrayOf (outcome_outputs oc)))
                       outcomes)
    /\ length (connectors svg)
       = length outcomes
         + list_sum (map (fun oc => length (arrayOf (outcome_outputs oc)))
                         outcomes)
    /\ length (svg_children svg)
       = 3 + length (nodes svg) + length (connectors svg)
    /\ In (Desc (descText (length outcomes) (length uniqueOutputs)))
          (map content (svg_children svg))
    /\ hd_error (map content (svg_children svg)) = Some (Title titleText).
Proof.
  intros Hs.
  destruct (scene_parts data Hs)
    as (svg & st & outcomes & E & _ & Eo & Ho & Eu & Hc & _ & _ & En & Ep).
  exists svg, outcomes, (uniqueOutputsOf outcomes).
  split; [exact E |]. split; [exact Eo |]. split; [exact Eu |].
  assert (Hn : length (nodes svg)
               = 1 + length outcomes + length (uniqueOutputsOf outcomes)).
  { rewrite En. cbn [length]. rewrite length_app, !mapi_from_length. lia. }
  assert (Hp : length (connectors svg)
               = length outcomes + length (occurrences outcomes)).
  { rewrite Ep, length_app, length_rev, mapi_from_length.
    rewrite outputConnections_length by apply anchors_ids. lia. }
  split; [exact Hn |].
  split; [rewrite uniqueOutputs_ids_total; apply occurrences_length |].
  split; [rewrite Hp, occurrences_length; reflexivity |].
  split; [| split].
  - rewrite <- (length_map content), nodes_contents, connectors_contents, Hc.
    rewrite groupsIn_scene, pathsIn_scene.
    unfold sceneContents. cbv zeta.
    repeat (rewrite length_app || rewrite length_map || cbn [length]). lia.
  - rewrite Hc. unfold sceneContents. cbv zeta. right. apply in_or_app. right.
    left. unfold layoutOf. rewrite Eo. reflexivity.
  - rewrite Hc. reflexivity.
Qed.

Lemma scene_inventory_witness :
  exists svg outcomes uniqueOutputs,
    generateSVGVisualization scenario = Ok svg
    /\ data_outcomes scenario = Some outcomes
    /\ collectUniqueOutputs scenario emptyDom = Ok (uniqueOutputs, emptyDom)
    /\ length (nodes svg) = 1 + length outcomes + length uniqueOutputs.
Proof.
  destruct (scene_inventory scenario eq_refl)
    as (svg & outcomes & us & H1 & H2 & H3 & H4 & _).
  exists svg, outcomes, us. auto.
Defined.

(** ** The scene: where things are *)

(** Halves are written as products, for linear arithmetic. *)
Ltac halves := unfold Qdiv in *; change (/ 2)%Q with (1 # 2)%Q in *.

Lemma rank_box_inside (n m k i : nat) :
  k <= maxItemsPerRow n m -> i < k ->
  (0 <= rankX (totalWidthOf n m / ofLength (k + 1)) i
   /\ rankX (totalWidthOf n m / ofLength (k + 1)) i + 200
      <= totalWidthOf n m)%Q.
Proof.
  intros Hk Hi. pose proof (spacing_wide n m k Hk) as Hsp.
  pose proof (ofLength_nonneg k) as Hk0.
  pose proof (ofLength_succ k) as Hks.
  assert (HW : (totalWidthOf n m / ofLength (k + 1) * ofLength (k + 1)
                == totalWidthOf n m)%Q).
  { rewrite Qmult_comm. apply Qmult_div_r. rewrite Hks. lra. }
  assert (Hle : (ofLength (i + 1) + 1 <= ofLength (k + 1))%Q).
  { rewrite <- ofLength_succ. apply ofLength_le. lia. }
  pose proof (ofLength_nonneg i) as Hi0.
  pose proof (ofLength_succ i) as His.
  unfold rankX, config.itemWidth.
  set (sp := (totalWidthOf n m / ofLength (k + 1))%Q) in *.
  assert (A1 : (0 <= sp * ofLength i)%Q) by (apply Qmult_le_0_compat; lra).
  assert (A2 : (sp * ofLength (i + 1) == sp * ofLength i + sp)%Q)
    by (rewrite His; ring).
  assert (A3 : (0 <= sp * (ofLength (k + 1) - ofLength (i + 1) - 1))%Q)
    by (apply Qmult_le_0_compat; lra).
  assert (A4 : (sp * (ofLength (k + 1) - ofLength (i + 1) - 1)
                == totalWidthOf n m - sp * ofLength (i + 1) - sp)%Q)
    by (rewrite <- HW; ring).
  clearbody sp. halves. split; lra.
Qed.

Lemma maxItemsPerRow_bounds (n m : nat) :
  n <= maxItemsPerRow n m /\ m <= maxItemsPerRow n m.
Proof. unfold maxItemsPerRow. lia. Qed.

Lemma nodeGroup_textInside (x y width : Q) (text color label : jsstr)
  (indicatorCount : nat) (isShared : bool) :
  textInside (nodeGroup x y width config.itemHeight text color label
                        indicatorCount isShared).
Proof.
  unfold textInside, nodeGroup, config.itemHeight.
  cbn [g_rect g_label g_lines rect_x rect_y rect_width rect_height].
  constructor.
  - cbn [text_x text_y]. split; [reflexivity | lra].
  - apply Forall_forall. intros t Ht.
    apply In_mapi_from in Ht. destruct Ht as (j & line & Hj & ->).
    cbn [text_x text_y]. split; [reflexivity |].
    assert (Hlt : j < maxLines).
    { apply Nat.lt_le_trans with (length (displayLines text)).
      - apply nth_error_Some. rewrite Hj. discriminate.
      - apply displayLines_length. }
    unfold maxLines in Hlt.
    assert (Hq : (0 <= inject_Z (Z.of_nat j) <= 1)%Q).
    { split.
      - apply (ofLength_nonneg j).
      - apply (ofLength_le j 1). lia. }
    change (inject_Z (Z.of_nat 1)) with 1%Q in Hq. lra.
Qed.

(** X6: every node of the scene has its box within the canvas, whose size is
    that of the [svg]; its label and its lines are centred on the box, with
    their base lines between its top and its bottom. *)
Theorem nodes_inside_canvas (data : Data) :
  shaped data = true ->
  exists svg,
    generateSVGVisualization data = Ok svg
    /\ Forall (fun g => insideCanvas (svg_width svg) (svg_height svg) g
                        /\ textInside g)
              (nodes svg).
Proof.
  intros Hs.
  destruct (scene_parts data Hs)
    as (svg & st & outcomes & E & _ & _ & _ & _ & _ & Ew & Eh & En & _).
  exists svg. split; [exact E |]. rewrite Ew, Eh, En.
  set (n := length outcomes). set (m := length (uniqueOutputsOf outcomes)).
  destruct (maxItemsPerRow_bounds n m) as [Hn Hm].
  assert (HW : (1200 <= totalWidthOf n m)%Q).
  { unfold totalWidthOf. apply Q.le_max_l. }
  constructor; [| apply Forall_app; split; apply Forall_forall; intros g Hg;
                  apply In_mapi_from in Hg; destruct Hg as (j & a & Hj & ->)].
  - split; [| apply nodeGroup_textInside].
    unfold insideCanvas, impactGroupOf, nodeGroup, totalHeight.
    cbn [g_rect rect_x rect_y rect_width rect_height].
    unfold config.itemWidth, config.itemHeight, config.padding,
      config.levelHeight.
    halves. repeat split; lra.
  - split; [| apply nodeGroup_textInside].
    assert (Hlt : j < n) by (apply nth_error_Some; rewrite Hj; discriminate).
    destruct (rank_box_inside n m n j Hn Hlt) as [H0 H1].
    unfold insideCanvas, outcomeGroupOf, nodeGroup, totalHeight, outcomesY.
    cbn [g_rect rect_x rect_y rect_width rect_height].
    unfold config.itemWidth, config.itemHeight, config.padding,
      config.levelHeight.
    unfold rankX, config.itemWidth in H0, H1 |- *.
    halves. repeat split; lra.
  - split; [| apply nodeGroup_textInside].
    assert (Hlt : j < m) by (apply nth_error_Some; rewrite Hj; discriminate).
    destruct (rank_box_inside n m m j Hm Hlt) as [H0 H1].
    unfold insideCanvas, outputGroupOf, nodeGroup, totalHeight, outputsY.
    cbn [g_rect rect_x rect_y rect_width rect_height].
    unfold config.itemWidth, config.itemHeight, config.padding,
      config.levelHeight.
    unfold rankX, config.itemWidth in H0, H1 |- *.
    halves. repeat split; lra.
Qed.

Lemma nodes_inside_canvas_witness :
  exists svg,
    generateSVGVisualization scenario = Ok svg
    /\ Forall (fun g => insideCanvas (svg_width svg) (svg_height svg) g
                        /\ textInside g)
              (nodes svg).
Proof. exact (nodes_inside_canvas scenario eq_refl). Defined.

(** ** The scene: what the connectors join *)

Lemma connectionsOf_In (anchors : list Anchor) (x y : Q) (isShared : bool)
  (ids : list jsstr) (c : PathEl) :
  In c (connectionsOf anchors x y isShared ids) <->
  exists id a,
    In id ids
    /\ find (fun a => JsString.eqb (fst a) id) anchors = Some a
    /\ c = createConnection (fst (snd a)) (snd (snd a))
             (x + config.itemWidth / 2) y config.colors.connection isShared.
Proof.
  unfold connectionsOf. rewrite in_flat_map. split.
  - intros (id & Hid & Hc).
    match type of Hc with
    | context [find ?p anchors] => destruct (find p anchors) as [a |] eqn:Ef
    end; [| destruct Hc].
    destruct Hc as [<- | []]. exists id, a. auto.
  - intros (id & a & Hid & Ef & ->). exists id. split; [exact Hid |].
    match goal with
    | |- context [find ?p anchors] =>
        replace (find p anchors) with (Some a) by (symmetry; exact Ef)
    end.
    left. reflexivity.
Qed.

Lemma anchor_found (spacing : Q) (outcomes : list Outcome) (id : jsstr)
  (a : Anchor) :
  find (fun a => JsString.eqb (fst a) id)
       (mapi_from (anchorOf spacing) 0 outcomes) = Some a ->
  exists j outcome,
    nth_error outcomes j = Some outcome
    /\ outcome_id outcome = id
    /\ a = anchorOf spacing j outcome.
Proof.
  intros Ef. apply find_some in Ef. destruct Ef as [Hin Heq].
  apply In_mapi_from in Hin. destruct Hin as (j & oc & Hj & ->).
  exists j, oc. split; [exact Hj |]. split; [| reflexivity].
  apply jsstr_eqb_eq. exact Heq.
Qed.

Lemma leaves_anchor (spacing : Q) (j : nat) (outcome : Outcome) (x2 y2 : Q)
  (color : jsstr) (isShared : bool) :
  leaves (createConnection (fst (snd (anchorOf spacing j outcome)))
                           (snd (snd (anchorOf spacing j outcome)))
                           x2 y2 color isShared)
         (outcomeGroupOf spacing j outcome) = true.
Proof.
  unfold leaves, createConnection, anchorOf, outcomeGroupOf, nodeGroup.
  cbn [p_x1 p_y1 g_rect rect_x rect_y rect_width rect_height fst snd].
  rewrite !Qeq_bool_refl. reflexivity.
Qed.

Lemma targets_own (anchors : list Anchor) (spacing : Q) (i : nat)
  (outputData : OutputData) (c : PathEl) :
  In c (outputConnectionsOf anchors spacing i outputData) ->
  targets c (outputGroupOf spacing i outputData) = true.
Proof.
  intros Hc. unfold outputConnectionsOf in Hc.
  apply connectionsOf_ends in Hc. destruct Hc as (Ex & Ey & _).
  unfold targets, outputGroupOf, nodeGroup.
  cbn [g_rect rect_x rect_y rect_width]. rewrite Ex, Ey.
  rewrite !Qeq_bool_refl. reflexivity.
Qed.

Lemma outcome_node_at (g0 : Group) (f : nat -> Outcome -> Group)
  (outcomes : list Outcome) (rest : list Group) (j : nat) (outcome : Outcome) :
  nth_error outcomes j = Some outcome ->
  nth_error (g0 :: mapi_from f 0 outcomes ++ rest) (1 + j)
  = Some (f j outcome).
Proof.
  intros Hj. cbn [Nat.add nth_error].
  rewrite nth_error_app1.
  - rewrite mapi_from_nth, Hj. reflexivity.
  - rewrite mapi_from_length. apply nth_error_Some. rewrite Hj. discriminate.
Qed.

Lemma output_node_at (g0 : Group) (rank : list Group) (n : nat)
  (f : nat -> OutputData -> Group) (uniqueOutputs : list OutputData)
  (i : nat) (outputData : OutputData) :
  length rank = n ->
  nth_error uniqueOutputs i = Some outputData ->
  nth_error (g0 :: rank ++ mapi_from f 0 uniqueOutputs) (1 + n + i)
  = Some (f i outputData).
Proof.
  intros <- Hi. change (1 + length rank + i) with (S (length rank + i)).
  cbn [nth_error]. rewrite nth_error_app2 by lia.
  replace (length rank + i - length rank) with i by lia.
  rewrite mapi_from_nth, Hi. reflexivity.
Qed.

Lemma In_concat_mapi {A B} (f : nat -> A -> list B) (l : list A) (b : B) :
  In b (concat (mapi_from f 0 l)) <->
  exists i a, nth_error l i = Some a /\ In b (f i a).
Proof.
  rewrite in_concat. split.
  - intros (bs & Hbs & Hb). apply In_mapi_from in Hbs.
    destruct Hbs as (i & a & Hi & ->). exists i, a. auto.
  - intros (i & a & Hi & Hb). exists (f i a). split; [| exact Hb].
    apply (nth_error_In _ i). rewrite mapi_from_nth, Hi. reflexivity.
Qed.

(** X7: every connector of the scene joins two nodes of consecutive ranks,
    downwards, bending half way.  It either leaves the bottom edge of the
    impact box, solid, for the top centre of an outcome node; or it leaves
    the bottom centre of an outcome node for the top centre of an output
    node, dashed exactly when that node is drawn as shared. *)
Theorem connectors_join_nodes (data : Data) :
  shaped data = true ->
  exists svg outcomes uniqueOutputs impactNode,
    generateSVGVisualization data = Ok svg
    /\ data_outcomes data = Some outcomes
    /\ collectUniqueOutputs data emptyDom = Ok (uniqueOutputs, emptyDom)
    /\ nth_error (nodes svg) 0 = Some impactNode
    /\ Forall
         (fun c =>
            (p_midY c == (p_y1 c + p_y2 c) / 2)%Q
            /\ (p_y1 c < p_y2 c)%Q
            /\ ((exists j gj,
                    j < length outcomes
                    /\ nth_error (nodes svg) (1 + j) = Some gj
                    /\ targets c gj = true
                    /\ connectorShared c = false
                    /\ (p_y1 c == rect_y (g_rect impactNode)
                                  + rect_height (g_rect impactNode))%Q
                    /\ (rect_x (g_rect impactNode) <= p_x1 c
                        <= rect_x (g_rect impactNode)
                           + rect_width (g_rect impactNode))%Q)
                \/ (exists j i gj gi,
                       j < length outcomes
                       /\ i < length uniqueOutputs
                       /\ nth_error (nodes svg) (1 + j) = Some gj
                       /\ nth_error (nodes svg) (1 + length outcomes + i)
                          = Some gi
                       /\ leaves c gj = true
                       /\ targets c gi = true
                       /\ connectorShared c = drawnShared gi)))
         (connectors svg).
Proof.
  intros Hs.
  destruct (scene_parts data Hs)
    as (svg & st & outcomes & E & _ & Eo & _ & Eu & _ & _ & _ & En & Ep).
  exists svg, outcomes, (uniqueOutputsOf outcomes).
  eexists. split; [exact E |]. split; [exact Eo |]. split; [exact Eu |].
  split; [rewrite En; reflexivity |].
  rewrite En, Ep.
  set (n := length outcomes). set (m := length (uniqueOutputsOf outcomes)).
  set (W := totalWidthOf n m).
  set (sp := (W / ofLength (n + 1))%Q). set (sp' := (W / ofLength (m + 1))%Q).
  apply Forall_app. split; apply Forall_forall; intros c Hc.
  - apply In_rev in Hc. apply In_concat_mapi in Hc.
    destruct Hc as (i & od & Hi & Hc).
    pose proof (targets_own _ _ _ _ _ Hc) as Ht.
    pose proof Hc as Hends. unfold outputConnectionsOf in Hends.
    apply connectionsOf_ends in Hends. destruct Hends as (_ & _ & Esh).
    unfold outputConnectionsOf in Hc. apply connectionsOf_In in Hc.
    destruct Hc as (id & a & Hid & Ef & Ec).
    apply anchor_found in Ef. destruct Ef as (j & oc & Hj & _ & ->).
    split; [subst c; reflexivity |].
    split.
    { subst c. unfold createConnection, anchorOf, outcomesY, outputsY.
      cbn [p_y1 p_y2 fst snd].
      unfold config.padding, config.levelHeight, config.itemHeight.
      reflexivity. }
    right. exists j, i, (outcomeGroupOf sp j oc), (outputGroupOf sp' i od).
    split; [apply nth_error_Some; rewrite Hj; discriminate |].
    split; [apply nth_error_Some; rewrite Hi; discriminate |].
    split; [apply outcome_node_at; exact Hj |].
    split; [apply output_node_at; [apply mapi_from_length | exact Hi] |].
    split; [subst c; apply leaves_anchor |].
    split; [exact Ht |].
    rewrite drawnShared_output. exact Esh.
  - apply In_mapi_from in Hc. destruct Hc as (j & oc & Hj & ->).
    split; [reflexivity |].
    split.
    { unfold impactConnectionOf, createConnection, outcomesY.
      cbn [p_y1 p_y2].
      unfold config.padding, config.levelHeight, config.itemHeight.
      reflexivity. }
    left. exists j, (outcomeGroupOf sp j oc).
    split; [apply nth_error_Some; rewrite Hj; discriminate |].
    split; [apply outcome_node_at; exact Hj |].
    split.
    { unfold targets, impactConnectionOf, createConnection, outcomeGroupOf,
        nodeGroup.
      cbn [p_x2 p_y2 g_rect rect_x rect_y rect_width].
      rewrite !Qeq_bool_refl. reflexivity. }
    split; [reflexivity |].
    unfold impactConnectionOf, createConnection, impactGroupOf, nodeGroup.
    cbn [p_x1 p_y1 g_rect rect_x rect_y rect_width rect_height].
    unfold config.padding, config.itemHeight, config.itemWidth.
    halves. split; [| split]; lra.
Qed.

Lemma connectors_join_nodes_witness :
  exists svg,
    generateSVGVisualization scenario = Ok svg
    /\ Forall (fun c => (p_y1 c < p_y2 c)%Q) (connectors svg).
Proof.
  destruct (connectors_join_nodes scenario eq_refl)
    as (svg & outcomes & us & g & E & _ & _ & _ & H).
  exists svg. split; [exact E |].
  eapply Forall_impl; [| exact H]. intros c (_ & Hlt & _). exact Hlt.
Defined.

(** ** The scene: one connector per output owned *)

Lemma count_only_rank {A} (f : nat -> A -> list PathEl) (p : PathEl -> bool)
  (i : nat) (l : list A) :
  (forall j a c, j <> i -> In c (f j a) -> p c = false) ->
  forall s,
    length (filter p (concat (mapi_from f s l)))
    = if s <=? i
      then match nth_error l (i - s) with
           | Some a => length (filter p (f i a))
           | None => 0
           end
      else 0.
Proof.
  intros Hp. induction l as [|a l IH]; intros s; cbn [mapi_from concat].
  - simpl. destruct (s <=? i); [destruct (i - s) |]; reflexivity.
  - rewrite filter_app, length_app, IH.
    destruct (Nat.eqb_spec s i) as [-> | Hne].
    + rewrite Nat.leb_refl, Nat.sub_diag. cbn [nth_error].
      destruct (Nat.leb_spec (S i) i); lia.
    + rewrite (filter_all p (f s a) false)
        by (intros c Hc; eapply Hp; eauto).
      destruct (Nat.leb_spec s i) as [Hle | Hgt].
      * destruct (Nat.leb_spec (S s) i); [| lia].
        replace (i - s) with (S (i - S s)) by lia. reflexivity.
      * destruct (Nat.leb_spec (S s) i); [lia | reflexivity].
Qed.

Lemma leaves_connection (spacing : Q) (j j' : nat) (outcome outcome' : Outcome)
  (x2 y2 : Q) (color : jsstr) (isShared : bool) :
  (0 < spacing)%Q ->
  leaves (createConnection (fst (snd (anchorOf spacing j' outcome')))
                           (snd (snd (anchorOf spacing j' outcome')))
                           x2 y2 color isShared)
         (outcomeGroupOf spacing j outcome) = (j' =? j).
Proof.
  intros Hsp.
  unfold leaves, createConnection, anchorOf, outcomeGroupOf, nodeGroup.
  cbn [p_x1 p_y1 g_rect rect_x rect_y rect_width rect_height fst snd].
  rewrite Qeq_bool_refl, andb_true_r.
  destruct (Nat.eqb_spec j' j) as [-> | Hne].
  - apply Qeq_bool_refl.
  - destruct (Qeq_bool _ _) eqn:E; [| reflexivity].
    exfalso. apply Hne. apply Qeq_bool_eq in E.
    eapply rankX_injective; eassumption.
Qed.

Lemma find_anchor (spacing : Q) (outcomes : list Outcome) (id : jsstr) :
  In id (map outcome_id outcomes) ->
  exists a,
    find (fun a => JsString.eqb (fst a) id)
         (mapi_from (anchorOf spacing) 0 outcomes) = Some a.
Proof.
  intros Hin. rewrite <- (anchors_ids spacing) in Hin.
  apply in_map_iff in Hin. destruct Hin as (a & Ea & Ha).
  match goal with
  | |- context [find ?p ?l] => destruct (find p l) as [b |] eqn:Ef
  end; [exists b; reflexivity |].
  exfalso. pose proof (find_none _ _ Ef a Ha) as Hn. cbn beta in Hn.
  rewrite Ea, jsstr_eqb_refl in Hn. discriminate.
Qed.

Lemma NoDup_ids_index (outcomes : list Outcome) (j j' : nat)
  (outcome outcome' : Outcome) :
  NoDup (map outcome_id outcomes) ->
  nth_error outcomes j = Some outcome ->
  nth_error outcomes j' = Some outcome' ->
  outcome_id outcome' = outcome_id outcome ->
  j' = j.
Proof.
  intros Hnd Hj Hj' E.
  rewrite NoDup_nth_error in Hnd. apply Hnd.
  - rewrite length_map. apply nth_error_Some. rewrite Hj'. discriminate.
  - rewrite !nth_error_map, Hj, Hj'. cbn [option_map]. rewrite E. reflexivity.
Qed.

(** The connectors that leave the box of an outcome, among those of one
    output, are as many as the entries of [ids] that are its id. *)
Lemma leaves_count (spacing x y : Q) (isShared : bool)
  (outcomes : list Outcome) (j : nat) (outcome : Outcome) (ids : list jsstr) :
  (0 < spacing)%Q ->
  NoDup (map outcome_id outcomes) ->
  nth_error outcomes j = Some outcome ->
  Forall (fun id => In id (map outcome_id outcomes)) ids ->
  length (filter (fun c => leaves c (outcomeGroupOf spacing j outcome))
                 (connectionsOf (mapi_from (anchorOf spacing) 0 outcomes)
                                x y isShared ids))
  = length (filter (fun id => JsString.eqb id (outcome_id outcome)) ids).
Proof.
  intros Hsp Hnd Hj. induction 1 as [|id ids Hid _ IH]; [reflexivity |].
  unfold connectionsOf in *. cbn [flat_map filter].
  rewrite filter_app, length_app, IH. clear IH.
  destruct (find_anchor spacing outcomes id Hid) as [a Ef].
  match goal with
  | |- context [find ?p ?l] =>
      replace (find p l) with (Some a) by (symmetry; exact Ef)
  end.
  apply anchor_found in Ef. destruct Ef as (j' & oc' & Hj' & Eid & ->).
  cbn [filter]. rewrite leaves_connection by exact Hsp.
  destruct (Nat.eqb_spec j' j) as [-> | Hne].
  - assert (oc' = outcome) by congruence. subst oc'.
    rewrite <- Eid, jsstr_eqb_refl. reflexivity.
  - replace (JsString.eqb id (outcome_id outcome)) with false; [reflexivity |].
    symmetry. apply jsstr_eqb_neq. intros E. apply Hne.
    eapply NoDup_ids_index; eauto. congruence.
Qed.

Lemma idsFor_count (k id : jsstr) (occs : list Occurrence) :
  length (filter (fun id' => JsString.eqb id' id) (idsFor k occs))
  = length (filter (fun occ => hasKey k occ && JsString.eqb (fst occ) id)
                   occs).
Proof.
  unfold idsFor. induction occs as [|occ occs IH]; [reflexivity |].
  cbn [filter]. destruct (hasKey k occ); cbn [map filter andb];
    [destruct (JsString.eqb (fst occ) id); cbn [length]; rewrite IH |];
    auto.
Qed.

Lemma occurrences_cons (outcome : Outcome) (outcomes : list Outcome) :
  occurrences (outcome :: outcomes)
  = map (fun o => (outcome_id outcome, o)) (arrayOf (outcome_outputs outcome))
    ++ occurrences outcomes.
Proof. reflexivity. Qed.

(** With distinct ids, the outputs counted under the id of an outcome are
    the outputs of that outcome. *)
Lemma owned_count (k : jsstr) (outcomes : list Outcome) :
  NoDup (map outcome_id outcomes) ->
  forall j outcome,
    nth_error outcomes j = Some outcome ->
    length (filter (fun occ => hasKey k occ
                               && JsString.eqb (fst occ) (outcome_id outcome))
                   (occurrences outcomes))
    = length (outputsWithKey outcome k).
Proof.
  induction outcomes as [|oc0 rest IH]; intros Hnd j oc Hj;
    [destruct j; discriminate |].
  cbn [map] in Hnd. inversion Hnd as [|? ? Hnotin Hnd']; subst.
  rewrite occurrences_cons, filter_app, length_app.
  destruct j as [|j]; cbn [nth_error] in Hj.
  - injection Hj as ->.
    match goal with |- _ + ?b = _ => assert (H0 : b = 0) end.
    { rewrite (filter_all _ _ false); [reflexivity |].
      intros occ Hocc.
      replace (JsString.eqb (fst occ) (outcome_id oc)) with false;
        [apply andb_false_r |].
      symmetry. apply jsstr_eqb_neq. intros E. apply Hnotin. rewrite <- E.
      apply occurrences_ids. apply in_map. exact Hocc. }
    rewrite H0, Nat.add_0_r. unfold outputsWithKey.
    generalize (arrayOf (outcome_outputs oc)) as os.
    induction os as [|o os IHo]; [reflexivity |].
    cbn [map filter fst]. rewrite jsstr_eqb_refl, andb_true_r.
    unfold hasKey at 1, keyOf at 1. cbn [snd].
    destruct (JsString.eqb _ k); cbn [length]; rewrite IHo; reflexivity.
  - pose proof (IH Hnd' j oc Hj) as IHj.
    match goal with |- ?a + _ = _ => assert (H0 : a = 0) end.
    { rewrite (filter_all _ _ false); [reflexivity |].
      intros occ Hocc. apply in_map_iff in Hocc.
      destruct Hocc as (o & <- & _). cbn [fst].
      replace (JsString.eqb (outcome_id oc0) (outcome_id oc)) with false;
        [apply andb_false_r |].
      symmetry. apply jsstr_eqb_neq. intros E. apply Hnotin. rewrite E.
      apply in_map. eapply nth_error_In. exact Hj. }
    rewrite H0. exact IHj.
Qed.

Lemma uniqueOutput_ids_key (outcomes : list Outcome) (outputData : OutputData) :
  In outputData (uniqueOutputsOf outcomes) ->
  outcomeIds outputData
  = idsFor (statementKey (stringOf (output_statement (output outputData))))
           (occurrences outcomes).
Proof.
  unfold uniqueOutputsOf. intros Hin.
  apply in_map_iff in Hin. destruct Hin as ([k v] & E & Hin).
  cbn [snd] in E. subst v.
  pose proof (outputsMapOf_entries outcomes) as H. revert Hin.
  induction H as [|kv k' m keys (_ & Eids & Efirst) _ IH]; [intros [] |].
  intros [-> | Hin]; [| auto]. cbn [snd] in Eids, Efirst.
  rewrite (firstFor_key _ _ _ Efirst). exact Eids.
Qed.

(** X8: when the outcomes have distinct ids, the connectors that leave the
    node of an outcome for the node of a unique output are as many as the
    outputs of that outcome whose statement has the key of the text of the
    output node: none when the outcome has no such output, and one per
    copy when it lists the statement more than once. *)
Theorem connectors_follow_ownership (data : Data) :
  shaped data = true ->
  NoDup (map outcome_id (arrayOf (data_outcomes data))) ->
  exists svg outcomes uniqueOutputs,
    generateSVGVisualization data = Ok svg
    /\ data_outcomes data = Some outcomes
    /\ collectUniqueOutputs data emptyDom = Ok (uniqueOutputs, emptyDom)
    /\ forall j i outcome outputData,
         nth_error outcomes j = Some outcome ->
         nth_error uniqueOutputs i = Some outputData ->
         exists gj gi,
           nth_error (nodes svg) (1 + j) = Some gj
           /\ nth_error (nodes svg) (1 + length outcomes + i) = Some gi
           /\ length (filter (fun c => leaves c gj && targets c gi)
                             (connectors svg))
              = length (outputsWithKey outcome
                          (statementKey (rect_title (g_rect gi)))).
Proof.
  intros Hs Hnd.
  destruct (scene_parts data Hs)
    as (svg & st & outcomes & E & _ & Eo & _ & Eu & _ & _ & _ & En & Ep).
  rewrite Eo in Hnd. cbn [arrayOf] in Hnd.
  exists svg, outcomes, (uniqueOutputsOf outcomes).
  split; [exact E |]. split; [exact Eo |]. split; [exact Eu |].
  intros j i oc od Hj Hi. rewrite En, Ep.
  set (n := length outcomes). set (m := length (uniqueOutputsOf outcomes)).
  set (W := totalWidthOf n m).
  set (sp := (W / ofLength (n + 1))%Q). set (sp' := (W / ofLength (m + 1))%Q).
  assert (Hsp : (0 < sp)%Q).
  { apply Qlt_trans with (y := 200%Q); [reflexivity |].
    apply spacing_wide. apply maxItemsPerRow_bounds. }
  assert (Hsp' : (0 < sp')%Q).
  { apply Qlt_trans with (y := 200%Q); [reflexivity |].
    apply spacing_wide. apply maxItemsPerRow_bounds. }
  exists (outcomeGroupOf sp j oc), (outputGroupOf sp' i od).
  split; [apply outcome_node_at; exact Hj |].
  split; [apply output_node_at; [apply mapi_from_length | exact Hi] |].
  rewrite filter_app, length_app, filter_rev, length_rev.
  rewrite (filter_all _ (mapi_from _ 0 outcomes) false).
  2:{ intros c Hc. apply In_mapi_from in Hc. destruct Hc as (j' & oc' & _ & ->).
      rewrite targets_impact_connection. apply andb_false_r. }
  rewrite Nat.add_0_r.
  rewrite (count_only_rank _ _ i).
  2:{ intros i' od' c Hne Hc.
      rewrite (targets_output_connection _ _ _ _ _ _ _ Hsp' Hc).
      replace (i' =? i) with false by (symmetry; apply Nat.eqb_neq; exact Hne).
      apply andb_false_r. }
  cbn [Nat.leb]. rewrite Nat.sub_0_r, Hi.
  rewrite (filter_ext_in _ (fun c => leaves c (outcomeGroupOf sp j oc))).
  2:{ intros c Hc. rewrite (targets_own _ _ _ _ _ Hc). apply andb_true_r. }
  unfold outputConnectionsOf.
  rewrite (leaves_count sp _ _ _ outcomes j oc (outcomeIds od) Hsp Hnd Hj)
    by (apply uniqueOutputs_ids; eapply nth_error_In; exact Hi).
  rewrite (uniqueOutput_ids_key outcomes od) by (eapply nth_error_In; exact Hi).
  rewrite idsFor_count. rewrite (owned_count _ outcomes Hnd j oc Hj).
  reflexivity.
Qed.

Lemma connectors_follow_ownership_witness :
  exists svg,
    generateSVGVisualization scenario = Ok svg
    /\ exists gj gi,
         nth_error (nodes svg) 1 = Some gj
         /\ nth_error (nodes svg) 3 = Some gi
         /\ length (filter (fun c => leaves c gj && targets c gi)
                           (connectors svg)) = 1.
Proof.
  assert (Hnd : NoDup (map outcome_id (arrayOf (data_outcomes scenario)))).
  { vm_compute. repeat constructor; cbn; intuition discriminate. }
  destruct (connectors_follow_ownership scenario eq_refl Hnd)
    as (svg & outcomes & us & E & Eo & Eu & H).
  exists svg. split; [exact E |].
  injection Eo as <-.
  assert (Eus : us = uniqueOutputsOf (arrayOf (data_outcomes scenario))).
  { pose proof (collectUniqueOutputs_run scenario _ emptyDom eq_refl) as R.
    rewrite R in Eu; [injection Eu as <-; reflexivity |].
    repeat constructor. }
  subst us.
  destruct (H 0 0 _ _ eq_refl eq_refl) as (gj & gi & Hj & Hi & Hlen).
  exists gj, gi. split; [exact Hj |]. split; [exact Hi |].
  rewrite Hlen. 
  change (1 + length (arrayOf (data_outcomes scenario)) + 0) with 3 in Hi.
  destruct (scene_parts scenario eq_refl)
    as (svg' & st & outcomes & E' & _ & Eo' & _ & _ & _ & _ & _ & En & _).
  rewrite E in E'. injection E' as <-. injection Eo' as <-.
  rewrite En in Hi. cbn [nth_error app mapi_from] in Hi.
  injection Hi as <-. vm_compute. reflexivity.
Defined.

(** ** The scene: what the nodes show *)

Lemma nodeGroup_shows (x y width height : Q) (text color label : jsstr)
  (indicatorCount : nat) (isShared : bool) :
  shows (nodeGroup x y width height text color label indicatorCount isShared)
        label text indicatorCount.
Proof.
  unfold shows, nodeGroup, indicatorBadge.
  cbn [g_rect g_label g_lines g_badge rect_title textContent].
  split; [reflexivity |]. split; [reflexivity |]. split.
  - assert (H : forall s lines,
               map textContent
                   (mapi_from
                      (fun i line =>
                         {| text_x := (x + width / 2)%Q;
                            text_y := (y + 38 + inject_Z (Z.of_nat i) * 14)%Q;
                            textContent := line |}) s lines) = lines).
    { intros s lines. revert s.
      induction lines as [|l lines IH]; intros s; [reflexivity |].
      cbn [mapi_from map textContent]. rewrite IH. reflexivity. }
    apply H.
  - destruct (0 <? indicatorCount); reflexivity.
Qed.

Lemma filter_none {A} (p : A -> bool) (l : list A) :
  (forall a, In a l -> p a = false) -> filter p l = [].
Proof.
  induction l as [|a l IH]; intros H; [reflexivity |].
  cbn [filter]. rewrite (H a) by (left; reflexivity).
  apply IH. intros b Hb. apply H. right. exact Hb.
Qed.

Lemma filter_mapi_only {A B} (f : nat -> A -> B) (p : B -> bool) (j : nat)
  (l : list A) :
  (forall j' a, p (f j' a) = (j' =? j)) ->
  forall s,
    filter p (mapi_from f s l)
    = if s <=? j
      then match nth_error l (j - s) with
           | Some a => [f j a]
           | None => []
           end
      else [].
Proof.
  intros Hp. induction l as [|a l IH]; intros s; cbn [mapi_from filter].
  - destruct (s <=? j); [destruct (j - s) |]; reflexivity.
  - rewrite Hp, IH. destruct (Nat.eqb_spec s j) as [-> | Hne].
    + rewrite Nat.leb_refl, Nat.sub_diag. cbn [nth_error].
      destruct (Nat.leb_spec (S j) j); [lia | reflexivity].
    + destruct (Nat.leb_spec s j) as [Hle | Hgt].
      * destruct (Nat.leb_spec (S s) j); [| lia].
        replace (j - s) with (S (j - S s)) by lia. reflexivity.
      * destruct (Nat.leb_spec (S s) j); [lia | reflexivity].
Qed.

Lemma targets_impact_outcome (totalWidth spacing : Q) (j j' : nat)
  (outcome outcome' : Outcome) :
  (0 < spacing)%Q ->
  targets (impactConnectionOf totalWidth spacing j' outcome')
          (outcomeGroupOf spacing j outcome) = (j' =? j).
Proof.
  intros Hsp.
  unfold targets, impactConnectionOf, createConnection, outcomeGroupOf,
    nodeGroup.
  cbn [p_x2 p_y2 g_rect rect_x rect_y rect_width].
  rewrite Qeq_bool_refl, andb_true_r.
  destruct (Nat.eqb_spec j' j) as [-> | Hne].
  - apply Qeq_bool_refl.
  - destruct (Qeq_bool _ _) eqn:E; [| reflexivity].
    exfalso. apply Hne. apply Qeq_bool_eq in E.
    eapply rankX_injective; eassumption.
Qed.

(** X9: the node of every outcome shows that outcome, labelled "Outcome",
    never drawn as shared, and is the target of exactly one connector, a
    solid one. *)
Theorem outcome_node_shows_outcome (data : Data) :
  shaped data = true ->
  exists svg outcomes,
    generateSVGVisualization data = Ok svg
    /\ data_outcomes data = Some outcomes
    /\ forall j outcome,
         nth_error outcomes j = Some outcome ->
         exists g c,
           nth_error (nodes svg) (1 + j) = Some g
           /\ Some (rect_title (g_rect g)) = outcome_statement outcome
           /\ shows g (lit "Outcome") (rect_title (g_rect g))
                    (length (arrayOf (outcome_indicators outcome)))
           /\ drawnShared g = false
           /\ filter (fun c => targets c g) (connectors svg) = [c]
           /\ connectorShared c = false.
Proof.
  intros Hs.
  destruct (scene_parts data Hs)
    as (svg & st & outcomes & E & _ & Eo & Ho & _ & _ & _ & _ & En & Ep).
  exists svg, outcomes. split; [exact E |]. split; [exact Eo |].
  intros j oc Hj. rewrite En, Ep.
  set (n := length outcomes). set (m := length (uniqueOutputsOf outcomes)).
  set (W := totalWidthOf n m).
  set (sp := (W / ofLength (n + 1))%Q). set (sp' := (W / ofLength (m + 1))%Q).
  assert (Hsp : (0 < sp)%Q).
  { apply Qlt_trans with (y := 200%Q); [reflexivity |].
    apply spacing_wide. apply maxItemsPerRow_bounds. }
  exists (outcomeGroupOf sp j oc), (impactConnectionOf W sp j oc).
  split; [apply outcome_node_at; exact Hj |].
  split.
  { rewrite Forall_forall in Ho. specialize (Ho oc (nth_error_In _ _ Hj)).
    destruct (shapedOutcome_parts oc Ho) as (s & ins & os & Es & _).
    unfold outcomeGroupOf, nodeGroup. cbn [g_rect rect_title].
    rewrite Es. reflexivity. }
  split; [apply nodeGroup_shows |].
  split; [reflexivity |].
  split; [| reflexivity].
  rewrite filter_app, filter_rev.
  rewrite (filter_none _ (concat _)).
  - cbn [rev app].
    rewrite (filter_mapi_only _ _ j).
    + cbn [Nat.leb]. rewrite Nat.sub_0_r, Hj. reflexivity.
    + intros j' oc'. apply targets_impact_outcome. exact Hsp.
  - intros c Hc. apply In_concat_mapi in Hc. destruct Hc as (i & od & _ & Hc).
    unfold outputConnectionsOf in Hc. apply connectionsOf_ends in Hc.
    destruct Hc as (_ & Ey & _).
    unfold targets, outcomeGroupOf, nodeGroup. cbn [g_rect rect_y].
    rewrite Ey.
    replace (Qeq_bool outputsY outcomesY) with false by reflexivity.
    apply andb_false_r.
Qed.

Lemma outcome_node_shows_outcome_witness :
  exists svg g c,
    generateSVGVisualization scenario = Ok svg
    /\ nth_error (nodes svg) 1 = Some g
    /\ rect_title (g_rect g) = lit "Outcome A"
    /\ filter (fun c => targets c g) (connectors svg) = [c].
Proof.
  destruct (outcome_node_shows_outcome scenario eq_refl)
    as (svg & outcomes & E & Eo & H).
  injection Eo as <-.
  destruct (H 0 scenarioA eq_refl) as (g & c & Hg & Et & _ & _ & Hc & _).
  exists svg, g, c. split; [exact E |]. split; [exact Hg |].
  split; [| exact Hc]. injection Et as ->. reflexivity.
Defined.

(** X10: the node of every unique output shows the first output met with
    its key and the indicators of that output only; it is labelled "Output"
    when one output of the snapshot has that key, and states how many have
    it when several do. *)
Theorem output_node_shows_output (data : Data) :
  shaped data = true ->
  exists svg outcomes uniqueOutputs,
    generateSVGVisualization data = Ok svg
    /\ data_outcomes data = Some outcomes
    /\ collectUniqueOutputs data emptyDom = Ok (uniqueOutputs, emptyDom)
    /\ forall i outputData,
         nth_error uniqueOutputs i = Some outputData ->
         exists g first copies,
           nth_error (nodes svg) (1 + length outcomes + i) = Some g
           /\ filter (hasKey (statementKey (rect_title (g_rect g))))
                     (occurrences outcomes) = first :: copies
           /\ snd first = output outputData
           /\ Some (rect_title (g_rect g)) = output_statement (snd first)
           /\ shows g
                (if 0 <? length copies
                 then lit "Output (shared across "
                      ++ ofNat (1 + length copies) ++ lit " outcomes)"
                 else lit "Output")
                (rect_title (g_rect g))
                (length (arrayOf (output_indicators (snd first)))).
Proof.
  intros Hs.
  destruct (scene_parts data Hs)
    as (svg & st & outcomes & E & _ & Eo & Ho & Eu & _ & _ & _ & En & _).
  exists svg, outcomes, (uniqueOutputsOf outcomes).
  split; [exact E |]. split; [exact Eo |]. split; [exact Eu |].
  intros i od Hi. rewrite En.
  set (sp' := (_ / ofLength (length (uniqueOutputsOf outcomes) + 1))%Q).
  pose proof (nth_error_In _ _ Hi) as Hin.
  pose proof (uniqueOutput_ids_key outcomes od Hin) as Eids.
  assert (Efirst : firstFor
                     (statementKey (stringOf (output_statement (output od))))
                     (occurrences outcomes) = Some (output od)).
  { clear - Hin. unfold uniqueOutputsOf in Hin.
    apply in_map_iff in Hin. destruct Hin as ([k v] & E & Hin).
    cbn [snd] in E. subst v.
    pose proof (outputsMapOf_entries outcomes) as H. revert Hin.
    induction H as [|kv k' m keys (_ & _ & Efirst) _ IH]; [intros [] |].
    intros [-> | Hin]; [| auto]. cbn [snd] in Efirst.
    rewrite (firstFor_key _ _ _ Efirst). exact Efirst. }
  set (k := statementKey (stringOf (output_statement (output od)))) in *.
  unfold firstFor in Efirst.
  destruct (find (hasKey k) (occurrences outcomes)) as [occ |] eqn:Ef;
    [| discriminate].
  cbn [option_map] in Efirst. injection Efirst as Eocc.
  assert (Hf : exists copies,
             filter (hasKey k) (occurrences outcomes) = occ :: copies).
  { clear - Ef. induction (occurrences outcomes) as [|a l IH];
      [discriminate |].
    cbn [find filter] in *. destruct (hasKey k a).
    - injection Ef as ->. eexists. reflexivity.
    - apply IH. exact Ef. }
  destruct Hf as [copies Hf].
  exists (outputGroupOf sp' i od), occ, copies.
  split; [apply output_node_at; [apply mapi_from_length | exact Hi] |].
  assert (Et : rect_title (g_rect (outputGroupOf sp' i od))
               = stringOf (output_statement (output od))) by reflexivity.
  rewrite Et. split; [exact Hf |]. split; [exact Eocc |].
  split.
  { rewrite Eocc.
    pose proof (uniqueOutputs_shaped outcomes Ho) as Hu.
    rewrite Forall_forall in Hu. specialize (Hu od Hin).
    destruct (shapedOutput_parts _ Hu) as (s & ins & Es & _).
    rewrite Es. reflexivity. }
  rewrite Eocc.
  assert (El : length (outcomeIds od) = 1 + length copies).
  { rewrite Eids. unfold idsFor. fold k. rewrite length_map, Hf. reflexivity. }
  destruct (nodeGroup_shows (rankX sp' i) outputsY config.itemWidth
              config.itemHeight (stringOf (output_statement (output od)))
              config.colors.output (outputLabel (outcomeIds od))
              (length (arrayOf (output_indicators (output od))))
              (1 <? length (outcomeIds od))) as (H1 & H2 & H3 & H4).
  split; [exact H1 |]. split; [| split; [exact H3 | exact H4]].
  etransitivity; [exact H2 |].
  unfold outputLabel. rewrite El. destruct (length copies); reflexivity.
Qed.

Lemma output_node_shows_output_witness :
  exists svg g,
    generateSVGVisualization scenario = Ok svg
    /\ nth_error (nodes svg) 3 = Some g
    /\ rect_title (g_rect g) = lit "Shared Thing".
Proof.
  destruct (output_node_shows_output scenario eq_refl)
    as (svg & outcomes & us & E & Eo & Eu & H).
  injection Eo as <-.
  assert (Eus : us = uniqueOutputsOf (arrayOf (data_outcomes scenario))).
  { pose proof (collectUniqueOutputs_run scenario _ emptyDom eq_refl) as R.
    rewrite R in Eu; [injection Eu as <-; reflexivity |].
    repeat constructor. }
  subst us.
  destruct (H 0 _ eq_refl) as (g & first & copies & Hg & _ & E1 & Et & _).
  exists svg, g. split; [exact E |]. split; [exact Hg |].
  rewrite E1 in Et. injection Et as ->. reflexivity.
Defined.

(** ** [TocDataModel]: what the editing methods keep *)

Lemma forallb_find {A} (P p : A -> bool) (l : list A) (a : A) :
  forallb P l = true -> find p l = Some a -> P a = true.
Proof.
  intros Hl Hf. apply find_some in Hf. rewrite forallb_forall in Hl.
  apply Hl. apply Hf.
Qed.

Lemma forallb_assignFirst {A} (P p : A -> bool) (f : A -> A) (l : list A) :
  (forall a, P a = true -> P (f a) = true) ->
  forallb P l = true ->
  forallb P (TocDataModel.assignFirst p f l) = true.
Proof.
  intros Hf. induction l as [|a l IH]; [reflexivity |].
  cbn [forallb TocDataModel.assignFirst]. intros H.
  apply andb_true_iff in H. destruct H as [Ha Hl].
  destruct (p a); cbn [forallb]; apply andb_true_iff; auto.
Qed.

Lemma splice_cons {A} (index : nat) (a : A) (l : list A) :
  TocDataModel.splice index (a :: l)
  = match index with
    | 0 => l
    | S index' => a :: TocDataModel.splice index' l
    end.
Proof. destruct index; reflexivity. Qed.

Lemma forallb_splice {A} (P : A -> bool) (index : nat) (l : list A) :
  forallb P l = true -> forallb P (TocDataModel.splice index l) = true.
Proof.
  revert index. induction l as [|a l IH]; intros index H.
  - destruct index; exact H.
  - rewrite splice_cons. cbn [forallb] in H.
    apply andb_true_iff in H. destruct H as [Ha Hl].
    destruct index; [exact Hl |].
    cbn [forallb]. rewrite Ha. apply IH. exact Hl.
Qed.

Lemma forallb_snoc {A} (P : A -> bool) (l : list A) (a : A) :
  forallb P l = true -> P a = true -> forallb P (l ++ [a]) = true.
Proof.
  intros Hl Ha. rewrite forallb_app, Hl. cbn [forallb]. rewrite Ha.
  reflexivity.
Qed.

Lemma isObject_option_map {A} (f : A -> A) (entry : option A) :
  isObject entry = true -> isObject (option_map f entry) = true.
Proof. destruct entry; [reflexivity | discriminate]. Qed.

(** The lookup of an indicator does not raise in an array of objects. *)
Lemma indicatorIndex_objects (indicatorId : jsstr)
  (indicators : list (option Indicator)) :
  forallb isObject indicators = true ->
  exists index,
    TocDataModel.indicatorIndex indicatorId indicators = Ok index.
Proof.
  induction indicators as [|entry indicators IH]; cbn [forallb]; intros H.
  - exists None. reflexivity.
  - apply andb_true_iff in H. destruct H as [He Hl].
    destruct entry as [i |]; [| discriminate].
    cbn [TocDataModel.indicatorIndex].
    destruct (TocDataModel.isIndicator indicatorId i); [eauto |].
    destruct (IH Hl) as [index ->]. eauto.
Qed.

Lemma kept_touched (A B : jsstr -> option jsstr -> bool) (now : jsstr)
  (d : Data) :
  TocDataModel.kept A B (TocDataModel.touched now d) = TocDataModel.kept A B d.
Proof. reflexivity. Qed.

Section Kept.

Variables A B : jsstr -> option jsstr -> bool.
Hypothesis A_statement : forall id st s, A id st = true -> A id (Some s) = true.
Hypothesis B_statement : forall id st s, B id st = true -> B id (Some s) = true.

Lemma keptIndicators_parts (v : option (list (option Indicator))) :
  TocDataModel.keptIndicators v = true ->
  exists indicators,
    v = Some indicators /\ forallb isObject indicators = true.
Proof.
  unfold TocDataModel.keptIndicators, objects.
  destruct v as [indicators |]; [| discriminate].
  cbn [isArray arrayOf andb]. eauto.
Qed.

Lemma keptIndicators_on
  (h : list (option Indicator) -> list (option Indicator))
  (v : option (list (option Indicator))) :
  (forall l, forallb isObject l = true -> forallb isObject (h l) = true) ->
  TocDataModel.keptIndicators v = true ->
  TocDataModel.keptIndicators (option_map h v) = true.
Proof.
  intros Hh H. destruct (keptIndicators_parts v H) as (l & -> & Hl).
  unfold TocDataModel.keptIndicators, objects.
  cbn [option_map isArray arrayOf andb]. apply Hh. exact Hl.
Qed.

Lemma keptOutput_parts (o : Output) :
  TocDataModel.keptOutput B o = true ->
  B (output_id o) (output_statement o) = true
  /\ exists indicators,
       output_indicators o = Some indicators
       /\ forallb isObject indicators = true.
Proof.
  unfold TocDataModel.keptOutput. intros H.
  apply andb_true_iff in H. destruct H as [Hb Hi]. split; [exact Hb |].
  apply keptIndicators_parts. exact Hi.
Qed.

Lemma keptOutcome_parts (o : Outcome) :
  TocDataModel.keptOutcome A B o = true ->
  A (outcome_id o) (outcome_statement o) = true
  /\ exists indicators outputs,
       outcome_indicators o = Some indicators
       /\ forallb isObject indicators = true
       /\ outcome_outputs o = Some outputs
       /\ forallb (TocDataModel.keptOutput B) outputs = true.
Proof.
  unfold TocDataModel.keptOutcome. intros H.
  apply andb_true_iff in H. destruct H as [H Ho].
  apply andb_true_iff in H. destruct H as [Ha Hi]. split; [exact Ha |].
  destruct (keptIndicators_parts _ Hi) as (is' & Ei & His).
  destruct (outcome_outputs o) as [os |]; [| discriminate]. eauto 6.
Qed.

Lemma keptOutput_onOutputIndicators
  (h : list (option Indicator) -> list (option Indicator)) (o : Output) :
  (forall l, forallb isObject l = true -> forallb isObject (h l) = true) ->
  TocDataModel.keptOutput B o = true ->
  TocDataModel.keptOutput B (TocDataModel.onOutputIndicators h o) = true.
Proof.
  unfold TocDataModel.keptOutput, TocDataModel.onOutputIndicators.
  cbn [output_id output_statement output_indicators]. intros Hh H.
  apply andb_true_iff in H. destruct H as [Hb Hi].
  rewrite Hb, (keptIndicators_on h _ Hh Hi). reflexivity.
Qed.

Lemma keptOutput_setOutputStatement (statement : jsstr) (o : Output) :
  TocDataModel.keptOutput B o = true ->
  TocDataModel.keptOutput B (TocDataModel.setOutputStatement statement o)
  = true.
Proof.
  unfold TocDataModel.keptOutput, TocDataModel.setOutputStatement.
  cbn [output_id output_statement output_indicators]. intros H.
  apply andb_true_iff in H. destruct H as [Hb Hi].
  rewrite (B_statement _ _ statement Hb), Hi. reflexivity.
Qed.

Lemma keptOutcome_onIndicators
  (h : list (option Indicator) -> list (option Indicator)) (o : Outcome) :
  (forall l, forallb isObject l = true -> forallb isObject (h l) = true) ->
  TocDataModel.keptOutcome A B o = true ->
  TocDataModel.keptOutcome A B (TocDataModel.onIndicators h o) = true.
Proof.
  unfold TocDataModel.keptOutcome, TocDataModel.onIndicators.
  cbn [outcome_id outcome_statement outcome_indicators outcome_outputs].
  intros Hh H.
  apply andb_true_iff in H. destruct H as [H Ho].
  apply andb_true_iff in H. destruct H as [Ha Hi].
  rewrite Ha, (keptIndicators_on h _ Hh Hi), Ho. reflexivity.
Qed.

Lemma keptOutcome_onOutputs (h : list Output -> list Output) (o : Outcome) :
  (forall os, forallb (TocDataModel.keptOutput B) os = true ->
              forallb (TocDataModel.keptOutput B) (h os) = true) ->
  TocDataModel.keptOutcome A B o = true ->
  TocDataModel.keptOutcome A B (TocDataModel.onOutputs h o) = true.
Proof.
  unfold TocDataModel.keptOutcome, TocDataModel.onOutputs.
  cbn [outcome_id outcome_statement outcome_indicators outcome_outputs].
  intros Hh H.
  apply andb_true_iff in H. destruct H as [H Ho].
  rewrite H. cbn [andb].
  destruct (outcome_outputs o) as [os |]; [| discriminate].
  cbn [option_map]. apply Hh. exact Ho.
Qed.

Lemma keptOutcome_setStatement (statement : jsstr) (o : Outcome) :
  TocDataModel.keptOutcome A B o = true ->
  TocDataModel.keptOutcome A B (TocDataModel.setStatement statement o) = true.
Proof.
  unfold TocDataModel.keptOutcome, TocDataModel.setStatement.
  cbn [outcome_id outcome_statement outcome_indicators outcome_outputs].
  intros H.
  apply andb_true_iff in H. destruct H as [H Ho].
  apply andb_true_iff in H. destruct H as [Ha Hi].
  rewrite (A_statement _ _ statement Ha), Hi, Ho. reflexivity.
Qed.

Lemma kept_onOutcomes (h : list Outcome -> list Outcome) (d : Data) :
  (forall os, forallb (TocDataModel.keptOutcome A B) os = true ->
              forallb (TocDataModel.keptOutcome A B) (h os) = true) ->
  TocDataModel.kept A B d = true ->
  TocDataModel.kept A B (TocDataModel.onOutcomes h d) = true.
Proof.
  unfold TocDataModel.kept, TocDataModel.onOutcomes. cbn [data_outcomes].
  intros Hh. destruct (data_outcomes d) as [os |]; [| discriminate].
  cbn [option_map]. apply Hh.
Qed.

Lemma kept_inOutcome (outcomeId : jsstr) (f : Outcome -> Outcome) (d : Data) :
  (forall o, TocDataModel.keptOutcome A B o = true ->
             TocDataModel.keptOutcome A B (f o) = true) ->
  TocDataModel.kept A B d = true ->
  TocDataModel.kept A B (TocDataModel.inOutcome outcomeId f d) = true.
Proof.
  intros Hf. unfold TocDataModel.inOutcome. apply kept_onOutcomes.
  intros os. apply forallb_assignFirst. exact Hf.
Qed.

Lemma kept_inOutput (outcomeId outputId : jsstr) (g : Output -> Output)
  (d : Data) :
  (forall o, TocDataModel.keptOutput B o = true ->
             TocDataModel.keptOutput B (g o) = true) ->
  TocDataModel.kept A B d = true ->
  TocDataModel.kept A B (TocDataModel.inOutput outcomeId outputId g d) = true.
Proof.
  intros Hg. unfold TocDataModel.inOutput. apply kept_inOutcome.
  intros o. apply keptOutcome_onOutputs.
  intros os. apply forallb_assignFirst. exact Hg.
Qed.

(** The lookups of a kept snapshot do not raise, and what they find is
    kept. *)
Lemma kept_getOutcome (outcomeId : jsstr) (m : TocDataModel.Model) :
  TocDataModel.kept A B (TocDataModel.data m) = true ->
  exists found,
    TocDataModel.getOutcome outcomeId m = Ok found
    /\ forall o, found = Some o -> TocDataModel.keptOutcome A B o = true.
Proof.
  unfold TocDataModel.kept, TocDataModel.getOutcome.
  destruct (data_outcomes (TocDataModel.data m)) as [os |]; [| discriminate].
  intros H. eexists. split; [reflexivity |].
  intros o Ho. eapply forallb_find; eassumption.
Qed.

Lemma kept_getOutput (outcomeId outputId : jsstr) (m : TocDataModel.Model) :
  TocDataModel.kept A B (TocDataModel.data m) = true ->
  exists found,
    TocDataModel.getOutput outcomeId outputId m = Ok found
    /\ forall o, found = Some o -> TocDataModel.keptOutput B o = true.
Proof.
  intros H. unfold TocDataModel.getOutput.
  destruct (kept_getOutcome outcomeId m H) as (found & -> & Hfound).
  destruct found as [o |].
  - destruct (keptOutcome_parts o (Hfound o eq_refl))
      as (_ & is' & os & _ & _ & -> & Hos).
    eexists. split; [reflexivity |].
    intros o' Ho'. eapply forallb_find; eassumption.
  - eexists. split; [reflexivity |]. discriminate.
Qed.

Lemma call_kept (c : TocDataModel.Call) (m : TocDataModel.Model) :
  TocDataModel.kept A B (TocDataModel.data m) = true ->
  (forall uuid, TocDataModel.answered c = Some uuid ->
                A uuid (Some []) = true /\ B uuid (Some []) = true) ->
  exists m',
    TocDataModel.call c m = Ok m'
    /\ TocDataModel.kept A B (TocDataModel.data m') = true
    /\ data_version (TocDataModel.data m') = data_version (TocDataModel.data m)
    /\ data_impact (TocDataModel.data m') = data_impact (TocDataModel.data m).
Proof.
  intros H Hnew.
  assert (Hsame : exists m', Ok m = Ok m'
            /\ TocDataModel.kept A B (TocDataModel.data m') = true
            /\ data_version (TocDataModel.data m')
               = data_version (TocDataModel.data m)
            /\ data_impact (TocDataModel.data m')
               = data_impact (TocDataModel.data m)) by (exists m; auto).
  assert (Hadd : forall (i : Indicator) l,
             forallb isObject l = true ->
             forallb isObject (l ++ [Some i]) = true)
    by (intros i l Hl; apply forallb_snoc; [exact Hl | reflexivity]).
  assert (Hupd : forall p (f : Indicator -> Indicator) l,
             forallb isObject l = true ->
             forallb isObject (TocDataModel.assignFirst p (option_map f) l)
             = true)
    by (intros p f l; apply forallb_assignFirst;
        intros e; apply isObject_option_map).
  destruct c; cbn [TocDataModel.call].
  - (* addOutcome *)
    unfold TocDataModel.addOutcome.
    pose proof H as H'. unfold TocDataModel.kept in H'.
    destruct (data_outcomes (TocDataModel.data m)) as [os |] eqn:Eo;
      [| discriminate].
    eexists. split; [reflexivity |]. split; [| split; reflexivity].
    cbn [TocDataModel.changed TocDataModel.data]. rewrite kept_touched.
    apply kept_onOutcomes; [| exact H].
    intros os' Hos'. apply forallb_snoc; [exact Hos' |].
    destruct (Hnew uuid eq_refl) as [Ha _].
    unfold TocDataModel.keptOutcome.
    cbn [outcome_id outcome_statement outcome_indicators outcome_outputs].
    rewrite Ha. reflexivity.
  - (* deleteOutcome *)
    unfold TocDataModel.deleteOutcome.
    pose proof H as H'. unfold TocDataModel.kept in H'.
    destruct (data_outcomes (TocDataModel.data m)) as [os |] eqn:Eo;
      [| discriminate].
    destruct (TocDataModel.findIndex _ os) as [index |]; [| exact Hsame].
    eexists. split; [reflexivity |]. split; [| split; reflexivity].
    cbn [TocDataModel.changed TocDataModel.data]. rewrite kept_touched.
    apply kept_onOutcomes; [| exact H].
    intros os'. apply forallb_splice.
  - (* updateOutcomeStatement *)
    unfold TocDataModel.updateOutcomeStatement.
    pose proof H as H'. unfold TocDataModel.kept in H'.
    destruct (data_outcomes (TocDataModel.data m)) as [os |] eqn:Eo;
      [| discriminate].
    destruct (find _ os) as [o |]; [| exact Hsame].
    eexists. split; [reflexivity |]. split; [| split; reflexivity].
    cbn [TocDataModel.changed TocDataModel.data]. rewrite kept_touched.
    apply kept_onOutcomes; [| exact H].
    intros os'. apply forallb_assignFirst. apply keptOutcome_setStatement.
  - (* addOutcomeIndicator *)
    unfold TocDataModel.addOutcomeIndicator.
    destruct (kept_getOutcome outcomeId m H) as (found & -> & Hfound).
    destruct found as [o |]; [| exact Hsame].
    destruct (keptOutcome_parts o (Hfound o eq_refl))
      as (_ & is' & os & -> & _ & _ & _).
    eexists. split; [reflexivity |]. split; [| split; reflexivity].
    cbn [TocDataModel.changed TocDataModel.data]. rewrite kept_touched.
    apply kept_inOutcome; [| exact H].
    intros o'. apply keptOutcome_onIndicators. apply Hadd.
  - (* updateOutcomeIndicator *)
    unfold TocDataModel.updateOutcomeIndicator.
    destruct (kept_getOutcome outcomeId m H) as (found & -> & Hfound).
    destruct found as [o |]; [| exact Hsame].
    destruct (keptOutcome_parts o (Hfound o eq_refl))
      as (_ & is' & os & -> & His & _ & _).
    destruct (indicatorIndex_objects indicatorId is' His) as [index ->].
    destruct index as [index |]; [| exact Hsame].
    eexists. split; [reflexivity |]. split; [| split; reflexivity].
    cbn [TocDataModel.changed TocDataModel.data]. rewrite kept_touched.
    apply kept_inOutcome; [| exact H].
    intros o'. apply keptOutcome_onIndicators. apply Hupd.
  - (* deleteOutcomeIndicator *)
    unfold TocDataModel.deleteOutcomeIndicator.
    destruct (kept_getOutcome outcomeId m H) as (found & -> & Hfound).
    destruct found as [o |]; [| exact Hsame].
    destruct (keptOutcome_parts o (Hfound o eq_refl))
      as (_ & is' & os & -> & His & _ & _).
    destruct (indicatorIndex_objects indicatorId is' His) as [index ->].
    destruct index as [index |]; [| exact Hsame].
    eexists. split; [reflexivity |]. split; [| split; reflexivity].
    cbn [TocDataModel.changed TocDataModel.data]. rewrite kept_touched.
    apply kept_inOutcome; [| exact H].
    intros o'. apply keptOutcome_onIndicators. intros l. apply forallb_splice.
  - (* addOutput *)
    unfold TocDataModel.addOutput.
    destruct (kept_getOutcome outcomeId m H) as (found & -> & Hfound).
    destruct found as [o |]; [| exact Hsame].
    destruct (keptOutcome_parts o (Hfound o eq_refl))
      as (_ & is' & os & _ & _ & -> & _).
    eexists. split; [reflexivity |]. split; [| split; reflexivity].
    cbn [TocDataModel.changed TocDataModel.data]. rewrite kept_touched.
    apply kept_inOutcome; [| exact H].
    intros o'. apply keptOutcome_onOutputs.
    intros os' Hos'. apply forallb_snoc; [exact Hos' |].
    destruct (Hnew uuid eq_refl) as [_ Hb].
    unfold TocDataModel.keptOutput.
    cbn [output_id output_statement output_indicators].
    rewrite Hb. reflexivity.
  - (* updateOutputStatement *)
    unfold TocDataModel.updateOutputStatement.
    destruct (kept_getOutcome outcomeId m H) as (found & -> & Hfound).
    destruct found as [o |]; [| exact Hsame].
    destruct (keptOutcome_parts o (Hfound o eq_refl))
      as (_ & is' & os & _ & _ & -> & _).
    destruct (find _ os) as [o' |]; [| exact Hsame].
    eexists. split; [reflexivity |]. split; [| split; reflexivity].
    cbn [TocDataModel.changed TocDataModel.data]. rewrite kept_touched.
    apply kept_inOutcome; [| exact H].
    intros o''. apply keptOutcome_onOutputs.
    intros os'. apply forallb_assignFirst.
    apply keptOutput_setOutputStatement.
  - (* deleteOutput *)
    unfold TocDataModel.deleteOutput.
    destruct (kept_getOutcome outcomeId m H) as (found & -> & Hfound).
    destruct found as [o |]; [| exact Hsame].
    destruct (keptOutcome_parts o (Hfound o eq_refl))
      as (_ & is' & os & _ & _ & -> & _).
    destruct (TocDataModel.findIndex _ os) as [index |]; [| exact Hsame].
    eexists. split; [reflexivity |]. split; [| split; reflexivity].
    cbn [TocDataModel.changed TocDataModel.data]. rewrite kept_touched.
    apply kept_inOutcome; [| exact H].
    intros o''. apply keptOutcome_onOutputs.
    intros os'. apply forallb_splice.
  - (* addOutputIndicator *)
    unfold TocDataModel.addOutputIndicator.
    destruct (kept_getOutput outcomeId outputId m H) as (found & -> & Hfound).
    destruct found as [o |]; [| exact Hsame].
    destruct (keptOutput_parts o (Hfound o eq_refl)) as (_ & is' & -> & _).
    eexists. split; [reflexivity |]. split; [| split; reflexivity].
    cbn [TocDataModel.changed TocDataModel.data]. rewrite kept_touched.
    apply kept_inOutput; [| exact H].
    intros o'. apply keptOutput_onOutputIndicators. apply Hadd.
  - (* updateOutputIndicator *)
    unfold TocDataModel.updateOutputIndicator.
    destruct (kept_getOutput outcomeId outputId m H) as (found & -> & Hfound).
    destruct found as [o |]; [| exact Hsame].
    destruct (keptOutput_parts o (Hfound o eq_refl)) as (_ & is' & -> & His).
    destruct (indicatorIndex_objects indicatorId is' His) as [index ->].
    destruct index as [index |]; [| exact Hsame].
    eexists. split; [reflexivity |]. split; [| split; reflexivity].
    cbn [TocDataModel.changed TocDataModel.data]. rewrite kept_touched.
    apply kept_inOutput; [| exact H].
    intros o'. apply keptOutput_onOutputIndicators. apply Hupd.
  - (* deleteOutputIndicator *)
    unfold TocDataModel.deleteOutputIndicator.
    destruct (kept_getOutput outcomeId outputId m H) as (found & -> & Hfound).
    destruct found as [o |]; [| exact Hsame].
    destruct (keptOutput_parts o (Hfound o eq_refl)) as (_ & is' & -> & His).
    destruct (indicatorIndex_objects indicatorId is' His) as [index ->].
    destruct index as [index |]; [| exact Hsame].
    eexists. split; [reflexivity |]. split; [| split; reflexivity].
    cbn [TocDataModel.changed TocDataModel.data]. rewrite kept_touched.
    apply kept_inOutput; [| exact H].
    intros o'. apply keptOutput_onOutputIndicators.
    intros l. apply forallb_splice.
Qed.

End Kept.

Lemma forallb_eq {A} (f g : A -> bool) (l : list A) :
  (forall a, f a = g a) -> forallb f l = forallb g l.
Proof.
  intros H. induction l as [|a l IH]; [reflexivity |].
  cbn [forallb]. rewrite H, IH. reflexivity.
Qed.

Lemma forallb_andb {A} (f g : A -> bool) (l : list A) :
  forallb (fun a => f a && g a) l = forallb f l && forallb g l.
Proof.
  induction l as [|a l IH]; [reflexivity |].
  cbn [forallb]. rewrite IH.
  destruct (f a), (g a), (forallb f l); reflexivity.
Qed.

(** A kept snapshot whose statements are strings has every property the
    engine reads. *)
Lemma kept_shaped (d : Data) :
  match data_impact d with
  | Some impact => isString (impact_statement impact)
  | None => false
  end = true ->
  TocDataModel.kept (fun _ statement => isString statement)
                    (fun _ statement => isString statement) d = true ->
  shaped d = true.
Proof.
  unfold shaped, TocDataModel.kept. intros -> H. cbn [andb].
  destruct (data_outcomes d) as [outcomes |]; [| discriminate].
  rewrite forallb_forall in *. intros outcome Hin.
  specialize (H outcome Hin).
  unfold TocDataModel.keptOutcome, shapedOutcome in *.
  apply andb_true_iff in H. destruct H as [H Ho].
  apply andb_true_iff in H. destruct H as [Hs Hi].
  unfold TocDataModel.keptIndicators in Hi.
  apply andb_true_iff in Hi. destruct Hi as [Hi _].
  rewrite Hs, Hi. cbn [andb].
  destruct (outcome_outputs outcome) as [outputs |]; [| discriminate].
  rewrite forallb_forall in *. intros o Ho'. specialize (Ho o Ho').
  unfold TocDataModel.keptOutput, shapedOutput in *.
  apply andb_true_iff in Ho. destruct Ho as [Hso Hio].
  unfold TocDataModel.keptIndicators in Hio.
  apply andb_true_iff in Hio. destruct Hio as [Hio _].
  rewrite Hso, Hio. reflexivity.
Qed.

Lemma validOutput_kept (o : Output) :
  validOutput o && objects (output_indicators o)
  = TocDataModel.keptOutput (fun id _ => truthy id) o.
Proof.
  unfold validOutput, TocDataModel.keptOutput, TocDataModel.keptIndicators.
  destruct (truthy (output_id o)), (output_indicators o) as [is' |];
    reflexivity.
Qed.

Lemma validOutcome_kept (o : Outcome) :
  validOutcome o
  && (objects (outcome_indicators o)
      && forallb (fun output => objects (output_indicators output))
                 (arrayOf (outcome_outputs o)))
  = TocDataModel.keptOutcome (fun id _ => truthy id) (fun id _ => truthy id) o.
Proof.
  unfold validOutcome, TocDataModel.keptOutcome, TocDataModel.keptIndicators.
  destruct (truthy (outcome_id o)), (outcome_indicators o) as [is' |],
    (outcome_outputs o) as [os |];
    cbn [isArray negb orb andb arrayOf forallb]; rewrite ?andb_false_r;
    try reflexivity.
  rewrite <- (forallb_eq _ _ os validOutput_kept), forallb_andb.
  destruct (objects (Some is')), (forallb validOutput os),
    (forallb (fun output => objects (output_indicators output)) os);
    reflexivity.
Qed.

Lemma isValidData_kept (d : Data) :
  isValidData d && objectsOnly d
  = truthyProp (data_version d)
    && match data_impact d with
       | Some impact => truthyProp (impact_statement impact)
       | None => false
       end
    && TocDataModel.kept (fun id _ => truthy id) (fun id _ => truthy id) d.
Proof.
  unfold isValidData, TocDataModel.kept, objectsOnly.
  destruct (truthyProp (data_version d)); [| reflexivity].
  destruct (data_impact d) as [impact |]; [| reflexivity].
  destruct (truthyProp (impact_statement impact)); [| reflexivity].
  destruct (data_outcomes d) as [os |]; [| reflexivity].
  cbn [negb andb arrayOf]. rewrite <- forallb_andb.
  apply forallb_eq. exact validOutcome_kept.
Qed.

(** X11: an editing method called on a model whose snapshot
    [isValidData] accepts, and whose arrays of indicators hold objects
    only, does not raise and leaves such a snapshot, whatever the ids and
    texts it is called with, provided that the identifier it is given for a
    new item is not empty. *)
Theorem edits_keep_data_valid (c : TocDataModel.Call)
  (m : TocDataModel.Model) :
  isValidData (TocDataModel.getData m) = true ->
  objectsOnly (TocDataModel.getData m) = true ->
  (forall uuid, TocDataModel.answered c = Some uuid -> uuid <> []) ->
  exists m',
    TocDataModel.call c m = Ok m'
    /\ isValidData (TocDataModel.getData m') = true
    /\ objectsOnly (TocDataModel.getData m') = true.
Proof.
  unfold TocDataModel.getData. intros Hv Ho Hnew.
  assert (H : isValidData (TocDataModel.data m)
              && objectsOnly (TocDataModel.data m) = true)
    by (rewrite Hv, Ho; reflexivity).
  rewrite isValidData_kept in H.
  apply andb_true_iff in H. destruct H as [H Hk].
  destruct (call_kept (fun id _ => truthy id) (fun id _ => truthy id)
              (fun _ _ _ E => E) (fun _ _ _ E => E) c m Hk)
    as (m' & E & Hk' & Ev & Ei).
  - intros uuid Eu. specialize (Hnew uuid Eu).
    destruct uuid; [congruence | split; reflexivity].
  - exists m'. split; [exact E |]. apply andb_true_iff.
    rewrite isValidData_kept, Ev, Ei, H, Hk'. reflexivity.
Qed.

Lemma edits_keep_data_valid_witness :
  exists m',
    TocDataModel.call (TocDataModel.AddOutput (lit "A") (lit "u") (lit "t"))
      (TocDataModel.constructor (Some scenario) (lit "t")) = Ok m'
    /\ isValidData (TocDataModel.getData m') = true
    /\ objectsOnly (TocDataModel.getData m') = true.
Proof.
  apply edits_keep_data_valid.
  - reflexivity.
  - reflexivity.
  - intros uuid E. injection E as <-. discriminate.
Defined.

(** The hypothesis on the indicators is needed: [isValidData] accepts an
    array of indicators whose entry is [null], and the lookup of an
    indicator, the export and the preview raise on it. *)
Example null_indicator_raises :
  isValidData outcomeWithNullIndicator = true
  /\ TocDataModel.call
       (TocDataModel.UpdateOutcomeIndicator (lit "A") (lit "i") (lit "d")
                                            (lit "t"))
       (TocDataModel.constructor (Some outcomeWithNullIndicator) (lit "s"))
     = Throw (TypeError "i.id")
  /\ TocDataModel.call
       (TocDataModel.DeleteOutcomeIndicator (lit "A") (lit "i") (lit "t"))
       (TocDataModel.constructor (Some outcomeWithNullIndicator) (lit "s"))
     = Throw (TypeError "i.id")
  /\ exporters.generateMarkdown (Ok (lit "today")) (fun s => Ok s)
       outcomeWithNullIndicator
     = Throw (TypeError "indicator.description")
  /\ preview.generatePreview outcomeWithNullIndicator
     = Throw (TypeError "indicator.description").
Proof. repeat split; vm_compute; reflexivity. Qed.

Lemma calls_kept (cs : list TocDataModel.Call) (m : TocDataModel.Model) :
  match data_impact (TocDataModel.data m) with
  | Some impact => isString (impact_statement impact)
  | None => false
  end = true ->
  TocDataModel.kept (fun _ st => isString st) (fun _ st => isString st)
                    (TocDataModel.data m) = true ->
  exists m',
    TocDataModel.calls cs m = Ok m'
    /\ shaped (TocDataModel.data m') = true.
Proof.
  revert m. induction cs as [|c cs IH]; intros m H Hk.
  - exists m. split; [reflexivity | apply kept_shaped; assumption].
  - destruct (call_kept (fun _ st => isString st) (fun _ st => isString st)
                (fun _ _ _ _ => eq_refl) (fun _ _ _ _ => eq_refl) c m Hk)
      as (m' & E & Hk' & _ & Ei).
    + intros uuid _. split; reflexivity.
    + cbn [TocDataModel.calls]. rewrite E. apply IH; [| exact Hk'].
      rewrite Ei. exact H.
Qed.

(** A model built without initial data never raises when edited, and the
    engine reads what it holds. *)
Lemma calls_shaped (now : jsstr) (cs : list TocDataModel.Call) :
  exists m,
    TocDataModel.calls cs (TocDataModel.constructor None now) = Ok m
    /\ shaped (TocDataModel.data m) = true.
Proof. apply calls_kept; reflexivity. Qed.

(** X12: a model built without initial data and edited by any calls of
    its methods, with any arguments and any answers of the platform, never
    raises, and the engine draws its snapshot after each of them. *)
Theorem edited_model_draws (now : jsstr) (cs : list TocDataModel.Call) :
  exists m,
    TocDataModel.calls cs (TocDataModel.constructor None now) = Ok m
    /\ draws (TocDataModel.getData m).
Proof.
  destruct (calls_shaped now cs)
    as (m & E & Hs).
  exists m. split; [exact E |].
  destruct (generate_scene _ Hs) as (svg & Esvg & _).
  exists svg. exact Esvg.
Qed.

(** ** [TocDataModel]: changes and notifications *)

Ltac method_cases :=
  repeat match goal with
         | |- context [match ?x with _ => _ end] => destruct x eqn:?
         end.

(** X13: a call of an editing method that returns either leaves the model
    as it was, snapshot, [lastModified] and notifications; or it sets
    [lastModified] to the time of the call and notifies the listeners
    once.  So the snapshot never changes without a notification. *)
Theorem changes_are_notified (c : TocDataModel.Call)
  (m m' : TocDataModel.Model) :
  TocDataModel.call c m = Ok m' ->
  m' = m
  \/ exists event,
       TocDataModel.notified m' = TocDataModel.notified m ++ [event]
       /\ TocDataModel.lastModified m' = Some (TocDataModel.timeOf c).
Proof.
  destruct c; cbn [TocDataModel.call TocDataModel.timeOf];
    unfold TocDataModel.addOutcome, TocDataModel.deleteOutcome,
      TocDataModel.updateOutcomeStatement, TocDataModel.addOutcomeIndicator,
      TocDataModel.updateOutcomeIndicator, TocDataModel.deleteOutcomeIndicator,
      TocDataModel.addOutput, TocDataModel.updateOutputStatement,
      TocDataModel.deleteOutput, TocDataModel.addOutputIndicator,
      TocDataModel.updateOutputIndicator, TocDataModel.deleteOutputIndicator;
    method_cases; cbn [TocDataModel.after]; intros E;
    try discriminate; injection E as <-;
    first [ left; reflexivity
          | right; eexists; split; reflexivity ].
Qed.

Lemma changes_are_notified_witness :
  exists m',
    TocDataModel.call (TocDataModel.AddOutcome (lit "u") (lit "t"))
      (TocDataModel.constructor None (lit "s")) = Ok m'
    /\ TocDataModel.lastModified m' = Some (lit "t").
Proof.
  eexists. split; [reflexivity |].
  destruct (changes_are_notified
              (TocDataModel.AddOutcome (lit "u") (lit "t"))
              (TocDataModel.constructor None (lit "s")) _ eq_refl)
    as [E | (event & _ & E)].
  - discriminate E.
  - exact E.
Defined.

(** ** [TocDataModel]: adding, updating and deleting *)

Lemma find_snoc_fresh {A} (p : A -> bool) (l : list A) (a : A) :
  existsb p l = false -> p a = true -> find p (l ++ [a]) = Some a.
Proof.
  intros Hl Ha. induction l as [|b l IH]; cbn [app find].
  - rewrite Ha. reflexivity.
  - cbn [existsb] in Hl. apply orb_false_iff in Hl. destruct Hl as [-> Hl].
    apply IH. exact Hl.
Qed.

Lemma findIndex_snoc_fresh {A} (p : A -> bool) (l : list A) (a : A) :
  existsb p l = false -> p a = true ->
  TocDataModel.findIndex p (l ++ [a]) = Some (length l).
Proof.
  intros Hl Ha. induction l as [|b l IH]; cbn [app TocDataModel.findIndex].
  - rewrite Ha. reflexivity.
  - cbn [existsb] in Hl. apply orb_false_iff in Hl. destruct Hl as [-> Hl].
    rewrite IH by exact Hl. reflexivity.
Qed.

Lemma splice_snoc {A} (l : list A) (a : A) :
  TocDataModel.splice (length l) (l ++ [a]) = l.
Proof.
  induction l as [|b l IH]; [reflexivity |].
  cbn [length app]. rewrite splice_cons, IH. reflexivity.
Qed.

(** X14: on a model that has no outcome of id [uuid], [addOutcome] appends
    an outcome of that id with an empty statement, no indicator and no
    output, which [getOutcome] then returns; [deleteOutcome] of that id
    then leaves the data [getData] returns as they were but for
    [lastModified], which is the time of the deletion: the version, the
    impact and the outcomes are those of before the two calls, both of
    which have notified the listeners. *)
Theorem add_then_delete_outcome (uuid now now' : jsstr)
  (m : TocDataModel.Model) (outcomes : list Outcome) :
  data_outcomes (TocDataModel.getData m) = Some outcomes ->
  existsb (TocDataModel.isOutcome uuid) outcomes = false ->
  exists m1 m2,
    TocDataModel.addOutcome uuid now m = Ok (uuid, m1)
    /\ TocDataModel.getOutcome uuid m1
       = Ok (Some {| outcome_id := uuid;
                     outcome_statement := Some [];
                     outcome_indicators := Some [];
                     outcome_outputs := Some [] |})
    /\ TocDataModel.deleteOutcome uuid now' m1 = Ok (tt, m2)
    /\ TocDataModel.getData m2
       = {| data_version := data_version (TocDataModel.getData m);
            data_lastModified := Some now';
            data_impact := data_impact (TocDataModel.getData m);
            data_outcomes := Some outcomes |}
    /\ map TocDataModel.changeType (TocDataModel.notified m2)
       = map TocDataModel.changeType (TocDataModel.notified m)
         ++ ["outcome-added"; "outcome-deleted"]%string.
Proof.
  unfold TocDataModel.getData. intros Eo Hfresh.
  assert (Hnew : forall st is' os,
             TocDataModel.isOutcome uuid
               {| outcome_id := uuid; outcome_statement := st;
                  outcome_indicators := is'; outcome_outputs := os |} = true).
  { intros. unfold TocDataModel.isOutcome. apply jsstr_eqb_refl. }
  unfold TocDataModel.addOutcome. rewrite Eo.
  eexists. eexists. split; [reflexivity |].
  unfold TocDataModel.getOutcome, TocDataModel.deleteOutcome.
  cbn [TocDataModel.changed TocDataModel.touched TocDataModel.data TocDataModel.onOutcomes
       TocDataModel.touched data_outcomes].
  rewrite Eo. cbn [option_map].
  rewrite find_snoc_fresh by auto.
  rewrite findIndex_snoc_fresh by auto.
  split; [reflexivity |]. split; [reflexivity |].
  cbn [TocDataModel.changed TocDataModel.touched TocDataModel.data TocDataModel.onOutcomes
       TocDataModel.touched TocDataModel.notified data_outcomes data_version
       data_lastModified data_impact option_map].
  split.
  - unfold TocDataModel.touched, TocDataModel.onOutcomes.
    cbn [data_outcomes data_version data_lastModified data_impact].
    rewrite Eo. cbn [option_map]. rewrite splice_snoc. reflexivity.
  - rewrite !map_app, <- app_assoc. reflexivity.
Qed.

Lemma add_then_delete_outcome_witness :
  exists m1 m2,
    TocDataModel.addOutcome (lit "C") (lit "t")
      (TocDataModel.constructor (Some scenario) (lit "s"))
    = Ok (lit "C", m1)
    /\ TocDataModel.deleteOutcome (lit "C") (lit "t'") m1 = Ok (tt, m2)
    /\ data_outcomes (TocDataModel.getData m2) = data_outcomes scenario
    /\ data_lastModified (TocDataModel.getData m2) = Some (lit "t'").
Proof.
  destruct (add_then_delete_outcome (lit "C") (lit "t") (lit "t'")
              (TocDataModel.constructor (Some scenario) (lit "s"))
              _ eq_refl eq_refl)
    as (m1 & m2 & H1 & _ & H2 & H3 & _).
  exists m1, m2. rewrite H3. auto.
Defined.

Lemma find_assignFirst_same {A} (p : A -> bool) (f : A -> A) (l : list A)
  (a : A) :
  find p l = Some a -> p (f a) = true ->
  find p (TocDataModel.assignFirst p f l) = Some (f a).
Proof.
  intros Hf Hp. induction l as [|b l IH]; [discriminate |].
  cbn [find TocDataModel.assignFirst] in *. destruct (p b) eqn:Eb.
  - injection Hf as ->. cbn [find]. rewrite Hp. reflexivity.
  - cbn [find]. rewrite Eb. apply IH. exact Hf.
Qed.

Lemma find_assignFirst_other {A} (p q : A -> bool) (f : A -> A) (l : list A) :
  (forall a, p a = true -> q a = false /\ q (f a) = false) ->
  find q (TocDataModel.assignFirst p f l) = find q l.
Proof.
  intros H. induction l as [|b l IH]; [reflexivity |].
  cbn [find TocDataModel.assignFirst]. destruct (p b) eqn:Eb.
  - destruct (H b Eb) as [E1 E2]. cbn [find]. rewrite E1, E2. reflexivity.
  - cbn [find]. rewrite IH. reflexivity.
Qed.

Lemma map_assignFirst {A B} (id : A -> B) (p : A -> bool) (f : A -> A)
  (l : list A) :
  (forall a, id (f a) = id a) ->
  map id (TocDataModel.assignFirst p f l) = map id l.
Proof.
  intros H. induction l as [|b l IH]; [reflexivity |].
  cbn [TocDataModel.assignFirst]. destruct (p b); cbn [map].
  - rewrite H. reflexivity.
  - rewrite IH. reflexivity.
Qed.

Lemma isOutcome_other (outcomeId other : jsstr) (o o' : Outcome) :
  other <> outcomeId ->
  outcome_id o' = outcome_id o ->
  TocDataModel.isOutcome outcomeId o = true ->
  TocDataModel.isOutcome other o = false
  /\ TocDataModel.isOutcome other o' = false.
Proof.
  unfold TocDataModel.isOutcome. intros Hne -> E.
  apply jsstr_eqb_eq in E.
  assert (JsString.eqb (outcome_id o) other = false)
    by (apply jsstr_eqb_neq; congruence).
  auto.
Qed.

(** X15: [updateOutcomeStatement] on an id that is found sets the
    statement of the first outcome of that id and nothing else of it: the
    lookup of the id then returns that outcome with the new statement, the
    lookups of the other ids return what they did, and the ids of the
    outcomes are as they were, in the same order. *)
Theorem update_outcome_statement_found (outcomeId statement now : jsstr)
  (m : TocDataModel.Model) (outcome : Outcome) :
  TocDataModel.getOutcome outcomeId m = Ok (Some outcome) ->
  exists m',
    TocDataModel.updateOutcomeStatement outcomeId statement now m
    = Ok (tt, m')
    /\ TocDataModel.getOutcome outcomeId m'
       = Ok (Some {| outcome_id := outcome_id outcome;
                     outcome_statement := Some statement;
                     outcome_indicators := outcome_indicators outcome;
                     outcome_outputs := outcome_outputs outcome |})
    /\ (forall other,
           other <> outcomeId ->
           TocDataModel.getOutcome other m' = TocDataModel.getOutcome other m)
    /\ map outcome_id (arrayOf (data_outcomes (TocDataModel.getData m')))
       = map outcome_id (arrayOf (data_outcomes (TocDataModel.getData m))).
Proof.
  unfold TocDataModel.getOutcome, TocDataModel.updateOutcomeStatement,
    TocDataModel.getData.
  destruct (data_outcomes (TocDataModel.data m)) as [os |] eqn:Eo;
    [| discriminate].
  intros E. injection E as E. rewrite E.
  eexists. split; [reflexivity |].
  cbn [TocDataModel.changed TocDataModel.touched TocDataModel.data TocDataModel.onOutcomes
       data_outcomes].
  rewrite Eo. cbn [option_map arrayOf].
  split; [| split].
  - rewrite (find_assignFirst_same _ _ _ _ E); [reflexivity |].
    apply find_some in E. apply E.
  - intros other Hne. f_equal. apply find_assignFirst_other.
    intros o Ho. apply (isOutcome_other outcomeId); auto.
  - apply map_assignFirst. reflexivity.
Qed.

Lemma update_outcome_statement_found_witness :
  exists m',
    TocDataModel.updateOutcomeStatement (lit "B") (lit "New") (lit "t")
      (TocDataModel.constructor (Some scenario) (lit "s"))
    = Ok (tt, m')
    /\ TocDataModel.getOutcome (lit "A") m' = Ok (Some scenarioA).
Proof.
  destruct (update_outcome_statement_found (lit "B") (lit "New") (lit "t")
              (TocDataModel.constructor (Some scenario) (lit "s"))
              scenarioB eq_refl)
    as (m' & H1 & _ & H2 & _).
  exists m'. split; [exact H1 |].
  rewrite H2; [reflexivity | discriminate].
Defined.

Lemma In_splice {A} (index : nat) (l : list A) (a : A) :
  In a (TocDataModel.splice index l) -> In a l.
Proof.
  revert index. induction l as [|b l IH]; intros index H.
  - destruct index; exact H.
  - rewrite splice_cons in H. destruct index as [|index]; [right; exact H |].
    destruct H as [-> | H]; [left; reflexivity | right; eauto].
Qed.

Lemma map_splice {A B} (f : A -> B) (index : nat) (l : list A) :
  map f (TocDataModel.splice index l) = TocDataModel.splice index (map f l).
Proof.
  unfold TocDataModel.splice. rewrite map_app, firstn_map, skipn_map.
  reflexivity.
Qed.

Lemma NoDup_splice {A} (index : nat) (l : list A) :
  NoDup l -> NoDup (TocDataModel.splice index l).
Proof.
  revert index. induction l as [|b l IH]; intros index H.
  - destruct index; exact H.
  - rewrite splice_cons. inversion H as [|? ? Hnotin Hnd]; subst.
    destruct index as [|index]; [exact Hnd |].
    constructor; [| apply IH; exact Hnd].
    intros Hin. apply Hnotin. eapply In_splice. exact Hin.
Qed.

(** What [deleteOutcome] leaves of the outcomes. *)
Lemma deleted_find_gone (outcomeId : jsstr) (l : list Outcome) :
  NoDup (map outcome_id l) ->
  find (TocDataModel.isOutcome outcomeId)
       (match TocDataModel.findIndex (TocDataModel.isOutcome outcomeId) l with
        | Some index => TocDataModel.splice index l
        | None => l
        end) = None.
Proof.
  induction l as [|a l IH]; intros Hnd; [reflexivity |].
  cbn [map] in Hnd. inversion Hnd as [|? ? Hnotin Hnd']; subst.
  cbn [TocDataModel.findIndex].
  destruct (TocDataModel.isOutcome outcomeId a) eqn:Ea.
  - rewrite splice_cons.
    destruct (find (TocDataModel.isOutcome outcomeId) l) as [b |] eqn:Eb;
      [| reflexivity].
    exfalso. apply find_some in Eb. destruct Eb as [Hb Eb].
    apply Hnotin. unfold TocDataModel.isOutcome in Ea, Eb.
    apply jsstr_eqb_eq in Ea. apply jsstr_eqb_eq in Eb.
    rewrite Ea, <- Eb. apply in_map. exact Hb.
  - specialize (IH Hnd').
    destruct (TocDataModel.findIndex (TocDataModel.isOutcome outcomeId) l)
      as [index |]; cbn [option_map].
    + rewrite splice_cons. cbn [find]. rewrite Ea. exact IH.
    + cbn [find]. rewrite Ea. exact IH.
Qed.

Lemma deleted_find_other {A} (p q : A -> bool) (l : list A) :
  (forall a, p a = true -> q a = false) ->
  find q (match TocDataModel.findIndex p l with
          | Some index => TocDataModel.splice index l
          | None => l
          end) = find q l.
Proof.
  intros H. induction l as [|a l IH]; [reflexivity |].
  cbn [TocDataModel.findIndex]. destruct (p a) eqn:Ea.
  - rewrite splice_cons. cbn [find]. rewrite (H a Ea). reflexivity.
  - destruct (TocDataModel.findIndex p l) as [index |]; cbn [option_map].
    + rewrite splice_cons. cbn [find]. rewrite IH. reflexivity.
    + reflexivity.
Qed.

(** X16: when the outcomes have distinct ids, [deleteOutcome] leaves no
    outcome of the id it is given, and the lookups of the other ids return
    what they did. *)
Theorem delete_outcome_gone (outcomeId now : jsstr) (m : TocDataModel.Model)
  (outcomes : list Outcome) :
  data_outcomes (TocDataModel.getData m) = Some outcomes ->
  NoDup (map outcome_id outcomes) ->
  exists m',
    TocDataModel.deleteOutcome outcomeId now m = Ok (tt, m')
    /\ TocDataModel.getOutcome outcomeId m' = Ok None
    /\ forall other,
         other <> outcomeId ->
         TocDataModel.getOutcome other m' = TocDataModel.getOutcome other m.
Proof.
  unfold TocDataModel.getData, TocDataModel.deleteOutcome,
    TocDataModel.getOutcome.
  intros Eo Hnd. rewrite Eo.
  pose proof (deleted_find_gone outcomeId outcomes Hnd) as Hgone.
  assert (Hother : forall other, other <> outcomeId ->
            find (TocDataModel.isOutcome other)
                 (match TocDataModel.findIndex
                          (TocDataModel.isOutcome outcomeId) outcomes with
                  | Some index => TocDataModel.splice index outcomes
                  | None => outcomes
                  end)
            = find (TocDataModel.isOutcome other) outcomes).
  { intros other Hne. apply deleted_find_other.
    intros a Ha. apply (isOutcome_other outcomeId other a a); auto. }
  destruct (TocDataModel.findIndex (TocDataModel.isOutcome outcomeId) outcomes)
    as [index |].
  - eexists. split; [reflexivity |].
    cbn [TocDataModel.changed TocDataModel.touched TocDataModel.data TocDataModel.onOutcomes
         data_outcomes].
    rewrite Eo. cbn [option_map]. split.
    + rewrite Hgone. reflexivity.
    + intros other Hne. rewrite (Hother other Hne). reflexivity.
  - exists m. split; [reflexivity |]. rewrite Eo. split.
    + rewrite Hgone. reflexivity.
    + reflexivity.
Qed.

Lemma delete_outcome_gone_witness :
  exists m',
    TocDataModel.deleteOutcome (lit "A") (lit "t")
      (TocDataModel.constructor (Some scenario) (lit "s"))
    = Ok (tt, m')
    /\ TocDataModel.getOutcome (lit "A") m' = Ok None.
Proof.
  assert (Hnd : NoDup (map outcome_id [scenarioA; scenarioB])).
  { repeat constructor; cbn; intuition discriminate. }
  destruct (delete_outcome_gone (lit "A") (lit "t")
              (TocDataModel.constructor (Some scenario) (lit "s"))
              _ eq_refl Hnd)
    as (m' & H1 & H2 & _).
  exists m'. auto.
Defined.

Lemma ids_onOutcomes_assign (p : Outcome -> bool) (f : Outcome -> Outcome)
  (d : Data) :
  (forall o, outcome_id (f o) = outcome_id o) ->
  map outcome_id
      (arrayOf (data_outcomes
                  (TocDataModel.onOutcomes (TocDataModel.assignFirst p f) d)))
  = map outcome_id (arrayOf (data_outcomes d)).
Proof.
  intros H. unfold TocDataModel.onOutcomes. cbn [data_outcomes].
  destruct (data_outcomes d) as [os |]; [| reflexivity].
  cbn [option_map arrayOf]. apply map_assignFirst. exact H.
Qed.

(** X17: every editing method keeps the ids of the outcomes distinct,
    provided that the identifier given to [addOutcome] is not that of an
    outcome already. *)
Theorem outcome_ids_stay_distinct (c : TocDataModel.Call)
  (m m' : TocDataModel.Model) :
  NoDup (map outcome_id (arrayOf (data_outcomes (TocDataModel.getData m)))) ->
  (forall uuid now,
      c = TocDataModel.AddOutcome uuid now ->
      ~ In uuid
           (map outcome_id (arrayOf (data_outcomes (TocDataModel.getData m))))) ->
  TocDataModel.call c m = Ok m' ->
  NoDup (map outcome_id (arrayOf (data_outcomes (TocDataModel.getData m')))).
Proof.
  unfold TocDataModel.getData. intros Hnd Hfresh.
  destruct c; cbn [TocDataModel.call];
    unfold TocDataModel.addOutcome, TocDataModel.deleteOutcome,
      TocDataModel.updateOutcomeStatement, TocDataModel.addOutcomeIndicator,
      TocDataModel.updateOutcomeIndicator, TocDataModel.deleteOutcomeIndicator,
      TocDataModel.addOutput, TocDataModel.updateOutputStatement,
      TocDataModel.deleteOutput, TocDataModel.addOutputIndicator,
      TocDataModel.updateOutputIndicator, TocDataModel.deleteOutputIndicator;
    method_cases; cbn [TocDataModel.after]; intros E;
    try discriminate; injection E as <-;
    cbn [TocDataModel.changed TocDataModel.data];
    unfold TocDataModel.touched; cbn [data_outcomes];
    unfold TocDataModel.inOutput, TocDataModel.inOutcome;
    try (rewrite ?ids_onOutcomes_assign by reflexivity;
         try match goal with
             | H : data_outcomes (TocDataModel.data m) = _ |- _ => rewrite H
             end;
         exact Hnd).
  - (* addOutcome *)
    specialize (Hfresh uuid now eq_refl).
    unfold TocDataModel.onOutcomes. cbn [data_outcomes].
    match goal with
    | H : data_outcomes (TocDataModel.data m) = Some _ |- _ => rewrite H in *
    end.
    cbn [option_map arrayOf] in *. rewrite map_app. cbn [map outcome_id].
    apply NoDup_app; [exact Hnd | repeat constructor; intros [] |].
    intros a Ha [<- | []]. exact (Hfresh Ha).
  - (* deleteOutcome *)
    unfold TocDataModel.onOutcomes. cbn [data_outcomes].
    match goal with
    | H : data_outcomes (TocDataModel.data m) = Some _ |- _ => rewrite H in *
    end.
    cbn [option_map arrayOf] in *. rewrite map_splice.
    apply NoDup_splice. exact Hnd.
Qed.

Lemma outcome_ids_stay_distinct_witness :
  exists m',
    TocDataModel.call (TocDataModel.AddOutcome (lit "C") (lit "t"))
      (TocDataModel.constructor (Some scenario) (lit "s")) = Ok m'
    /\ NoDup (map outcome_id
                  (arrayOf (data_outcomes (TocDataModel.getData m')))).
Proof.
  eexists. split; [reflexivity |].
  apply (outcome_ids_stay_distinct
           (TocDataModel.AddOutcome (lit "C") (lit "t"))
           (TocDataModel.constructor (Some scenario) (lit "s"))).
  - repeat constructor; cbn; intuition discriminate.
  - intros uuid now E. injection E as <- <-. cbn.
    intuition discriminate.
  - reflexivity.
Defined.

(** ** [generateMarkdown]: nothing typed is lost *)

Lemma occursIn_here (s before after : jsstr) :
  occursIn s (before ++ s ++ after).
Proof. exists before, after. reflexivity. Qed.

Lemma occursIn_app_l (s t u : jsstr) : occursIn s t -> occursIn s (t ++ u).
Proof.
  intros (before & after & ->). exists before, (after ++ u).
  rewrite <- !app_assoc. reflexivity.
Qed.

Lemma occursIn_app_r (s t u : jsstr) : occursIn s u -> occursIn s (t ++ u).
Proof.
  intros (before & after & ->). exists (t ++ before), after.
  rewrite <- !app_assoc. reflexivity.
Qed.

Lemma typed_In (s t : jsstr) : In t (typed s) -> t = s /\ truthy s = true.
Proof.
  unfold typed. destruct (truthy s); [| intros []].
  intros [<- | []]. auto.
Qed.

(** A loop whose turns append: it appends the pieces of the items, in
    order. *)
Lemma forEach_grows {A} (f : A -> nat -> jsstr -> Result jsstr)
  (Q : A -> jsstr -> Prop) (l : list A) :
  (forall a i s, In a l -> exists piece, f a i s = Ok (s ++ piece) /\ Q a piece) ->
  forall i s,
    exists pieces,
      Raising.forEach_from f l i s = Ok (s ++ concat pieces)
      /\ Forall2 Q l pieces.
Proof.
  induction l as [|a l IH]; intros Hf i s.
  - exists []. cbn [Raising.forEach_from concat]. rewrite app_nil_r. auto.
  - destruct (Hf a i s (or_introl eq_refl)) as (piece & E & Hq).
    destruct (IH (fun b j t Hb => Hf b j t (or_intror Hb)) (S i) (s ++ piece))
      as (pieces & E' & Hqs).
    exists (piece :: pieces). cbn [Raising.forEach_from concat].
    rewrite E. cbn [Raising.andThen]. rewrite E', <- app_assoc. auto.
Qed.

Lemma texts_in_pieces {A} (T : A -> list jsstr) (l : list A)
  (pieces : list jsstr) :
  Forall2 (fun a piece => forall t, In t (T a) -> occursIn t piece) l pieces ->
  forall t, In t (flat_map T l) -> occursIn t (concat pieces).
Proof.
  induction 1 as [|a piece l pieces Ha _ IH]; intros t Ht; [destruct Ht |].
  cbn [flat_map concat] in *. apply in_app_or in Ht. destruct Ht as [Ht | Ht].
  - apply occursIn_app_l. apply Ha. exact Ht.
  - apply occursIn_app_r. apply IH. exact Ht.
Qed.

Lemma descriptionOf_typed (indicator : Indicator) (t : jsstr) :
  In t (typed (indicator_description indicator)) ->
  exporters.descriptionOf indicator = t.
Proof.
  intros Ht. apply typed_In in Ht. destruct Ht as [-> Ht].
  unfold exporters.descriptionOf. rewrite Ht. reflexivity.
Qed.

Lemma statementOf_typed (statement : option jsstr) (t : jsstr) :
  In t (typed (stringOf statement)) ->
  occursIn t (exporters.statementOf statement).
Proof.
  intros Ht. apply typed_In in Ht. destruct Ht as [-> Ht].
  unfold exporters.statementOf.
  destruct statement as [s |]; cbn [stringOf] in *; [| discriminate].
  cbn [truthyProp exporters.interpolated]. rewrite Ht.
  apply (occursIn_here s []).
Qed.

(** The lines of some indicators, whichever of the two callbacks writes
    them. *)
Lemma indicators_grow (f : option Indicator -> nat -> jsstr -> Result jsstr)
  (bullet : nat -> jsstr) (indicators : list (option Indicator)) (s : jsstr) :
  (forall indicator i s,
      f (Some indicator) i s
      = Ok (s ++ bullet i ++ exporters.descriptionOf indicator ++ exporters.nl)) ->
  forallb isObject indicators = true ->
  exists piece,
    Raising.forEach_from f indicators 0 s = Ok (s ++ piece)
    /\ forall t, In t (indicatorTexts (Some indicators)) -> occursIn t piece.
Proof.
  intros Hf Hobj.
  destruct (forEach_grows f
              (fun entry piece =>
                 forall t,
                   In t match entry with
                        | Some i => typed (indicator_description i)
                        | None => []
                        end ->
                   occursIn t piece)
              indicators) with (i := 0) (s := s) as (pieces & E & Hq).
  - intros entry i s' Hin. rewrite forallb_forall in Hobj.
    specialize (Hobj entry Hin).
    destruct entry as [indicator |]; [| discriminate].
    eexists. split; [apply Hf |].
    intros t Ht. rewrite <- (descriptionOf_typed indicator t Ht).
    apply occursIn_here.
  - exists (concat pieces). split; [exact E |].
    unfold indicatorTexts. cbn [arrayOf].
    apply (texts_in_pieces
             (fun entry => match entry with
                           | Some i => typed (indicator_description i)
                           | None => []
                           end)).
    exact Hq.
Qed.

(** Looks for the place of a text in a concatenation. *)
Ltac occurs_by tac :=
  solve [ tac
        | apply occursIn_app_l; occurs_by tac
        | apply occursIn_app_r; occurs_by tac ].

Lemma outputSection_grows (outcomeIndex : nat) (output : Output)
  (outputIndex : nat) (s : jsstr) :
  TocDataModel.keptOutput (fun id _ => truthy id) output = true ->
  exists piece,
    exporters.outputSection outcomeIndex output outputIndex s = Ok (s ++ piece)
    /\ forall t, In t (outputTexts output) -> occursIn t piece.
Proof.
  intros Hv.
  destruct (keptOutput_parts _ output Hv) as (_ & indicators & Ei & Hobj).
  unfold exporters.outputSection, outputTexts. rewrite Ei.
  cbn [Raising.read Raising.andThen].
  destruct (0 <? length indicators) eqn:En.
  - match goal with
    | |- context [Raising.forEach_from _ _ 0 ?s0] =>
        destruct (indicators_grow exporters.outputIndicator
                    (fun _ => lit "- ") indicators s0 (fun _ _ _ => eq_refl)
                    Hobj)
          as (piece & -> & Hp)
    end.
    cbn [Raising.andThen]. rewrite <- !app_assoc.
    eexists. split; [reflexivity |].
    intros t Ht. apply in_app_or in Ht. destruct Ht as [Ht | Ht].
    + occurs_by ltac:(apply statementOf_typed; exact Ht).
    + occurs_by ltac:(apply Hp; exact Ht).
  - rewrite <- !app_assoc. eexists. split; [reflexivity |].
    intros t Ht. apply in_app_or in Ht. destruct Ht as [Ht | Ht].
    + occurs_by ltac:(apply statementOf_typed; exact Ht).
    + destruct indicators; [destruct Ht | discriminate].
Qed.

Lemma outcomeSection_grows (outcome : Outcome) (outcomeIndex : nat)
  (s : jsstr) :
  TocDataModel.keptOutcome (fun id _ => truthy id) (fun id _ => truthy id)
                           outcome = true ->
  exists piece,
    exporters.outcomeSection outcome outcomeIndex s = Ok (s ++ piece)
    /\ forall t, In t (outcomeTexts outcome) -> occursIn t piece.
Proof.
  intros Hv.
  destruct (keptOutcome_parts _ _ outcome Hv)
    as (_ & indicators & outputs & Ei & Hobj & Eo & Ho).
  assert (Hinds : forall s0,
             exists piece,
               (if 0 <? length indicators
                then Raising.andThen
                       (Raising.forEach_from exporters.outcomeIndicator
                          indicators 0
                          (s0 ++ lit "**Indicators:**" ++ exporters.nl
                           ++ exporters.nl))
                       (fun markdown => Ok (markdown ++ exporters.nl))
                else Ok s0) = Ok (s0 ++ piece)
               /\ forall t, In t (indicatorTexts (Some indicators))
                            -> occursIn t piece).
  { intros s0. destruct (0 <? length indicators) eqn:En.
    - match goal with
      | |- context [Raising.forEach_from _ _ 0 ?s1] =>
          destruct (indicators_grow exporters.outcomeIndicator
                      (fun i => ofNat (i + 1) ++ lit ". ") indicators s1)
            as (piece & -> & Hp)
      end.
      + intros indicator i s'. unfold exporters.outcomeIndicator.
        cbn [Raising.read Raising.andThen].
        rewrite <- !app_assoc. reflexivity.
      + exact Hobj.
      + cbn [Raising.andThen]. rewrite <- !app_assoc.
        eexists. split; [reflexivity |].
        intros t Ht. occurs_by ltac:(apply Hp; exact Ht).
    - exists []. rewrite app_nil_r. split; [reflexivity |].
      destruct indicators; [intros t [] | discriminate]. }
  assert (Houts : forall s0,
             exists piece,
               (if 0 <? length outputs
                then Raising.forEach_from
                       (exporters.outputSection outcomeIndex) outputs 0
                       (s0 ++ lit "**Outputs:**" ++ exporters.nl
                        ++ exporters.nl)
                else Ok s0) = Ok (s0 ++ piece)
               /\ forall t, In t (flat_map outputTexts outputs)
                            -> occursIn t piece).
  { intros s0. destruct (0 <? length outputs) eqn:En.
    - match goal with
      | |- context [Raising.forEach_from _ _ 0 ?s1] =>
          destruct (forEach_grows (exporters.outputSection outcomeIndex)
                      (fun o piece => forall t, In t (outputTexts o)
                                                -> occursIn t piece)
                      outputs) with (i := 0) (s := s1) as (pieces & -> & Hq)
      end.
      + intros o i s' Hin. apply outputSection_grows.
        rewrite forallb_forall in Ho. apply Ho. exact Hin.
      + rewrite <- !app_assoc. eexists. split; [reflexivity |].
        intros t Ht.
        occurs_by ltac:(apply (texts_in_pieces outputTexts outputs); assumption).
    - exists []. rewrite app_nil_r. split; [reflexivity |].
      destruct outputs; [intros t [] | discriminate]. }
  unfold exporters.outcomeSection, outcomeTexts. rewrite Ei, Eo.
  cbn [Raising.read Raising.andThen arrayOf].
  match goal with
  | |- context [Raising.andThen (if _ then _ else Ok ?s0)] =>
      destruct (Hinds s0) as (p1 & -> & H1)
  end.
  cbn [Raising.andThen].
  match goal with
  | |- context [Raising.andThen (if _ then _ else Ok ?s0)] =>
      destruct (Houts s0) as (p2 & -> & H2)
  end.
  cbn [Raising.andThen]. rewrite <- !app_assoc.
  eexists. split; [reflexivity |].
  intros t Ht. apply in_app_or in Ht. destruct Ht as [Ht | Ht];
    [| apply in_app_or in Ht; destruct Ht as [Ht | Ht]].
  - occurs_by ltac:(apply statementOf_typed; exact Ht).
  - occurs_by ltac:(apply H1; exact Ht).
  - occurs_by ltac:(apply H2; exact Ht).
Qed.

Lemma outcomes_grow (outcomes : list Outcome) (s : jsstr) :
  forallb (TocDataModel.keptOutcome (fun id _ => truthy id)
                                    (fun id _ => truthy id)) outcomes = true ->
  exists piece,
    (if 0 <? length outcomes
     then Raising.forEach_from exporters.outcomeSection outcomes 0
            (s ++ lit "## Outcomes" ++ exporters.nl ++ exporters.nl)
     else Ok ((s ++ lit "## Outcomes" ++ exporters.nl ++ exporters.nl)
              ++ lit "*No outcomes defined yet*" ++ exporters.nl
              ++ exporters.nl))
    = Ok (s ++ piece)
    /\ forall t, In t (flat_map outcomeTexts outcomes) -> occursIn t piece.
Proof.
  intros Hk. destruct (0 <? length outcomes) eqn:En.
  - match goal with
    | |- context [Raising.forEach_from _ _ 0 ?s1] =>
        destruct (forEach_grows exporters.outcomeSection
                    (fun o piece => forall t, In t (outcomeTexts o)
                                              -> occursIn t piece)
                    outcomes) with (i := 0) (s := s1) as (pieces & -> & Hq)
    end.
    + intros o i s' Hin. apply outcomeSection_grows.
      rewrite forallb_forall in Hk. apply Hk. exact Hin.
    + rewrite <- !app_assoc. eexists. split; [reflexivity |].
      intros t Ht.
      occurs_by ltac:(apply (texts_in_pieces outcomeTexts outcomes);
                      assumption).
  - rewrite <- !app_assoc. eexists. split; [reflexivity |].
    destruct outcomes; [intros t [] | discriminate].
Qed.

(** X18: on a snapshot that [isValidData] accepts and whose arrays of
    indicators hold objects only, [generateMarkdown] raises only if
    [formatDate] does, and the document it returns holds every statement
    and every description that is not empty, in full. *)
Theorem markdown_keeps_what_is_typed (generated : Result jsstr)
  (formatDate : jsstr -> Result jsstr) (data : Data) :
  isValidData data = true ->
  objectsOnly data = true ->
  (exists date, generated = Ok date) ->
  (truthyProp (data_lastModified data) = true ->
   exists date, formatDate (stringOf (data_lastModified data)) = Ok date) ->
  exists markdown,
    exporters.generateMarkdown generated formatDate data = Ok markdown
    /\ forall t, In t (textsOf data) -> occursIn t markdown.
Proof.
  intros Hv Hobj [date ->] Hlm.
  assert (Hk : isValidData data && objectsOnly data = true)
    by (rewrite Hv, Hobj; reflexivity).
  rewrite isValidData_kept in Hk. clear Hv Hobj.
  apply andb_true_iff in Hk. destruct Hk as [Hk Hv].
  apply andb_true_iff in Hk. destruct Hk as [_ Hi].
  unfold TocDataModel.kept in Hv.
  destruct (data_impact data) as [impact |] eqn:Ei; [| discriminate].
  destruct (data_outcomes data) as [outcomes |] eqn:Eo; [| discriminate].
  assert (Hst : forall t, In t (typed (stringOf (impact_statement impact))) ->
                          exporters.interpolated (impact_statement impact) = t).
  { intros t Ht. apply typed_In in Ht. destruct Ht as [-> Ht].
    destruct (impact_statement impact); [reflexivity | discriminate Ht]. }
  unfold exporters.generateMarkdown, textsOf. rewrite Ei, Eo.
  cbn [Raising.andThen Raising.read arrayOf].
  destruct (truthyProp (data_lastModified data)) eqn:El.
  - destruct (Hlm eq_refl) as [date0 E]. rewrite E.
    cbn [Raising.andThen].
    match goal with
    | |- context [Raising.forEach_from _ _ 0 (?s1 ++ _)] =>
        destruct (outcomes_grow outcomes s1 Hv) as (piece & -> & Hp)
    end.
    eexists. split; [reflexivity |].
    intros t Ht. apply in_app_or in Ht. destruct Ht as [Ht | Ht].
    + rewrite <- (Hst t Ht). occurs_by ltac:(apply occursIn_here).
    + occurs_by ltac:(apply Hp; exact Ht).
  - cbn [Raising.andThen].
    match goal with
    | |- context [Raising.forEach_from _ _ 0 (?s1 ++ _)] =>
        destruct (outcomes_grow outcomes s1 Hv) as (piece & -> & Hp)
    end.
    eexists. split; [reflexivity |].
    intros t Ht. apply in_app_or in Ht. destruct Ht as [Ht | Ht].
    + rewrite <- (Hst t Ht). occurs_by ltac:(apply occursIn_here).
    + occurs_by ltac:(apply Hp; exact Ht).
Qed.

Lemma markdown_keeps_what_is_typed_witness :
  exists markdown,
    exporters.generateMarkdown (Ok (lit "today")) (fun s => Ok s) scenario
    = Ok markdown
    /\ occursIn (lit "Shared Thing") markdown.
Proof.
  destruct (markdown_keeps_what_is_typed (Ok (lit "today")) (fun s => Ok s)
              scenario eq_refl eq_refl)
    as (markdown & E & H).
  - eexists. reflexivity.
  - discriminate.
  - exists markdown. split; [exact E |]. apply H.
    cbn. right. right. left. reflexivity.
Defined.

(** ** [renderSVGVisualization] *)

Lemma childrenOf_withChildren (id : jsstr) (h : list Child -> list Child)
  (page : Page) :
  childrenOf id (withChildren id h page) = option_map h (childrenOf id page).
Proof.
  unfold childrenOf, getElementById, withChildren. cbn [elements].
  induction (elements page) as [|e l IH]; [reflexivity |].
  cbn [find TocDataModel.assignFirst]. destruct (hasId id e) eqn:Ee.
  - cbn [find]. unfold hasId in *. cbn [fst]. rewrite Ee. reflexivity.
  - cbn [find]. rewrite Ee. exact IH.
Qed.

Lemma childrenOf_withChildren_other (id other : jsstr)
  (h : list Child -> list Child) (page : Page) :
  other <> id ->
  childrenOf other (withChildren id h page) = childrenOf other page.
Proof.
  intros Hne. unfold childrenOf, getElementById, withChildren. cbn [elements].
  f_equal. apply find_assignFirst_other.
  intros e He. unfold hasId in *. cbn [fst]. apply jsstr_eqb_eq in He.
  assert (JsString.eqb (fst e) other = false)
    by (apply jsstr_eqb_neq; congruence).
  auto.
Qed.

Lemma withChildren_twice (id : jsstr) (h h' : list Child -> list Child)
  (page : Page) :
  withChildren id h' (withChildren id h page)
  = withChildren id (fun children => h' (h children)) page.
Proof.
  unfold withChildren. cbn [elements console]. f_equal.
  induction (elements page) as [|e l IH]; [reflexivity |].
  cbn [TocDataModel.assignFirst]. destruct (hasId id e) eqn:Ee.
  - cbn [TocDataModel.assignFirst]. unfold hasId in *. cbn [fst snd].
    rewrite Ee. reflexivity.
  - cbn [TocDataModel.assignFirst]. rewrite Ee, IH. reflexivity.
Qed.

Lemma render_found (dataModel : TocDataModel.Model) (containerId : jsstr)
  (page : Page) (held : list Child) :
  childrenOf containerId page = Some held ->
  renderSVGVisualization dataModel containerId page
  = match generateSVGVisualization (TocDataModel.getData dataModel) with
    | Ok svg => (withChildren containerId (fun _ => [Drawing svg]) page, Ok tt)
    | Throw e => (withChildren containerId (fun _ => []) page, Throw e)
    end.
Proof.
  unfold childrenOf, renderSVGVisualization.
  destruct (getElementById containerId page); [| discriminate].
  intros _.
  destruct (generateSVGVisualization (TocDataModel.getData dataModel));
    [| reflexivity].
  rewrite withChildren_twice. reflexivity.
Qed.

Lemma render_missing (dataModel : TocDataModel.Model) (containerId : jsstr)
  (page : Page) :
  childrenOf containerId page = None ->
  renderSVGVisualization dataModel containerId page
  = ({| elements := elements page;
        console := console page
                   ++ [lit "Container " ++ containerId ++ lit " not found"] |},
     Ok tt).
Proof.
  unfold childrenOf, renderSVGVisualization.
  destruct (getElementById containerId page); [discriminate | reflexivity].
Qed.

(** X19: when the engine raises on the snapshot of the model,
    [renderSVGVisualization] raises as well, and it has emptied the
    container by then: what the container held is lost, the other
    elements keeping their children. *)
Theorem render_failure_empties_container (dataModel : TocDataModel.Model)
  (containerId : jsstr) (page : Page) (held : list Child) (e : Exception) :
  childrenOf containerId page = Some held ->
  generateSVGVisualization (TocDataModel.getData dataModel) = Throw e ->
  let after := renderSVGVisualization dataModel containerId page in
  snd after = Throw e
  /\ childrenOf containerId (fst after) = Some []
  /\ forall other, other <> containerId ->
                   childrenOf other (fst after) = childrenOf other page.
Proof.
  intros Ec Eg. cbv zeta. rewrite (render_found _ _ _ held Ec), Eg.
  cbn [fst snd]. split; [reflexivity |]. split.
  - rewrite childrenOf_withChildren, Ec. reflexivity.
  - intros other Hne. apply childrenOf_withChildren_other. exact Hne.
Qed.

Lemma render_failure_empties_container_witness :
  exists e,
    snd (renderSVGVisualization
           (TocDataModel.constructor (Some outputWithoutStatement) [])
           (lit "c")
           {| elements := [(lit "c", [Other (lit "old")])]; console := [] |})
    = Throw e.
Proof.
  destruct (generateSVGVisualization outputWithoutStatement) as [svg | e] eqn:Eg;
    [vm_compute in Eg; discriminate |].
  exists e.
  apply (render_failure_empties_container
           (TocDataModel.constructor (Some outputWithoutStatement) [])
           (lit "c")
           {| elements := [(lit "c", [Other (lit "old")])]; console := [] |}
           [Other (lit "old")] e eq_refl Eg).
Defined.

(** X20: rendering twice is rendering once, as to the elements of the page
    and to what the call returns or raises. *)
Theorem render_twice_is_render_once (dataModel : TocDataModel.Model)
  (containerId : jsstr) (page : Page) :
  let once := renderSVGVisualization dataModel containerId page in
  let twice := renderSVGVisualization dataModel containerId (fst once) in
  elements (fst twice) = elements (fst once) /\ snd twice = snd once.
Proof.
  cbv zeta. destruct (childrenOf containerId page) as [held |] eqn:Ec.
  - rewrite (render_found _ _ page held Ec).
    destruct (generateSVGVisualization (TocDataModel.getData dataModel))
      as [svg | err] eqn:Eg; cbn [fst snd].
    + rewrite (render_found _ _ _ [Drawing svg]), Eg
        by (rewrite childrenOf_withChildren, Ec; reflexivity).
      cbn [fst snd]. rewrite withChildren_twice. auto.
    + rewrite (render_found _ _ _ []), Eg
        by (rewrite childrenOf_withChildren, Ec; reflexivity).
      cbn [fst snd]. rewrite withChildren_twice. auto.
  - rewrite (render_missing _ _ page Ec). cbn [fst snd].
    rewrite render_missing by exact Ec. auto.
Qed.

(** X21: a model built without initial data and edited by any calls of
    its methods is rendered without an exception, and the container, when
    the page has it, then holds one [svg] and nothing else, with a node for
    the impact and a node per outcome of the model, at least. *)
Theorem render_edited_model (now : jsstr) (cs : list TocDataModel.Call)
  (containerId : jsstr) (page : Page) :
  exists m,
    TocDataModel.calls cs (TocDataModel.constructor None now) = Ok m
    /\ snd (renderSVGVisualization m containerId page) = Ok tt
    /\ forall held,
         childrenOf containerId page = Some held ->
         exists svg,
           childrenOf containerId
             (fst (renderSVGVisualization m containerId page))
           = Some [Drawing svg]
           /\ 1 + length (arrayOf (data_outcomes (TocDataModel.getData m)))
              <= length (nodes svg).
Proof.
  destruct (calls_shaped now cs)
    as (m & E & Hs).
  exists m. split; [exact E |].
  destruct (scene_parts _ Hs)
    as (svg & st & outcomes & Eg & _ & Eo & _ & _ & _ & _ & _ & En & _).
  destruct (childrenOf containerId page) as [held |] eqn:Ec.
  - rewrite (render_found _ _ page held Ec). unfold TocDataModel.getData.
    rewrite Eg. cbn [fst snd]. split; [reflexivity |].
    intros held' _. exists svg. split.
    + rewrite childrenOf_withChildren, Ec. reflexivity.
    + rewrite Eo, En. cbn [arrayOf length].
      rewrite length_app, !mapi_from_length. lia.
  - rewrite (render_missing _ _ page Ec). split; [reflexivity |].
    discriminate.
Qed.

(** ** [generatePreview]: everything is listed *)

Lemma forEach_collects {A X} (f : A -> nat -> list X -> Result (list X))
  (Q : A -> X -> Prop) (l : list A) :
  (forall a i s, In a l -> exists item, f a i s = Ok (s ++ [item]) /\ Q a item) ->
  forall i s,
    exists items,
      Raising.forEach_from f l i s = Ok (s ++ items)
      /\ Forall2 Q l items.
Proof.
  induction l as [|a l IH]; intros Hf i s.
  - exists []. cbn [Raising.forEach_from]. rewrite app_nil_r. auto.
  - destruct (Hf a i s (or_introl eq_refl)) as (item & E & Hq).
    destruct (IH (fun b j t Hb => Hf b j t (or_intror Hb)) (S i) (s ++ [item]))
      as (items & E' & Hqs).
    exists (item :: items). cbn [Raising.forEach_from].
    rewrite E. cbn [Raising.andThen]. rewrite E', <- app_assoc. auto.
Qed.

Lemma texts_in_items {A} (T : A -> list jsstr) (l : list A)
  (items : list preview.Node) :
  Forall2 (fun a item => incl (T a) (preview.textsIn item)) l items ->
  incl (flat_map T l) (flat_map preview.textsIn items).
Proof.
  induction 1 as [|a item l items Ha _ IH]; [intros t [] |].
  cbn [flat_map]. apply incl_app.
  - apply incl_appl. exact Ha.
  - apply incl_appr. exact IH.
Qed.

Lemma ofClass_items {A} (c : jsstr) (g : A -> nat) (l : list A)
  (items : list preview.Node) :
  Forall2 (fun a item => preview.ofClass c item = g a) l items ->
  list_sum (map (preview.ofClass c) items) = list_sum (map g l).
Proof.
  induction 1 as [|a item l items Ha _ IH]; [reflexivity |].
  cbn [map]. change (list_sum (?x :: ?r)) with (x + list_sum r).
  rewrite Ha, IH. reflexivity.
Qed.

Lemma Forall2_and {A B} (P Q : A -> B -> Prop) (l : list A) (l' : list B) :
  Forall2 (fun a b => P a b /\ Q a b) l l' ->
  Forall2 P l l' /\ Forall2 Q l l'.
Proof.
  induction 1 as [|a b l l' [Hp Hq] _ [IHp IHq]]; split; constructor; auto.
Qed.

Lemma textsIn_Element (tagName className : jsstr)
  (childNodes : list preview.Node) :
  preview.textsIn (preview.Element tagName className childNodes)
  = flat_map preview.textsIn childNodes.
Proof. reflexivity. Qed.

Lemma ofClass_Element (c tagName className : jsstr)
  (childNodes : list preview.Node) :
  preview.ofClass c (preview.Element tagName className childNodes)
  = (if JsString.eqb className c then 1 else 0)
    + list_sum (map (preview.ofClass c) childNodes).
Proof. reflexivity. Qed.

Lemma list_sum_const {A} (k : nat) (l : list A) :
  list_sum (map (fun _ => k) l) = k * length l.
Proof.
  induction l as [|a l IH]; [cbn; lia |].
  cbn [map length]. change (list_sum (?x :: ?r)) with (x + list_sum r).
  rewrite IH. lia.
Qed.

Lemma orElse_typed (statement : option jsstr) (fallback t : jsstr) :
  In t (typed (stringOf statement)) ->
  preview.orElse statement fallback = t.
Proof.
  intros Ht. apply typed_In in Ht. destruct Ht as [-> Ht].
  unfold preview.orElse.
  destruct statement as [s |]; cbn [stringOf truthyProp] in *;
    [rewrite Ht; reflexivity | discriminate].
Qed.

(** The list of some indicators that are objects: it holds their
    descriptions, and no item of an outcome or of an output. *)
Lemma createIndicatorsList_facts (indicators : list (option Indicator))
  (type : jsstr) :
  forallb isObject indicators = true ->
  exists node,
    preview.createIndicatorsList indicators type = Ok node
    /\ incl (indicatorTexts (Some indicators)) (preview.textsIn node)
    /\ preview.ofClass (lit "outcome-item") node = 0
    /\ preview.ofClass (lit "output-item") node = 0.
Proof.
  intros Hobj. unfold preview.createIndicatorsList.
  destruct (forEach_collects preview.indicatorItem
              (fun entry item =>
                 incl match entry with
                      | Some i => typed (indicator_description i)
                      | None => []
                      end
                      (preview.textsIn item)
                 /\ preview.ofClass (lit "outcome-item") item = 0
                 /\ preview.ofClass (lit "output-item") item = 0)
              indicators) with (i := 0) (s := @nil preview.Node)
    as (items & E & Hq).
  - intros entry i s Hin. rewrite forallb_forall in Hobj.
    specialize (Hobj entry Hin).
    destruct entry as [indicator |]; [| discriminate].
    eexists. split; [reflexivity |]. split; [| split; reflexivity].
    intros t Ht. apply typed_In in Ht. destruct Ht as [-> Ht]. left.
    unfold preview.orElse. cbn [truthyProp stringOf]. rewrite Ht.
    reflexivity.
  - cbv zeta. rewrite E. cbn [Raising.andThen app].
    apply Forall2_and in Hq. destruct Hq as [Ht Hq].
    apply Forall2_and in Hq. destruct Hq as [H1 H0].
    eexists. split; [reflexivity |]. split; [| split].
    + rewrite textsIn_Element. cbn [flat_map].
      rewrite !textsIn_Element. cbn [flat_map preview.textsIn app].
      rewrite app_nil_r. unfold indicatorTexts. cbn [arrayOf].
      apply (texts_in_items
               (fun entry => match entry with
                             | Some i => typed (indicator_description i)
                             | None => []
                             end)).
      exact Ht.
    + rewrite ofClass_Element. cbn [map].
      rewrite !ofClass_Element.
      change (list_sum (?x :: ?y :: [])) with (x + (y + 0)).
      rewrite (ofClass_items _ (fun _ => 0) indicators items H1).
      rewrite list_sum_const. reflexivity.
    + rewrite ofClass_Element. cbn [map].
      rewrite !ofClass_Element.
      change (list_sum (?x :: ?y :: [])) with (x + (y + 0)).
      rewrite (ofClass_items _ (fun _ => 0) indicators items H0).
      rewrite list_sum_const. reflexivity.
Qed.

(** The children of an item after the list of its indicators was appended,
    when there are some. *)
Lemma indicators_children (indicators : list (option Indicator))
  (type : jsstr) (first : preview.Node) :
  forallb isObject indicators = true ->
  exists children,
    (if 0 <? length indicators
     then Raising.andThen (preview.createIndicatorsList indicators type)
            (fun indicatorsDiv => Ok [first; indicatorsDiv])
     else Ok [first]) = Ok (first :: children)
    /\ incl (indicatorTexts (Some indicators))
            (flat_map preview.textsIn children)
    /\ list_sum (map (preview.ofClass (lit "outcome-item")) children) = 0
    /\ list_sum (map (preview.ofClass (lit "output-item")) children) = 0.
Proof.
  intros Hobj. destruct (0 <? length indicators) eqn:En.
  - destruct (createIndicatorsList_facts indicators type Hobj)
      as (node & -> & Ht & H1 & H0).
    cbn [Raising.andThen]. exists [node]. split; [reflexivity |].
    cbn [flat_map map]. rewrite app_nil_r.
    change (list_sum (?x :: [])) with (x + 0). rewrite H1, H0. auto.
  - exists []. split; [reflexivity |]. split; [| split; reflexivity].
    destruct indicators; [intros t [] | discriminate].
Qed.

Lemma outputItem_facts (output : Output) (index : nat)
  (items : list preview.Node) :
  TocDataModel.keptOutput (fun id _ => truthy id) output = true ->
  exists item,
    preview.outputItem output index items = Ok (items ++ [item])
    /\ incl (outputTexts output) (preview.textsIn item)
    /\ preview.ofClass (lit "output-item") item = 1
    /\ preview.ofClass (lit "outcome-item") item = 0.
Proof.
  intros Hv.
  destruct (keptOutput_parts _ output Hv) as (_ & indicators & Ei & Hobj).
  unfold preview.outputItem, outputTexts. rewrite Ei.
  cbv zeta. cbn [Raising.read Raising.andThen].
  match goal with
  | |- context [if _ then _ else Ok [?first]] =>
      destruct (indicators_children indicators (lit "output") first Hobj)
        as (children & E & Ht & H1 & H0)
  end.
  rewrite E. cbn [Raising.andThen].
  eexists. split; [reflexivity |]. split; [| split].
  - rewrite textsIn_Element. cbn [flat_map]. apply incl_app.
    + intros t H. apply in_or_app. left.
      cbn [preview.textsIn flat_map app].
      right. left. apply orElse_typed. exact H.
    + apply incl_appr. exact Ht.
  - rewrite ofClass_Element. cbn [map].
    change (list_sum (?x :: ?r)) with (x + list_sum r).
    rewrite H0. reflexivity.
  - rewrite ofClass_Element. cbn [map].
    change (list_sum (?x :: ?r)) with (x + list_sum r).
    rewrite H1. reflexivity.
Qed.

Lemma createOutputsList_facts (outputs : list Output) :
  forallb (TocDataModel.keptOutput (fun id _ => truthy id)) outputs = true ->
  exists node,
    preview.createOutputsList outputs = Ok node
    /\ incl (flat_map outputTexts outputs) (preview.textsIn node)
    /\ preview.ofClass (lit "output-item") node = length outputs
    /\ preview.ofClass (lit "outcome-item") node = 0.
Proof.
  intros Hv. unfold preview.createOutputsList.
  destruct (forEach_collects preview.outputItem
              (fun o item =>
                 incl (outputTexts o) (preview.textsIn item)
                 /\ preview.ofClass (lit "output-item") item = 1
                 /\ preview.ofClass (lit "outcome-item") item = 0)
              outputs) with (i := 0) (s := @nil preview.Node)
    as (items & E & Hq).
  - intros o i s Hin. apply outputItem_facts.
    rewrite forallb_forall in Hv. apply Hv. exact Hin.
  - cbv zeta. rewrite E. cbn [Raising.andThen app].
    apply Forall2_and in Hq. destruct Hq as [Ht Hq].
    apply Forall2_and in Hq. destruct Hq as [H1 H0].
    eexists. split; [reflexivity |]. split; [| split].
    + rewrite textsIn_Element. cbn [flat_map].
      rewrite !textsIn_Element. cbn [flat_map preview.textsIn app].
      rewrite app_nil_r. apply (texts_in_items outputTexts). exact Ht.
    + rewrite ofClass_Element. cbn [map]. rewrite !ofClass_Element.
      change (list_sum (?x :: ?y :: [])) with (x + (y + 0)).
      rewrite (ofClass_items _ (fun _ => 1) outputs items H1).
      rewrite list_sum_const.
      change (JsString.eqb (lit "outputs-container") (lit "output-item"))
        with false.
      change (JsString.eqb (lit "subsection-header") (lit "output-item"))
        with false.
      change (JsString.eqb (lit "outputs-list") (lit "output-item"))
        with false.
      cbn [map list_sum fold_right preview.ofClass]. cbn iota. lia.
    + rewrite ofClass_Element. cbn [map]. rewrite !ofClass_Element.
      change (list_sum (?x :: ?y :: [])) with (x + (y + 0)).
      rewrite (ofClass_items _ (fun _ => 0) outputs items H0).
      rewrite list_sum_const. reflexivity.
Qed.

(** The children of the item of an outcome after the list of its outputs
    was appended, when there are some. *)
Lemma outputs_children (outputs : list Output)
  (children : list preview.Node) :
  forallb (TocDataModel.keptOutput (fun id _ => truthy id)) outputs = true ->
  exists more,
    (if 0 <? length outputs
     then Raising.andThen (preview.createOutputsList outputs)
            (fun outputsDiv => Ok (children ++ [outputsDiv]))
     else Ok children) = Ok (children ++ more)
    /\ incl (flat_map outputTexts outputs) (flat_map preview.textsIn more)
    /\ list_sum (map (preview.ofClass (lit "outcome-item")) more) = 0
    /\ list_sum (map (preview.ofClass (lit "output-item")) more)
       = length outputs.
Proof.
  intros Hv. destruct (0 <? length outputs) eqn:En.
  - destruct (createOutputsList_facts outputs Hv)
      as (node & -> & Ht & H1 & H0).
    cbn [Raising.andThen]. exists [node]. split; [reflexivity |].
    cbn [flat_map map]. rewrite app_nil_r.
    change (list_sum (?x :: [])) with (x + 0). rewrite H1, H0.
    split; [exact Ht |]. split; [reflexivity | lia].
  - exists []. rewrite app_nil_r. split; [reflexivity |].
    destruct outputs; [| discriminate].
    split; [intros t [] |]. split; reflexivity.
Qed.

Lemma createOutcomeItem_facts (outcome : Outcome) (index : nat) :
  TocDataModel.keptOutcome (fun id _ => truthy id) (fun id _ => truthy id)
                           outcome = true ->
  exists item,
    preview.createOutcomeItem outcome index = Ok item
    /\ incl (outcomeTexts outcome) (preview.textsIn item)
    /\ preview.ofClass (lit "outcome-item") item = 1
    /\ preview.ofClass (lit "output-item") item
       = length (arrayOf (outcome_outputs outcome)).
Proof.
  intros Hv.
  destruct (keptOutcome_parts _ _ outcome Hv)
    as (_ & indicators & outputs & Ei & Hobj & Eo & Ho).
  unfold preview.createOutcomeItem, outcomeTexts. rewrite Ei, Eo.
  cbv zeta. cbn [Raising.read Raising.andThen arrayOf].
  match goal with
  | |- context [if _ then _ else Ok [?first]] =>
      destruct (indicators_children indicators (lit "outcome") first Hobj)
        as (children & E & Ht & H1 & H0);
      rewrite E; cbn [Raising.andThen];
      destruct (outputs_children outputs (first :: children) Ho)
        as (more & E' & Ht' & H1' & H0')
  end.
  rewrite E'. cbn [Raising.andThen].
  eexists. split; [reflexivity |]. split; [| split].
  - rewrite textsIn_Element. cbn [app flat_map]. rewrite flat_map_app.
    apply incl_app; [| apply incl_app].
    + intros t H. apply in_or_app. left.
      cbn [preview.textsIn flat_map app].
      right. left. apply orElse_typed. exact H.
    + apply incl_appr. apply incl_appl. exact Ht.
    + apply incl_appr. apply incl_appr. exact Ht'.
  - rewrite ofClass_Element. cbn [app map].
    change (list_sum (?x :: ?r)) with (x + list_sum r).
    rewrite map_app, list_sum_app, H1, H1'. reflexivity.
  - rewrite ofClass_Element. cbn [app map].
    change (list_sum (?x :: ?r)) with (x + list_sum r).
    rewrite map_app, list_sum_app, H0, H0'.
    change (JsString.eqb (lit "outcome-item") (lit "output-item"))
      with false.
    cbn [preview.ofClass map list_sum fold_right].
    change (JsString.eqb (lit "outcome-content") (lit "output-item"))
      with false.
    change (JsString.eqb (lit "item-number") (lit "output-item"))
      with false.
    change (JsString.eqb [] (lit "output-item")) with false.
    cbn iota. lia.
Qed.

Lemma createOutcomesSection_facts (outcomes : list Outcome) :
  forallb (TocDataModel.keptOutcome (fun id _ => truthy id)
                                    (fun id _ => truthy id)) outcomes = true ->
  exists node,
    preview.createOutcomesSection outcomes = Ok node
    /\ incl ((lit "OUTCOMES (" ++ ofNat (length outcomes) ++ lit ")")
             :: flat_map outcomeTexts outcomes)
            (preview.textsIn node)
    /\ preview.ofClass (lit "outcome-item") node = length outcomes
    /\ preview.ofClass (lit "output-item") node
       = list_sum (map (fun o => length (arrayOf (outcome_outputs o)))
                       outcomes).
Proof.
  intros Hv. unfold preview.createOutcomesSection.
  destruct (forEach_collects preview.outcomeItem
              (fun o item =>
                 incl (outcomeTexts o) (preview.textsIn item)
                 /\ preview.ofClass (lit "outcome-item") item = 1
                 /\ preview.ofClass (lit "output-item") item
                    = length (arrayOf (outcome_outputs o)))
              outcomes) with (i := 0) (s := @nil preview.Node)
    as (items & E & Hq).
  - intros o i s Hin. unfold preview.outcomeItem.
    destruct (createOutcomeItem_facts o (i + 1)) as (item & -> & H).
    + rewrite forallb_forall in Hv. apply Hv. exact Hin.
    + exists item. split; [reflexivity | exact H].
  - rewrite E. cbn [Raising.andThen app].
    apply Forall2_and in Hq. destruct Hq as [Ht Hq].
    apply Forall2_and in Hq. destruct Hq as [H1 H0].
    eexists. split; [reflexivity |]. split; [| split].
    + cbn [preview.textsIn flat_map app]. rewrite app_nil_r.
      apply incl_cons; [left; reflexivity |].
      apply incl_tl. apply (texts_in_items outcomeTexts). exact Ht.
    + cbn [preview.ofClass map list_sum fold_right].
      fold (list_sum (map (preview.ofClass (lit "outcome-item")) items)).
      rewrite (ofClass_items _ (fun _ => 1) outcomes items H1).
      rewrite list_sum_const.
      change (JsString.eqb (lit "preview-level outcomes-level")
                           (lit "outcome-item")) with false.
      change (JsString.eqb (lit "level-header") (lit "outcome-item"))
        with false.
      change (JsString.eqb (lit "level-badge outcomes-badge")
                           (lit "outcome-item")) with false.
      change (JsString.eqb (lit "outcomes-list") (lit "outcome-item"))
        with false.
      cbn iota. lia.
    + cbn [preview.ofClass map list_sum fold_right].
      fold (list_sum (map (preview.ofClass (lit "output-item")) items)).
      rewrite (ofClass_items _ _ outcomes items H0).
      change (JsString.eqb (lit "preview-level outcomes-level")
                           (lit "output-item")) with false.
      change (JsString.eqb (lit "level-header") (lit "output-item"))
        with false.
      change (JsString.eqb (lit "level-badge outcomes-badge")
                           (lit "output-item")) with false.
      change (JsString.eqb (lit "outcomes-list") (lit "output-item"))
        with false.
      cbn iota. lia.
Qed.

(** X22: on a snapshot that [isValidData] accepts and whose arrays of
    indicators hold objects only, [generatePreview] does not raise; the
    tree it returns has one item per outcome and one item per output of the
    snapshot, the outputs that the diagram merges being listed each under
    its outcome; and its texts hold every statement and every description
    that is not empty, in full. *)
Theorem preview_lists_everything (data : Data) :
  isValidData data = true ->
  objectsOnly data = true ->
  exists node outcomes,
    preview.generatePreview data = Ok node
    /\ data_outcomes data = Some outcomes
    /\ preview.ofClass (lit "outcome-item") node = length outcomes
    /\ preview.ofClass (lit "output-item") node
       = list_sum (map (fun o => length (arrayOf (outcome_outputs o)))
                       outcomes)
    /\ incl (textsOf data) (preview.textsIn node).
Proof.
  intros Hv Hobj.
  assert (Hk : isValidData data && objectsOnly data = true)
    by (rewrite Hv, Hobj; reflexivity).
  rewrite isValidData_kept in Hk. clear Hv Hobj.
  apply andb_true_iff in Hk. destruct Hk as [Hk Hv].
  apply andb_true_iff in Hk. destruct Hk as [_ Hi].
  unfold TocDataModel.kept in Hv.
  destruct (data_impact data) as [impact |] eqn:Ei; [| discriminate].
  rename Hi into Est.
  destruct (data_outcomes data) as [outcomes |] eqn:Eo; [| discriminate].
  unfold preview.generatePreview, preview.createImpactSection, textsOf.
  rewrite Ei, Eo. cbn [Raising.read Raising.andThen arrayOf].
  unfold preview.setTextContent. rewrite Est.
  assert (Hst : incl (typed (stringOf (impact_statement impact)))
                     [stringOf (impact_statement impact)]).
  { intros t Ht. apply typed_In in Ht. left. symmetry. apply Ht. }
  destruct (0 <? length outcomes) eqn:En.
  - destruct (createOutcomesSection_facts outcomes Hv)
      as (level & -> & Ht & H1 & H0).
    cbn [Raising.andThen]. eexists. exists outcomes.
    split; [reflexivity |]. split; [reflexivity |].
    split; [| split].
    + cbn [preview.ofClass map list_sum fold_right preview.createLegend].
      fold (preview.ofClass (lit "outcome-item") level). rewrite H1.
      change (JsString.eqb (lit "preview-container") (lit "outcome-item"))
        with false.
      change (JsString.eqb (lit "preview-title") (lit "outcome-item"))
        with false.
      change (JsString.eqb (lit "logic-chain") (lit "outcome-item"))
        with false.
      change (JsString.eqb (lit "preview-level impact-level")
                           (lit "outcome-item")) with false.
      change (JsString.eqb (lit "level-header") (lit "outcome-item"))
        with false.
      change (JsString.eqb (lit "level-badge impact-badge")
                           (lit "outcome-item")) with false.
      change (JsString.eqb (lit "level-statement") (lit "outcome-item"))
        with false.
      change (JsString.eqb (lit "preview-legend") (lit "outcome-item"))
        with false.
      cbn iota. lia.
    + cbn [preview.ofClass map list_sum fold_right preview.createLegend].
      fold (preview.ofClass (lit "output-item") level). rewrite H0.
      change (JsString.eqb (lit "preview-container") (lit "output-item"))
        with false.
      change (JsString.eqb (lit "preview-title") (lit "output-item"))
        with false.
      change (JsString.eqb (lit "logic-chain") (lit "output-item"))
        with false.
      change (JsString.eqb (lit "preview-level impact-level")
                           (lit "output-item")) with false.
      change (JsString.eqb (lit "level-header") (lit "output-item"))
        with false.
      change (JsString.eqb (lit "level-badge impact-badge")
                           (lit "output-item")) with false.
      change (JsString.eqb (lit "level-statement") (lit "output-item"))
        with false.
      change (JsString.eqb (lit "preview-legend") (lit "output-item"))
        with false.
      cbn iota. lia.
    + cbn [preview.textsIn flat_map app preview.createLegend].
      rewrite !app_nil_r. apply incl_app.
      * intros t H. apply Hst in H. destruct H as [<- | []].
        right. right. left. reflexivity.
      * do 3 apply incl_tl. eapply incl_tran; [| exact Ht].
        apply incl_tl. apply incl_refl.
  - cbn [Raising.andThen]. eexists. exists outcomes.
    assert (outcomes = []) by (destruct outcomes; [reflexivity | discriminate]).
    subst outcomes.
    split; [reflexivity |]. split; [reflexivity |].
    split; [reflexivity |]. split; [reflexivity |].
    cbn [preview.textsIn flat_map app preview.createLegend].
    rewrite !app_nil_r.
    intros t H. apply Hst in H. destruct H as [<- | []].
    right. right. left. reflexivity.
Qed.

Lemma preview_lists_everything_witness :
  exists node,
    preview.generatePreview scenario = Ok node
    /\ preview.ofClass (lit "outcome-item") node = 2
    /\ preview.ofClass (lit "output-item") node = 3.
Proof.
  destruct (preview_lists_everything scenario eq_refl eq_refl)
    as (node & outcomes & E & Eo & H1 & H0 & _).
  injection Eo as <-. exists node. auto.
Defined.

(** ** The scene: one output node per key *)

Lemma map_mapi_from {A B C} (h : B -> C) (h' : A -> C) (f : nat -> A -> B)
  (l : list A) :
  (forall i a, h (f i a) = h' a) ->
  forall s, map h (mapi_from f s l) = map h' l.
Proof.
  intros H. induction l as [|a l IH]; intros s; [reflexivity |].
  cbn [mapi_from map]. rewrite H, IH. reflexivity.
Qed.

Lemma uniqueOutputs_keys (outcomes : list Outcome) :
  map (fun od => statementKey (stringOf (output_statement (output od))))
      (uniqueOutputsOf outcomes)
  = firstSeen (map keyOf (occurrences outcomes)).
Proof.
  unfold uniqueOutputsOf. rewrite map_map.
  pose proof (outputsMapOf_entries outcomes) as H.
  induction H as [|kv k m keys (_ & _ & Efirst) _ IH]; [reflexivity |].
  cbn [map]. rewrite IH, (firstFor_key _ _ _ Efirst). reflexivity.
Qed.

(** X23: the output nodes of the scene, which come after the impact node
    and the outcome nodes, stand for the distinct keys of the outputs of
    the snapshot, a key being a statement trimmed and in lower case: read
    from left to right, the keys of their texts are these keys in the order
    in which the outputs first have them, so that no two output nodes have
    the same key and no output is without a node. *)
Theorem output_nodes_one_per_key (data : Data) :
  shaped data = true ->
  exists svg outcomes,
    generateSVGVisualization data = Ok svg
    /\ data_outcomes data = Some outcomes
    /\ map (fun g => statementKey (rect_title (g_rect g)))
           (skipn (1 + length outcomes) (nodes svg))
       = firstSeen (map keyOf (occurrences outcomes))
    /\ NoDup (map (fun g => statementKey (rect_title (g_rect g)))
                  (skipn (1 + length outcomes) (nodes svg)))
    /\ forall outcome o,
         In outcome outcomes ->
         In o (arrayOf (outcome_outputs outcome)) ->
         exists g,
           In g (skipn (1 + length outcomes) (nodes svg))
           /\ statementKey (rect_title (g_rect g))
              = statementKey (stringOf (output_statement o)).
Proof.
  intros Hs.
  destruct (scene_parts data Hs)
    as (svg & st & outcomes & E & _ & Eo & _ & _ & _ & _ & _ & En & _).
  exists svg, outcomes. split; [exact E |]. split; [exact Eo |].
  assert (Ek : map (fun g => statementKey (rect_title (g_rect g)))
                   (skipn (1 + length outcomes) (nodes svg))
               = firstSeen (map keyOf (occurrences outcomes))).
  { rewrite En. cbn [Nat.add skipn].
    rewrite skipn_app, mapi_from_length, Nat.sub_diag.
    rewrite skipn_all2 by (rewrite mapi_from_length; lia).
    cbn [skipn app].
    rewrite (map_mapi_from _
               (fun od => statementKey
                            (stringOf (output_statement (output od)))))
      by reflexivity.
    apply uniqueOutputs_keys. }
  split; [exact Ek |]. split; [rewrite Ek; apply firstSeen_NoDup |].
  intros oc o Hoc Ho.
  assert (Hin : In (statementKey (stringOf (output_statement o)))
                   (firstSeen (map keyOf (occurrences outcomes)))).
  { apply firstSeen_In. apply in_map_iff. exists (outcome_id oc, o).
    split; [reflexivity |]. unfold occurrences. apply in_flat_map.
    exists oc. split; [exact Hoc |]. apply in_map. exact Ho. }
  rewrite <- Ek in Hin. apply in_map_iff in Hin.
  destruct Hin as (g & Eg & Hg). exists g. auto.
Qed.

Lemma output_nodes_one_per_key_witness :
  exists svg,
    generateSVGVisualization scenario = Ok svg
    /\ map (fun g => statementKey (rect_title (g_rect g)))
           (skipn 3 (nodes svg))
       = [lit "shared thing"; lit "only a"].
Proof.
  destruct (output_nodes_one_per_key scenario eq_refl)
    as (svg & outcomes & E & Eo & Ek & _).
  injection Eo as <-. exists svg. split; [exact E |]. exact Ek.
Defined.

(** ** The engine returns only when what it reads is there *)

Lemma bind_Ok {A B} (c : M A) (k : A -> M B) (d : Dom) (r : B * Dom) :
  bind c k d = Ok r ->
  exists a d', c d = Ok (a, d') /\ k a d' = Ok r.
Proof.
  unfold bind. destruct (c d) as [[a d'] | e]; [| discriminate].
  intros H. exists a, d'. auto.
Qed.

Lemma expect_Ok {A} (site : string) (v : option A) (d : Dom) (r : A * Dom) :
  expect site v d = Ok r -> exists a, v = Some a /\ r = (a, d).
Proof.
  destruct v as [a |]; cbn; [| discriminate].
  intros H. injection H as <-. exists a. auto.
Qed.

(** A loop that returns has returned from every turn. *)
Lemma forEach_from_Ok_each {A St} (f : A -> nat -> St -> M St) (l : list A) :
  forall i s d r,
    forEach_from f l i s d = Ok r ->
    Forall (fun a => exists i s d r, f a i s d = Ok r) l.
Proof.
  induction l as [|a l IH]; intros i s d r H; [constructor |].
  cbn [forEach_from] in H. apply bind_Ok in H.
  destruct H as (s' & d' & E & H). constructor; [eauto |].
  eapply IH. exact H.
Qed.

Lemma createNode_Ok (x y width height : Q) (text : option jsstr)
  (color label : jsstr) (indicatorCount : nat) (isShared : bool) (d : Dom)
  (r : Node * Dom) :
  createNode x y width height text color label indicatorCount isShared d = Ok r ->
  isString text = true.
Proof.
  unfold createNode. intros H. apply bind_Ok in H.
  destruct H as (t & d' & E & _). apply expect_Ok in E.
  destruct E as (a & -> & _). reflexivity.
Qed.

(** X24: when the engine returns a scene, the snapshot had the statements
    and the arrays the engine goes through: an impact with a statement, an
    array of outcomes, in every outcome a statement and an array of
    outputs, and in every output a statement.  On a snapshot that lacks
    one of them the engine raises. *)
Theorem engine_returns_only_if_read (data : Data) :
  draws data ->
  exists impact outcomes,
    data_impact data = Some impact
    /\ isString (impact_statement impact) = true
    /\ data_outcomes data = Some outcomes
    /\ Forall (fun outcome =>
                 isString (outcome_statement outcome) = true
                 /\ exists outputs,
                      outcome_outputs outcome = Some outputs
                      /\ Forall (fun o => isString (output_statement o) = true)
                                outputs)
              outcomes.
Proof.
  intros [svg Hsvg]. unfold generateSVGVisualization in Hsvg.
  destruct (build data emptyDom) as [[[w h] d] | e] eqn:Eb; [| discriminate].
  clear Hsvg. unfold build in Eb.
  apply bind_Ok in Eb. destruct Eb as (us & d1 & Eu & Eb).
  (* the de-duplication *)
  assert (Hu : exists outcomes,
             data_outcomes data = Some outcomes
             /\ Forall (fun outcome =>
                          exists outputs,
                            outcome_outputs outcome = Some outputs
                            /\ Forall (fun o => isString (output_statement o)
                                                = true) outputs)
                       outcomes).
  { unfold collectUniqueOutputs in Eu. apply bind_Ok in Eu.
    destruct Eu as (outcomes & d0 & E & Eu). apply expect_Ok in E.
    destruct E as (a & Eo & E). injection E as -> ->.
    exists a. split; [exact Eo |].
    apply bind_Ok in Eu. destruct Eu as (m & d2 & Eu & _).
    apply forEach_from_Ok_each in Eu.
    eapply Forall_impl; [| exact Eu].
    intros outcome (i & s & d3 & r & Hc). unfold collectOutcome in Hc.
    apply bind_Ok in Hc. destruct Hc as (outputs & d4 & E & Hc).
    apply expect_Ok in E. destruct E as (a' & Eo' & E). injection E as -> ->.
    exists a'. split; [exact Eo' |].
    apply forEach_from_Ok_each in Hc.
    eapply Forall_impl; [| exact Hc].
    intros o (j & s' & d5 & r' & Ho). unfold collectOutput in Ho.
    apply bind_Ok in Ho. destruct Ho as (st & d6 & E & _).
    apply expect_Ok in E. destruct E as (a'' & -> & _). reflexivity. }
  destruct Hu as (outcomes & Eo & Hos). clear Eu.
  apply bind_Ok in Eb. destruct Eb as (outcomes' & d2 & E & Eb).
  apply expect_Ok in E. destruct E as (a & Eo' & E). injection E as -> ->.
  rewrite Eo in Eo'. injection Eo' as <-.
  (* title, description, definitions *)
  do 6 (apply bind_Ok in Eb; destruct Eb as (? & ? & _ & Eb)).
  (* the impact *)
  apply bind_Ok in Eb. destruct Eb as (impact & d3 & E & Eb).
  apply expect_Ok in E. destruct E as (a & Ei & E). injection E as -> ->.
  apply bind_Ok in Eb. destruct Eb as (impactNode & d4 & En & Eb).
  apply createNode_Ok in En.
  apply bind_Ok in Eb. destruct Eb as (? & d5 & _ & Eb).
  (* the outcomes *)
  apply bind_Ok in Eb. destruct Eb as (outcomeNodes & d6 & Eoc & _).
  unfold forEach in Eoc. apply forEach_from_Ok_each in Eoc.
  exists a, outcomes. split; [exact Ei |]. split; [exact En |].
  split; [exact Eo |].
  rewrite Forall_forall in *. intros outcome Hin.
  destruct (Eoc outcome Hin) as (i & s & d8 & r & Hc).
  unfold outcomeStep in Hc.
  apply bind_Ok in Hc. destruct Hc as (indicators & d9 & _ & Hc).
  apply bind_Ok in Hc. destruct Hc as (node & d10 & Enode & _).
  apply createNode_Ok in Enode.
  split; [exact Enode |]. apply Hos. exact Hin.
Qed.

Lemma engine_returns_only_if_read_witness :
  exists impact outcomes,
    data_impact scenario = Some impact
    /\ isString (impact_statement impact) = true
    /\ data_outcomes scenario = Some outcomes
    /\ Forall (fun outcome =>
                 isString (outcome_statement outcome) = true
                 /\ exists outputs,
                      outcome_outputs outcome = Some outputs
                      /\ Forall (fun o => isString (output_statement o) = true)
                                outputs)
              outcomes.
Proof.
  apply engine_returns_only_if_read.
  destruct (generate_scene scenario eq_refl) as (svg & E & _).
  exists svg. exact E.
Defined.

(** A snapshot that lacks another property of the data model may still be
    drawn: the array of indicators of an output whose key an earlier
    output has is never read. *)
Example later_output_indicators_not_read :
  shaped laterOutputWithoutIndicators = false
  /\ isValidData laterOutputWithoutIndicators = false
  /\ draws laterOutputWithoutIndicators.
Proof.
  split; [reflexivity |]. split; [reflexivity |].
  destruct (generateSVGVisualization laterOutputWithoutIndicators)
    as [svg | e] eqn:E.
  - exists svg. exact E.
  - exfalso. vm_compute in E. discriminate.
Qed.
